(** * Record linkage of trading screenshots: [image_analyzer.py]

    A shallow embedding of the matching core of [ImageAnalyzer]
    ([detect_coin_name], [_calculate_match_score], [match_signals_to_results])
    and the properties of it that the specification states.

    Conventions of the embedding.
    - A Python [float] is an exact rational ([Q]); a literal such as [0.6] is
      the rational 6/10.  Equality of scores is [Qeq] ([==]).
    - A dict entry is a [Field]: the key is missing, bound to [None], or bound
      to a value.  [d.get(k)] and [d.get(k, default)] are [get] and
      [get_default].
    - Code that can raise returns an [Exc]; the [try ... except Exception] of
      [match_signals_to_results] is written out as a handler. *)

From Stdlib Require Import List Bool Arith ZArith QArith Qabs String Ascii Lia.
From Stdlib Require Import Qminmax Lqa Permutation Sorted.
Import ListNotations.

(** ** Python values *)

Module Py.

Inductive Field (A : Type) : Type :=
| Missing
| PyNone
| Val (a : A).
Arguments Missing {A}.
Arguments PyNone {A}.
Arguments Val {A} a.

(** [d.get(k)]: [None] when the key is missing or bound to [None]. *)
Definition get {A} (f : Field A) : option A :=
  match f with
  | Val a => Some a
  | _ => None
  end.

(** [d.get(k, default)]: the default is used only when the key is missing;
    a key bound to [None] yields [None]. *)
Definition get_default {A} (f : Field A) (default : option A) : option A :=
  match f with
  | Missing => default
  | PyNone => None
  | Val a => Some a
  end.

(** Truth value of an optional string: [None] and [''] are false. *)
Definition truthy_str (s : option string) : bool :=
  match s with
  | Some s => negb (String.eqb s EmptyString)
  | None => false
  end.

(** Truth value of an optional float: [None] and [0.0] are false. *)
Definition truthy_float (x : option Q) : bool :=
  match x with
  | Some q => negb (Qeq_bool q 0)
  | None => false
  end.

(** [x or y] on optional floats. *)
Definition or_float (x y : option Q) : option Q :=
  if truthy_float x then x else y.

(** [s.upper()], on ASCII text. *)
Definition upper_char (c : ascii) : ascii :=
  let n := nat_of_ascii c in
  if (97 <=? n)%nat && (n <=? 122)%nat then ascii_of_nat (n - 32) else c.

Fixpoint upper (s : string) : string :=
  match s with
  | EmptyString => EmptyString
  | String c s' => String (upper_char c) (upper s')
  end.

(** [sub in s] on strings. *)
Fixpoint contains (s sub : string) : bool :=
  String.prefix sub s ||
  match s with
  | EmptyString => false
  | String _ s' => contains s' sub
  end.

Inductive PyExc : Type :=
| KeyError (key : string)
| IndexError
| AttributeError
| TypeError (msg : string).

Inductive Exc (A : Type) : Type :=
| Ok (a : A)
| Raise (e : PyExc).
Arguments Ok {A} a.
Arguments Raise {A} e.

Definition bind {A B} (m : Exc A) (k : A -> Exc B) : Exc B :=
  match m with
  | Ok a => k a
  | Raise e => Raise e
  end.

(** [try: m  except Exception as e: handler e]. *)
Definition try_except {A} (m : Exc A) (handler : PyExc -> Exc A) : Exc A :=
  match m with
  | Ok a => Ok a
  | Raise e => handler e
  end.

(** [xs[i]] on a list. *)
Definition subscript {A} (xs : list A) (i : nat) : Exc A :=
  match nth_error xs i with
  | Some x => Ok x
  | None => Raise IndexError
  end.

(** [x < y] on floats, as a boolean. *)
Definition Qlt_bool (x y : Q) : bool := negb (Qle_bool y x).

(** [a < b] on values that are a float or [None]: Python 3 orders no
    [None]. *)
Definition lt (a b : option Q) : Exc bool :=
  match a, b with
  | Some x, Some y => Ok (Qlt_bool x y)
  | _, _ => Raise (TypeError "'<' not supported between instances")
  end.

End Py.
Import Py.

Notation "x <- m ;; k" := (bind m (fun x => k))
  (at level 61, m at next level, right associativity).

(** ** [difflib.SequenceMatcher(None, a, b).ratio()]

    The Ratcliff/Obershelp measure of CPython's [difflib], for sequences
    shorter than 200 elements (beyond that length [autojunk] prunes popular
    elements) and no junk predicate, which is how the analyzer calls it. *)

Module Difflib.

Fixpoint common_prefix (a b : list ascii) : nat :=
  match a, b with
  | x :: a', y :: b' =>
      if Ascii.eqb x y then S (common_prefix a' b') else 0%nat
  | _, _ => 0%nat
  end.

(** A block [(i, j, k)]: [a[i:i+k] == b[j:j+k]]. *)
Definition Block : Type := (nat * nat * nat)%type.
Definition size (m : Block) : nat := snd m.

(** A block that lies within sequences of lengths [la] and [lb]. *)
Definition fits (la lb : nat) (m : Block) : Prop :=
  (fst (fst m) + size m <= la)%nat /\ (snd (fst m) + size m <= lb)%nat.

(** Blocks starting at [a[i]], over the starts [j] of [b] in increasing
    order; only a strictly longer block replaces the best so far. *)
Fixpoint best_in_b (asuf : list ascii) (i : nat) (b : list ascii) (j : nat)
         (best : Block) : Block :=
  match b with
  | [] => best
  | _ :: b' =>
      let k := common_prefix asuf b in
      best_in_b asuf i b' (S j)
                (if (size best <? k)%nat then (i, j, k) else best)
  end.

Fixpoint best_in_a (a : list ascii) (i : nat) (b : list ascii)
         (best : Block) : Block :=
  match a with
  | [] => best
  | _ :: a' => best_in_a a' (S i) b (best_in_b a i b 0%nat best)
  end.

(** [find_longest_match]: the longest common block; among the longest, the
    one that starts earliest in [a], and of those the earliest in [b]. *)
Definition find_longest_match (a b : list ascii) : Block :=
  best_in_a a 0%nat b (0%nat, 0%nat, 0%nat).

(** Total size of [get_matching_blocks()]: the longest block, then the same
    to its left and to its right. *)
Fixpoint matches (fuel : nat) (a b : list ascii) : nat :=
  match fuel with
  | O => 0%nat
  | S fuel' =>
      let '(i, j, k) := find_longest_match a b in
      if (k =? 0)%nat then 0%nat
      else
        (k
         + (if (0 <? i)%nat && (0 <? j)%nat
            then matches fuel' (firstn i a) (firstn j b) else 0)
         + (if (i + k <? List.length a)%nat && (j + k <? List.length b)%nat
            then matches fuel' (skipn (i + k) a) (skipn (j + k) b)
            else 0))%nat
  end.

Definition matching_size (a b : list ascii) : nat :=
  matches (S (List.length a)) a b.

(** [ratio()]: [2.0 * matches / length], and [1.0] for two empty
    sequences. *)
Definition ratio (a b : string) : Q :=
  let la := list_ascii_of_string a in
  let lb := list_ascii_of_string b in
  let total := (List.length la + List.length lb)%nat in
  if (total =? 0)%nat then 1
  else (2 * inject_Z (Z.of_nat (matching_size la lb))) / inject_Z (Z.of_nat total).

End Difflib.

Local Open Scope string_scope.
Local Open Scope list_scope.

(** ** [re.findall(r'\b[A-Z]{2,8}\b', text)]

    The pattern of [self.patterns['coin']], matched the way a backtracking
    engine does, on ASCII text (the OCR whitelist is ASCII; a character above
    127 counts as a non-word character here). *)

Module Re.

Definition in_range (lo hi c : ascii) : bool :=
  (nat_of_ascii lo <=? nat_of_ascii c)%nat &&
  (nat_of_ascii c <=? nat_of_ascii hi)%nat.

(** [[A-Z]] *)
Definition is_upper (c : ascii) : bool := in_range "A" "Z" c.

(** [\w] *)
Definition is_word (c : ascii) : bool :=
  in_range "a" "z" c || in_range "A" "Z" c || in_range "0" "9" c
  || Ascii.eqb c "_".

Definition is_word_at (c : option ascii) : bool :=
  match c with
  | Some c => is_word c
  | None => false
  end.

(** [\b] between two neighbouring positions ([None] outside the text). *)
Definition word_boundary (before after : option ascii) : bool :=
  negb (Bool.eqb (is_word_at before) (is_word_at after)).

(** Number of leading [[A-Z]]. *)
Fixpoint upper_run (s : list ascii) : nat :=
  match s with
  | c :: s' => if is_upper c then S (upper_run s') else 0%nat
  | [] => 0%nat
  end.

(** [{2,8}] is greedy: with [k] letters taken, try the closing [\b]; if it
    fails give one letter back, down to two letters. *)
Fixpoint backtrack (s : list ascii) (k : nat) : option nat :=
  match k with
  | O => None
  | S k' =>
      if (2 <=? k)%nat && word_boundary (nth_error s k') (nth_error s k)
      then Some k
      else backtrack s k'
  end.

(** A match that starts at the head of [s], [before] being the character in
    front of it: its length. *)
Definition match_here (before : option ascii) (s : list ascii) : option nat :=
  if word_boundary before (hd_error s)
  then backtrack s (Nat.min 8 (upper_run s))
  else None.

(** Leftmost matches, not overlapping: [skip] characters still belong to
    the match found last. *)
Fixpoint findall_from (before : option ascii) (skip : nat) (s : list ascii)
  : list string :=
  match s with
  | [] => []
  | c :: s' =>
      match skip with
      | S n => findall_from (Some c) n s'
      | O =>
          match match_here before s with
          | Some k =>
              string_of_list_ascii (firstn k s)
                :: findall_from (Some c) (k - 1) s'
          | None => findall_from (Some c) 0 s'
          end
      end
  end.

Definition findall_coin (text : string) : list string :=
  findall_from None 0 (list_ascii_of_string text).

End Re.

(** ** The records of [image_analyzer.py] *)

(** The value bound to ['timestamp'].  [analyze_image] stores
    [datetime.now().isoformat()], a string; the embedding keeps, in place of
    its characters, what [datetime.fromisoformat] makes of them. *)
Inductive Timestamp : Type :=
| Iso (aware : bool) (us : Z)  (* parses: with or without UTC offset; the instant in microseconds *)
| Malformed                    (* a non-empty value that [fromisoformat] rejects *)
| EmptyStr.                    (* [''] *)

Definition truthy_timestamp (t : option Timestamp) : bool :=
  match t with
  | Some EmptyStr => false
  | Some _ => true
  | None => false
  end.

(** [datetime.fromisoformat]: [None] stands for the [ValueError]. *)
Definition fromisoformat (t : Timestamp) : option (bool * Z) :=
  match t with
  | Iso aware us => Some (aware, us)
  | _ => None
  end.

(** [abs((result_dt - signal_dt).total_seconds())]; subtracting an aware from
    a naive datetime raises [TypeError], here [None]. *)
Definition abs_total_seconds (signal_dt result_dt : bool * Z) : option Q :=
  if Bool.eqb (fst signal_dt) (fst result_dt)
  then Some (Qabs ((snd result_dt - snd signal_dt) # 1000000))
  else None.

(** The dict that [analyze_image] returns (the value under ['data']), with the
    keys that the matcher reads. *)
Module Data.
Record t : Type := mk {
  coin : Field string;
  entry_price : Field Q;
  exit_price : Field Q;
  roi : Field Q;
  status : Field string;
  timestamp : Field Timestamp
}.
End Data.

(** One element of [processed_data]: [{'path': ..., 'type': ..., 'data': ...}].
    [data = None] stands for a false value under ['data'] ([None] or [{}]). *)
Module Item.
Record t : Type := mk {
  path : string;
  type : string;
  data : option Data.t
}.
End Item.

(** One emitted trade dict.  The three kinds of trade do not bind the same
    keys, so prices and roi are [Field]s. *)
Module Trade.
Record t : Type := mk {
  coin : string;
  entry_price : Field Q;
  exit_price : Field Q;
  roi : Field Q;
  status : option string;
  signal_image : option string;
  result_image : option string;
  match_confidence : Q;
  timestamp : option Timestamp
}.
End Trade.

(** [{... 'k': v ...}] with [v] an optional value: the key is bound. *)
Definition bound {A} (v : option A) : Field A :=
  match v with
  | Some a => Val a
  | None => PyNone
  end.

(** ** [detect_coin_name] *)

(** One element of [text_regions], with the keys that coin detection reads. *)
Module Region.
Record t : Type := mk {
  text : string;
  confidence : Q
}.
End Region.

(** [default_coins] of [_load_known_coins]. *)
Definition default_coins : list string :=
  ["BTC"; "ETH"; "BNB"; "ADA"; "DOT"; "XRP"; "LINK"; "LTC"; "BCH";
   "UNI"; "THETA"; "XLM"; "VET"; "FIL"; "TRX"; "EOS"; "ATOM"; "NEO";
   "AVAX"; "LUNA"; "SOL"; "MATIC"; "ALGO"; "ICP"; "EGLD"; "RUNE";
   "EPIC"; "FLOKI"; "HBAR"; "COOK"; "TAO"; "ZORA"; "DOGE"; "SHIB"].

(** [(best_match, best_confidence)] *)
Definition Detection : Type := (string * Q)%type.

(** [if confidence > best_confidence: best_match = coin; best_confidence =
    confidence] *)
Definition keep_better (best : Detection) (candidate : string * Q) : Detection :=
  if Qlt_bool (snd best) (snd candidate) then candidate else best.

Section Detect.
Local Open Scope Q_scope.
Variable known_coins : list string.

(** Direkte Übereinstimmung mit bekannten Coins *)
Definition exact_step (region : Region.t) (text : string) (best : Detection)
           (coin : string) : Detection :=
  if contains text coin
  then keep_better best (coin, Region.confidence region)
  else best.

(** Ähnlichkeit zu bekannten Coins prüfen *)
Definition similar_step (region : Region.t) (token : string) (best : Detection)
           (coin : string) : Detection :=
  let similarity := Difflib.ratio token coin in
  if Qlt_bool 0.8 similarity
  then keep_better best (coin, Region.confidence region * similarity)
  else best.

(** The body of [for match in matches]. *)
Definition token_step (region : Region.t) (best : Detection) (token : string)
  : Detection :=
  if (2 <=? String.length token)%nat
  then fold_left (similar_step region token) known_coins best
  else best.

(** The body of [for region in text_regions]. *)
Definition region_step (best : Detection) (region : Region.t) : Detection :=
  let text := upper (Region.text region) in
  let best := fold_left (exact_step region text) known_coins best in
  fold_left (token_step region) (Re.findall_coin text) best.

Definition detect_coin_name (text_regions : list Region.t) : Detection :=
  fold_left region_step text_regions (EmptyString, 0).

End Detect.

(** ** [_calculate_match_score] *)

Section Score.
Local Open Scope Q_scope.

(** The running pair [(score, max_score)]. *)
Definition Tally : Type := (Q * Q)%type.

(** Coin-Name Übereinstimmung *)
Definition coin_factor (signal_data result_data : Data.t) (st : Tally) : Tally :=
  let '(score, max_score) := st in
  match get (Data.coin signal_data), get (Data.coin result_data) with
  | Some sc, Some rc =>
      if truthy_str (Some sc) && truthy_str (Some rc) then
        let max_score := max_score + 0.6 in
        if String.eqb sc rc then (score + 0.6, max_score)
        else
          let similarity := Difflib.ratio sc rc in
          (score + 0.6 * similarity * 0.5, max_score)
      else (score, max_score)
  | _, _ => (score, max_score)
  end.

(** Timestamp-Nähe *)
Definition time_factor (signal_data result_data : Data.t) (st : Tally) : Tally :=
  let '(score, max_score) := st in
  let signal_time := get (Data.timestamp signal_data) in
  let result_time := get (Data.timestamp result_data) in
  match signal_time, result_time with
  | Some s, Some r =>
      if truthy_timestamp signal_time && truthy_timestamp result_time then
        let max_score := max_score + 0.2 in
        match fromisoformat s, fromisoformat r with
        | Some signal_dt, Some result_dt =>
            match abs_total_seconds signal_dt result_dt with
            | Some time_diff =>
                if Qle_bool time_diff 3600 then (score + 0.2, max_score)
                else if Qle_bool time_diff 86400
                     then (score + 0.2 * (1 - time_diff / 86400), max_score)
                     else (score, max_score)
            | None => (score, max_score)
            end
        | _, _ => (score, max_score)
        end
      else (score, max_score)
  | _, _ => (score, max_score)
  end.

(** Preis-Konsistenz *)
Definition price_factor (signal_data result_data : Data.t) (st : Tally) : Tally :=
  let '(score, max_score) := st in
  let signal_price := get (Data.entry_price signal_data) in
  let result_price :=
    or_float (get (Data.entry_price result_data))
             (get (Data.exit_price result_data)) in
  match signal_price, result_price with
  | Some sp, Some rp =>
      if truthy_float signal_price && truthy_float result_price then
        let max_score := max_score + 0.2 in
        let price_ratio := Qmin sp rp / Qmax sp rp in
        if Qlt_bool 0.8 price_ratio then (score + 0.2 * price_ratio, max_score)
        else (score, max_score)
      else (score, max_score)
  | _, _ => (score, max_score)
  end.

Definition tally (signal_data result_data : Data.t) : Tally :=
  price_factor signal_data result_data
    (time_factor signal_data result_data
       (coin_factor signal_data result_data (0, 0))).

Definition _calculate_match_score (signal_data result_data : Data.t) : Q :=
  let '(score, max_score) := tally signal_data result_data in
  if Qlt_bool 0 max_score then score / max_score else 0.

End Score.

(** ** [match_signals_to_results] *)

(** [self.config], as far as the matcher reads it; a config dict given to the
    constructor need not bind ['auto_match_threshold']. *)
Record Config : Type := { auto_match_threshold : option Q }.

Definition _get_default_config : Config :=
  {| auto_match_threshold := Some 0.8%Q |}.

(** [i in used_results] *)
Definition in_set (i : nat) (used_results : list nat) : bool :=
  existsb (Nat.eqb i) used_results.

Section Matcher.
Variable config : Config.

(** [(best_match, best_score)] *)
Definition Best : Type := (option nat * Q)%type.

(** The body of [for i, result in enumerate(results)]. *)
Definition consider (signal_data : Data.t) (used_results : list nat)
           (best : Best) (i : nat) (result : Item.t) : Exc Best :=
  if in_set i used_results then Ok best
  else
    match Item.data result with
    | None => Ok best
    | Some result_data =>
        let score := _calculate_match_score signal_data result_data in
        if Qlt_bool (snd best) score then
          match auto_match_threshold config with
          | None => Raise (KeyError "auto_match_threshold")
          | Some threshold =>
              if Qle_bool threshold score then Ok (Some i, score) else Ok best
          end
        else Ok best
    end.

Fixpoint scan_results (signal_data : Data.t) (used_results : list nat)
         (i : nat) (results : list Item.t) (best : Best) : Exc Best :=
  match results with
  | [] => Ok best
  | result :: rest =>
      best' <- consider signal_data used_results best i result ;;
      scan_results signal_data used_results (S i) rest best'
  end.

(** Match gefunden *)
Definition matched_trade (coin : string) (signal : Item.t) (signal_data : Data.t)
           (result : Item.t) (result_data : Data.t) (best_score : Q) : Trade.t :=
  {| Trade.coin := coin;
     Trade.entry_price := bound (get (Data.entry_price signal_data));
     Trade.exit_price := bound (get (Data.exit_price result_data));
     Trade.roi := bound (get_default (Data.roi result_data)
                                     (get (Data.roi signal_data)));
     Trade.status := get_default (Data.status result_data) (Some "unknown");
     Trade.signal_image := Some (Item.path signal);
     Trade.result_image := Some (Item.path result);
     Trade.match_confidence := best_score;
     Trade.timestamp := get (Data.timestamp signal_data) |}.

(** Kein Match - Signal allein verwenden *)
Definition signal_only_trade (coin : string) (signal : Item.t)
           (signal_data : Data.t) : Trade.t :=
  {| Trade.coin := coin;
     Trade.entry_price := bound (get (Data.entry_price signal_data));
     Trade.exit_price := Missing;
     Trade.roi := bound (get (Data.roi signal_data));
     Trade.status := get_default (Data.status signal_data) (Some "pending");
     Trade.signal_image := Some (Item.path signal);
     Trade.result_image := None;
     Trade.match_confidence := 0;
     Trade.timestamp := get (Data.timestamp signal_data) |}.

(** Ungematchte Ergebnisse *)
Definition result_only_trade (coin : string) (result : Item.t)
           (result_data : Data.t) : Trade.t :=
  {| Trade.coin := coin;
     Trade.entry_price := Missing;
     Trade.exit_price := bound (get (Data.exit_price result_data));
     Trade.roi := bound (get (Data.roi result_data));
     Trade.status := get_default (Data.status result_data) (Some "unknown");
     Trade.signal_image := None;
     Trade.result_image := Some (Item.path result);
     Trade.match_confidence := 0;
     Trade.timestamp := get (Data.timestamp result_data) |}.

(** [(matched_trades, used_results)] *)
Definition Matching : Type := (list Trade.t * list nat)%type.

(** The body of [for signal in signals]. *)
Definition process_signal (results : list Item.t) (st : Matching)
           (signal : Item.t) : Exc Matching :=
  let '(matched_trades, used_results) := st in
  match Item.data signal with
  | None => Ok st
  | Some signal_data =>
      match get (Data.coin signal_data) with
      | None => Ok st
      | Some coin =>
          if negb (truthy_str (Some coin)) then Ok st
          else
            best <- scan_results signal_data used_results 0 results (None, 0%Q) ;;
            match fst best with
            | Some best_match =>
                result <- subscript results best_match ;;
                match Item.data result with
                | None => Raise AttributeError
                | Some result_data =>
                    let trade := matched_trade coin signal signal_data
                                               result result_data (snd best) in
                    Ok (matched_trades ++ [trade], best_match :: used_results)
                end
            | None =>
                Ok (matched_trades ++ [signal_only_trade coin signal signal_data],
                    used_results)
            end
      end
  end.

Fixpoint process_signals (results : list Item.t) (signals : list Item.t)
         (st : Matching) : Exc Matching :=
  match signals with
  | [] => Ok st
  | signal :: rest =>
      st' <- process_signal results st signal ;;
      process_signals results rest st'
  end.

(** The second [for i, result in enumerate(results)]. *)
Fixpoint unmatched_results (used_results : list nat) (i : nat)
         (results : list Item.t) : list Trade.t :=
  match results with
  | [] => []
  | result :: rest =>
      let tail := unmatched_results used_results (S i) rest in
      if in_set i used_results then tail
      else
        match Item.data result with
        | None => tail
        | Some result_data =>
            match get (Data.coin result_data) with
            | Some coin =>
                if truthy_str (Some coin)
                then result_only_trade coin result result_data :: tail
                else tail
            | None => tail
            end
        end
  end.

(** [key=lambda x: x.get('roi', 0)] *)
Definition sort_key (x : Trade.t) : option Q :=
  get_default (Trade.roi x) (Some 0%Q).

(** [list.sort(key=..., reverse=True)]: a stable sort into descending key
    order that compares keys with [<]; a comparison that raises ends it. *)
Fixpoint insert_desc (x : Trade.t) (sorted : list Trade.t) : Exc (list Trade.t) :=
  match sorted with
  | [] => Ok [x]
  | y :: rest =>
      below <- Py.lt (sort_key x) (sort_key y) ;;
      if (below : bool) then (rest' <- insert_desc x rest ;; Ok (y :: rest'))
      else Ok (x :: sorted)
  end.

Fixpoint sort_desc (l : list Trade.t) : Exc (list Trade.t) :=
  match l with
  | [] => Ok []
  | x :: rest => sorted <- sort_desc rest ;; insert_desc x sorted
  end.

(** [[d for d in processed_data if d['type'] == kind]] *)
Definition of_type (kind : string) (processed_data : list Item.t) : list Item.t :=
  filter (fun d => Item.type d =? kind) processed_data.

(** The trades before the final sort. *)
Definition collect_trades (processed_data : list Item.t) : Exc (list Trade.t) :=
  let signals := of_type "signal" processed_data in
  let results := of_type "result" processed_data in
  st <- process_signals results signals ([], []) ;;
  Ok (fst st ++ unmatched_results (snd st) 0 results).

(** The [try] block. *)
Definition match_body (processed_data : list Item.t) : Exc (list Trade.t) :=
  matched_trades <- collect_trades processed_data ;;
  sort_desc matched_trades.

Definition match_signals_to_results (processed_data : list Item.t)
  : Exc (list Trade.t) :=
  try_except (match_body processed_data) (fun _ => Ok []).

End Matcher.

(** ** Vocabulary of the specification *)

Section Vocabulary.
Local Open Scope Q_scope.

(** The candidates that coin detection takes into account, each with its
    confidence: a registry symbol contained in the text of a region, at the
    confidence of the region; a registry symbol whose similarity to a token
    of the region exceeds 0.8, at the confidence of the region times the
    similarity. *)
Inductive Accepted (known_coins : list string) (text_regions : list Region.t)
  : string * Q -> Prop :=
| exact_hit (region : Region.t) (coin : string) :
    In region text_regions ->
    In coin known_coins ->
    contains (upper (Region.text region)) coin = true ->
    Accepted known_coins text_regions (coin, Region.confidence region)
| similar_hit (region : Region.t) (token coin : string) :
    In region text_regions ->
    In token (Re.findall_coin (upper (Region.text region))) ->
    (2 <= String.length token)%nat ->
    In coin known_coins ->
    0.8 < Difflib.ratio token coin ->
    Accepted known_coins text_regions
             (coin, Region.confidence region * Difflib.ratio token coin).

(** No registry symbol is contained in the text of a region. *)
Definition no_exact_hit (known_coins : list string)
           (text_regions : list Region.t) : Prop :=
  forall region coin,
    In region text_regions -> In coin known_coins ->
    contains (upper (Region.text region)) coin = false.

(** The candidates in the order in which the loops meet them. *)
Definition exact_candidates (known_coins : list string) (region : Region.t)
  : list (string * Q) :=
  flat_map (fun coin =>
              if contains (upper (Region.text region)) coin
              then [(coin, Region.confidence region)] else [])
           known_coins.

Definition similar_candidates (known_coins : list string) (region : Region.t)
           (token : string) : list (string * Q) :=
  if (2 <=? String.length token)%nat
  then flat_map (fun coin =>
                   if Qlt_bool 0.8 (Difflib.ratio token coin)
                   then [(coin, Region.confidence region * Difflib.ratio token coin)]
                   else [])
                known_coins
  else [].

Definition region_candidates (known_coins : list string) (region : Region.t)
  : list (string * Q) :=
  exact_candidates known_coins region
  ++ flat_map (similar_candidates known_coins region)
              (Re.findall_coin (upper (Region.text region))).

(** Both records carry the canonical symbol [c]. *)
Definition same_canonical_coin (signal_data result_data : Data.t) (c : string) : Prop :=
  get (Data.coin signal_data) = Some c /\
  get (Data.coin result_data) = Some c /\
  c <> EmptyString.

(** Both timestamps parse, and lie at most 3600 s apart. *)
Definition at_most_one_hour_apart (signal_data result_data : Data.t) : Prop :=
  exists aware us1 us2,
    get (Data.timestamp signal_data) = Some (Iso aware us1) /\
    get (Data.timestamp result_data) = Some (Iso aware us2) /\
    (Z.abs (us2 - us1) <= 3600 * 1000000)%Z.

(** The signal exposes the price [sp], the result the price [rp] (its entry
    price, or else its exit price). *)
Definition exposed_prices (signal_data result_data : Data.t) (sp rp : Q) : Prop :=
  get (Data.entry_price signal_data) = Some sp /\
  or_float (get (Data.entry_price result_data))
           (get (Data.exit_price result_data)) = Some rp /\
  ~ sp == 0 /\ ~ rp == 0.

Definition price_ratio (sp rp : Q) : Q := Qmin sp rp / Qmax sp rp.

(** [results[j]] is a candidate of the scan for [signal_data], with score
    [s]: it is not consumed and its data is a true value. *)
Definition candidate (results : list Item.t) (used_results : list nat)
           (signal_data : Data.t) (j : nat) (s : Q) : Prop :=
  exists result result_data,
    nth_error results j = Some result /\
    Item.data result = Some result_data /\
    ~ In j used_results /\
    s = _calculate_match_score signal_data result_data.

(** The score [s] meets the configured threshold. *)
Definition qualifies (config : Config) (s : Q) : Prop :=
  match auto_match_threshold config with
  | Some threshold => threshold <= s
  | None => False
  end.

(** What the scan holds after the results below index [n]. *)
Definition scanned (config : Config) (results : list Item.t)
           (used_results : list nat) (signal_data : Data.t)
           (n : nat) (best : Best) : Prop :=
  0 <= snd best /\
  (forall j s, (j < n)%nat -> candidate results used_results signal_data j s ->
               qualifies config s -> s <= snd best) /\
  match fst best with
  | Some i =>
      (i < n)%nat /\
      candidate results used_results signal_data i (snd best) /\
      qualifies config (snd best) /\
      0 < snd best /\
      (forall j s, (j < i)%nat ->
                   candidate results used_results signal_data j s ->
                   qualifies config s -> s < snd best)
  | None => snd best = 0
  end.

(** Where an emitted trade comes from: a signal matched to a result, a
    signal alone, or a result alone. *)
Inductive Origin (config : Config) (processed_data : list Item.t)
  : Trade.t -> Prop :=
| from_match (signal result : Item.t) (signal_data result_data : Data.t)
             (coin : string) (s : Q) :
    In signal (of_type "signal" processed_data) ->
    In result (of_type "result" processed_data) ->
    Item.data signal = Some signal_data ->
    Item.data result = Some result_data ->
    get (Data.coin signal_data) = Some coin ->
    coin <> EmptyString ->
    s = _calculate_match_score signal_data result_data ->
    qualifies config s ->
    0 < s ->
    Origin config processed_data
           (matched_trade coin signal signal_data result result_data s)
| from_signal (signal : Item.t) (signal_data : Data.t) (coin : string) :
    In signal (of_type "signal" processed_data) ->
    Item.data signal = Some signal_data ->
    get (Data.coin signal_data) = Some coin ->
    coin <> EmptyString ->
    Origin config processed_data (signal_only_trade coin signal signal_data)
| from_result (result : Item.t) (result_data : Data.t) (coin : string) :
    In result (of_type "result" processed_data) ->
    Item.data result = Some result_data ->
    get (Data.coin result_data) = Some coin ->
    coin <> EmptyString ->
    Origin config processed_data (result_only_trade coin result result_data).

(** A matched trade refers to a signal image and to a result image; a
    signal-only or result-only trade to one of them. *)
Definition is_matched (x : Trade.t) : Prop :=
  exists s r, Trade.signal_image x = Some s /\ Trade.result_image x = Some r.


(** The range that [detect_prices] lets through ([0.000001 <= price <=
    1000000]). *)
Definition price_in_range (p : Field Q) : Prop :=
  match get p with
  | Some q => 0.000001 <= q <= 1000000
  | None => True
  end.

(** A record whose prices, if any, are in that range. *)
Definition prices_in_range (d : Item.t) : Prop :=
  match Item.data d with
  | Some data =>
      price_in_range (Data.entry_price data) /\
      price_in_range (Data.exit_price data)
  | None => True
  end.

(** The roi of a trade for ordering, a missing roi counted as 0. *)
Definition roi_or_zero (x : Trade.t) : Q :=
  match get (Trade.roi x) with
  | Some r => r
  | None => 0
  end.

(** [a] may stand before [b] in descending roi order. *)
Definition roi_ge (a b : Trade.t) : Prop := roi_or_zero b <= roi_or_zero a.

(** The result references of a list of trades, in order. *)
Definition result_refs (trades : list Trade.t) : list string :=
  flat_map (fun x => match Trade.result_image x with
                     | Some p => [p]
                     | None => []
                     end) trades.

(** [results[i]['path']] *)
Definition path_at (results : list Item.t) (i : nat) : string :=
  match nth_error results i with
  | Some result => Item.path result
  | None => EmptyString
  end.

(** The consumed indices are distinct positions of [results], and the
    trades collected so far refer to exactly these results. *)
Definition consumed (results : list Item.t) (st : Matching) : Prop :=
  NoDup (snd st) /\
  Forall (fun i => (i < List.length results)%nat) (snd st) /\
  Permutation (result_refs (fst st)) (map (path_at results) (snd st)).

End Vocabulary.

(** ** Sample records *)

Definition sample_data (coin : string) (price : Field Q) (roi : Field Q)
           (us : Z) : Data.t :=
  {| Data.coin := Val coin;
     Data.entry_price := price;
     Data.exit_price := Missing;
     Data.roi := roi;
     Data.status := Val "neutral";
     Data.timestamp := Val (Iso false us) |}.

(** A signal without roi and a result with roi 5: one coin, ten minutes
    apart, prices 9 and 10. *)
Definition btc_signal_data : Data.t := sample_data "BTC" (Val 9%Q) PyNone 0.
Definition btc_result_data : Data.t := sample_data "BTC" (Val 10%Q) (Val 5%Q) 600000000.

(** A signal and a result for the same coin, ten minutes apart. *)
Definition sample_signal : Item.t :=
  {| Item.path := "signal_btc.png"; Item.type := "signal";
     Item.data := Some btc_signal_data |}.

Definition sample_result : Item.t :=
  {| Item.path := "result_btc.png"; Item.type := "result";
     Item.data := Some btc_result_data |}.

(** A result for another coin. *)
Definition sample_other_result : Item.t :=
  {| Item.path := "result_eth.png"; Item.type := "result";
     Item.data := Some (sample_data "ETH" Missing (Val 5%Q) 600000000) |}.

(** A result in which no coin was recognised ([detect_coin_name] returned
    ['']), taken ten minutes after [sample_signal]. *)
Definition coinless_result : Item.t :=
  {| Item.path := "result_unreadable.png"; Item.type := "result";
     Item.data := Some (sample_data EmptyString Missing (Val 7%Q) 600000000) |}.

(** A signal with exit price, roi and status, and a result for the same coin
    that binds none of the three keys. *)
Definition rich_signal_data : Data.t :=
  {| Data.coin := Val "SOL";
     Data.entry_price := Val 20%Q;
     Data.exit_price := Val 25%Q;
     Data.roi := Val 3%Q;
     Data.status := Val "win";
     Data.timestamp := Missing |}.

Definition bare_result_data : Data.t :=
  {| Data.coin := Val "SOL";
     Data.entry_price := Missing;
     Data.exit_price := Missing;
     Data.roi := Missing;
     Data.status := Missing;
     Data.timestamp := Missing |}.

Definition rich_signal : Item.t :=
  {| Item.path := "signal_sol.png"; Item.type := "signal";
     Item.data := Some rich_signal_data |}.

Definition bare_result : Item.t :=
  {| Item.path := "result_sol.png"; Item.type := "result";
     Item.data := Some bare_result_data |}.

(** A signal and a result for coins that differ in one letter, ten minutes
    apart, and a config with a lower threshold. *)
Definition luna_signal : Item.t :=
  {| Item.path := "signal_luna.png"; Item.type := "signal";
     Item.data := Some (sample_data "LUNA" Missing PyNone 0) |}.

Definition lunc_result : Item.t :=
  {| Item.path := "result_lunc.png"; Item.type := "result";
     Item.data := Some (sample_data "LUNC" Missing (Val 12%Q) 600000000) |}.

Definition lenient_config : Config := {| auto_match_threshold := Some 0.5%Q |}.

(** The matched trade of [sample_signal] and [sample_result]. *)
Definition sample_trade : Trade.t :=
  matched_trade "BTC" sample_signal btc_signal_data sample_result btc_result_data
                (_calculate_match_score btc_signal_data btc_result_data).

(** The matched trade of [rich_signal] and [bare_result]. *)
Definition merged_trade : Trade.t :=
  {| Trade.coin := "SOL";
     Trade.entry_price := Val 20%Q;
     Trade.exit_price := PyNone;
     Trade.roi := Val 3%Q;
     Trade.status := Some "unknown";
     Trade.signal_image := Some "signal_sol.png";
     Trade.result_image := Some "result_sol.png";
     Trade.match_confidence :=
       _calculate_match_score rich_signal_data bare_result_data;
     Trade.timestamp := None |}.

(** A batch with one matched pair and one result left over, and what the
    matcher returns for it. *)
Definition sample_batch : list Item.t :=
  [sample_signal; sample_result; sample_other_result].

Definition returned (r : Exc (list Trade.t)) : list Trade.t :=
  match r with
  | Ok trades => trades
  | Raise _ => []
  end.

Definition sample_output : list Trade.t :=
  returned (match_signals_to_results _get_default_config sample_batch).

(** A batch whose only result has no recognised coin. *)
Definition coinless_batch : list Item.t := [sample_signal; coinless_result].

(** A batch that yields a trade without roi (the signal) and one with roi
    (the result for another coin). *)
Definition mixed_roi_batch : list Item.t := [sample_signal; sample_other_result].

(** Two results that score alike against [sample_signal]. *)
Definition tied_results : list Item.t :=
  [sample_result;
   {| Item.path := "result_btc_again.png"; Item.type := "result";
      Item.data := Some btc_result_data |}].

(** A region in which OCR misread the last letter of [FLOKI], at confidence
    0.9. *)
Definition floky_region : Region.t :=
  {| Region.text := "FLOKY"; Region.confidence := 0.9%Q |}.

(** A region in which OCR dropped a letter of [THETA], at confidence 0.9. *)
Definition thta_region : Region.t :=
  {| Region.text := "THTA"; Region.confidence := 0.9%Q |}.

(** Two records with negative prices, which [detect_prices] never produces. *)
Definition negative_signal_data : Data.t :=
  {| Data.coin := Val "BTC";
     Data.entry_price := Val (-1)%Q;
     Data.exit_price := Missing;
     Data.roi := PyNone;
     Data.status := Val "neutral";
     Data.timestamp := Missing |}.

Definition negative_result_data : Data.t :=
  {| Data.coin := Val "BTC";
     Data.entry_price := Val (-2)%Q;
     Data.exit_price := Missing;
     Data.roi := PyNone;
     Data.status := Val "neutral";
     Data.timestamp := Missing |}.

(** * Further vocabulary *)

Section MoreVocabulary.
Local Open Scope Q_scope.

(** A record that the matcher can use: its data is a true value and carries a
    recognised coin. *)
Definition usable (d : Item.t) : bool :=
  match Item.data d with
  | Some data => truthy_str (get (Data.coin data))
  | None => false
  end.

(** The signal references of a list of trades, in order. *)
Definition signal_refs (trades : list Trade.t) : list string :=
  flat_map (fun x => match Trade.signal_image x with
                     | Some p => [p]
                     | None => []
                     end) trades.

(** Some trade of the list has no roi. *)
Definition lacks_roi (trades : list Trade.t) : bool :=
  existsb (fun x => match get (Trade.roi x) with
                    | Some _ => false
                    | None => true
                    end) trades.

(** The timestamp factor does not apply to the pair. *)
Definition no_common_time (signal_data result_data : Data.t) : Prop :=
  truthy_timestamp (get (Data.timestamp signal_data))
  && truthy_timestamp (get (Data.timestamp result_data)) = false.

(** The price factor does not apply to the pair. *)
Definition no_common_price (signal_data result_data : Data.t) : Prop :=
  truthy_float (get (Data.entry_price signal_data))
  && truthy_float (or_float (get (Data.entry_price result_data))
                            (get (Data.exit_price result_data))) = false.

(** The coin factor does not apply to the pair. *)
Definition no_common_coin (signal_data result_data : Data.t) : Prop :=
  truthy_str (get (Data.coin signal_data))
  && truthy_str (get (Data.coin result_data)) = false.

End MoreVocabulary.

(** A region that reads a trading pair in lower case, at confidence 0.75. *)
Definition pair_region : Region.t :=
  {| Region.text := "btc/usdt"; Region.confidence := 0.75%Q |}.

(** ** Number patterns: [self.patterns['price']] and [['percentage']]

    [\$?\d+\.?\d*] and [[+-]?\d+\.?\d*%], matched the way a backtracking engine
    does, on ASCII text. *)

Module Pattern.

(** [\d] *)
Definition is_digit (c : ascii) : bool := Re.in_range "0" "9" c.

(** Number of leading digits. *)
Fixpoint digit_run (s : list ascii) : nat :=
  match s with
  | c :: s' => if is_digit c then S (digit_run s') else 0%nat
  | [] => 0%nat
  end.

(** [\d+\.?\d*] at the head of [s]: every part is greedy and what follows
    always matches, so nothing is given back. *)
Definition number_here (s : list ascii) : option nat :=
  let n := digit_run s in
  if (n =? 0)%nat then None
  else
    match skipn n s with
    | c :: rest =>
        if Ascii.eqb c "." then Some (n + 1 + digit_run rest)%nat else Some n
    | [] => Some n
    end.

(** [\$?\d+\.?\d*]: when [$] is taken and no digit follows, [\$?] gives it
    back and [\d+] fails on the [$]. *)
Definition price_here (s : list ascii) : option nat :=
  match s with
  | c :: rest =>
      if Ascii.eqb c "$" then option_map S (number_here rest)
      else number_here s
  | [] => None
  end.

(** [\d+\.?\d*%]: after the greedy number the [%] must follow at once; giving
    back a digit or the point leaves a digit or the point in front, never
    [%]. *)
Definition percent_number_here (s : list ascii) : option nat :=
  let n := digit_run s in
  if (n =? 0)%nat then None
  else
    match skipn n s with
    | c :: rest =>
        if Ascii.eqb c "%" then Some (n + 1)%nat
        else if Ascii.eqb c "." then
          let m := digit_run rest in
          match skipn m rest with
          | c' :: _ => if Ascii.eqb c' "%" then Some (n + 1 + m + 1)%nat else None
          | [] => None
          end
        else None
    | [] => None
    end.

(** [[+-]?\d+\.?\d*%] *)
Definition percentage_here (s : list ascii) : option nat :=
  match s with
  | c :: rest =>
      if Ascii.eqb c "+" || Ascii.eqb c "-"
      then option_map S (percent_number_here rest)
      else percent_number_here s
  | [] => None
  end.

(** [re.findall]: leftmost matches, not overlapping; [skip] characters still
    belong to the match found last. *)
Fixpoint findall_from (here : list ascii -> option nat) (skip : nat)
         (s : list ascii) : list string :=
  match s with
  | [] => []
  | _ :: s' =>
      match skip with
      | S n => findall_from here n s'
      | O =>
          match here s with
          | Some k =>
              string_of_list_ascii (firstn k s) :: findall_from here (k - 1) s'
          | None => findall_from here 0 s'
          end
      end
  end.

Definition findall (here : list ascii -> option nat) (text : string) : list string :=
  findall_from here 0 (list_ascii_of_string text).

End Pattern.

(** ** More of [str] and [float] *)

Module Str.

(** [str.isspace] on an ASCII character. *)
Definition is_space (c : ascii) : bool :=
  let n := nat_of_ascii c in
  ((9 <=? n) && (n <=? 13) || (28 <=? n) && (n <=? 32))%nat.

Fixpoint lstrip (s : list ascii) : list ascii :=
  match s with
  | c :: s' => if is_space c then lstrip s' else s
  | [] => []
  end.

(** [s.strip()] *)
Definition strip (s : string) : string :=
  string_of_list_ascii
    (rev (lstrip (rev (lstrip (list_ascii_of_string s))))).

(** [s.replace(c, '')] for a single character [c]. *)
Definition remove (c : ascii) (s : string) : string :=
  string_of_list_ascii
    (filter (fun x => negb (Ascii.eqb x c)) (list_ascii_of_string s)).

Definition digit_value (c : ascii) : Z := Z.of_nat (nat_of_ascii c - 48).

(** The number that a string of digits spells, after [acc]. *)
Fixpoint digits_value (acc : Z) (s : list ascii) : Z :=
  match s with
  | c :: s' => digits_value (acc * 10 + digit_value c) s'
  | [] => acc
  end.

(** [digits] or [digits.digits] or [digits.] or [.digits], as a rational. *)
Definition unsigned_decimal (s : list ascii) : option Q :=
  let n := Pattern.digit_run s in
  match skipn n s with
  | [] =>
      if (n =? 0)%nat then None
      else Some (inject_Z (digits_value 0 s))
  | c :: frac =>
      let m := Pattern.digit_run frac in
      if Ascii.eqb c "." && (m =? List.length frac)%nat
         && negb ((n =? 0) && (m =? 0))%nat
      then Some (inject_Z (digits_value 0 (firstn n s ++ frac))
                 / inject_Z (10 ^ Z.of_nat m))
      else None
  end.

(** [float(s)] for the plain decimal spellings, with or without sign;
    [None] is the [ValueError].  ([float] also reads exponents, [inf], [nan]
    and surrounding blanks; the number patterns produce none of them.) *)
Definition float (s : string) : option Q :=
  match list_ascii_of_string s with
  | c :: rest =>
      if Ascii.eqb c "-" then option_map Qopp (unsigned_decimal rest)
      else if Ascii.eqb c "+" then unsigned_decimal rest
      else unsigned_decimal (c :: rest)
  | [] => None
  end.

End Str.

(** ** [extract_text_regions] *)

(** One box of [pytesseract.image_to_data(..., output_type=DICT)], with the
    columns that the analyzer keeps: [int(data['conf'][i])] and
    [data['text'][i]]. *)
Module OcrBox.
Record t : Type := mk {
  conf : Z;
  text : string
}.
End OcrBox.

Section Extraction.
Local Open Scope Q_scope.

(** [self.config['ocr_confidence']]; the key may be missing from a config
    given to the constructor. *)
Variable ocr_confidence : option Q.




End Extraction.

(** ** [detect_prices] and [detect_roi] *)

Section Numbers.
Local Open Scope Q_scope.

(** The body of [for match in matches] of [detect_prices]. *)
Definition price_of_token (region : Region.t) (token : string) : list (Q * Q) :=
  let price_str := Str.strip (Str.remove "$" token) in
  match Str.float price_str with
  | Some price =>
      if Qle_bool 0.000001 price && Qle_bool price 1000000
      then [(price, Region.confidence region)]
      else []
  | None => []
  end.

Definition detect_prices (text_regions : list Region.t) : list (Q * Q) :=
  flat_map (fun region =>
              flat_map (price_of_token region)
                       (Pattern.findall Pattern.price_here (Region.text region)))
           text_regions.

(** The body of [for match in matches] of [detect_roi]; the bounding box of
    the region, which nothing reads, is left out of the tuple. *)
Definition roi_of_token (region : Region.t) (token : string) : list (Q * Q) :=
  let roi_str := Str.strip (Str.remove "+" (Str.remove "%" token)) in
  match Str.float roi_str with
  | Some roi =>
      if Qle_bool (-100) roi && Qle_bool roi 10000
      then [(roi, Region.confidence region)]
      else []
  | None => []
  end.

Definition roi_values (text_regions : list Region.t) : list (Q * Q) :=
  flat_map (fun region =>
              flat_map (roi_of_token region)
                       (Pattern.findall Pattern.percentage_here
                                        (Region.text region)))
           text_regions.

(** [max(rest, key=lambda x: x[1])] continued from [best]: only a strictly
    greater key replaces it. *)
Fixpoint max_by_confidence (best : Q * Q) (rest : list (Q * Q)) : Q * Q :=
  match rest with
  | [] => best
  | x :: rest' =>
      max_by_confidence (if Qlt_bool (snd best) (snd x) then x else best) rest'
  end.

(** [color_status] is what [_detect_color_status(image)] returned. *)
Definition detect_roi (text_regions : list Region.t) (color_status : string)
  : option Q * string :=
  match roi_values text_regions with
  | first :: rest => (Some (fst (max_by_confidence first rest)), color_status)
  | [] => (None, color_status)
  end.

(** The decision of [_detect_color_status] on the two pixel counts. *)
Definition status_of_counts (green_pixels red_pixels : Z) : string :=
  if Qlt_bool (inject_Z red_pixels * 1.5) (inject_Z green_pixels) then "win"
  else if Qlt_bool (inject_Z green_pixels * 1.5) (inject_Z red_pixels) then "loss"
  else "neutral".

(** [counts] is what the [cv2] calls gave, [(green_pixels, red_pixels)], or
    the exception one of them raised. *)
Definition _detect_color_status (counts : Exc (Z * Z)) : string :=
  match counts with
  | Ok (green_pixels, red_pixels) => status_of_counts green_pixels red_pixels
  | Raise _ => "unknown"
  end.

End Numbers.

(** ** [analyze_image] *)

(** The result dict of [analyze_image]: the keys that the matcher reads
    ([data]) and the confidences. *)
Module Analysis.
Record t : Type := mk {
  data : Data.t;
  coin_confidence : Q;
  prices : list (Q * Q);
  overall_confidence : Q
}.
End Analysis.

Section Analyze.
Local Open Scope Q_scope.
Variable known_coins : list string.

(** [sum(xs)] on floats. *)
Definition sum (xs : list Q) : Q := fold_left Qplus xs 0.

(** [text_regions] is what [extract_text_regions] returned, or [None] when
    [preprocess_image] returned [None]; [color_status] is what
    [_detect_color_status] returned; [now] is [datetime.now()] in
    microseconds. *)
Definition analyze_image (text_regions : option (list Region.t))
           (color_status : string) (now : Z) : option Analysis.t :=
  match text_regions with
  | None => None
  | Some [] => None
  | Some text_regions =>
      let '(coin, coin_confidence) := detect_coin_name known_coins text_regions in
      let prices := detect_prices text_regions in
      let '(roi, status) := detect_roi text_regions color_status in
      let entry_price :=
        match prices with
        | first :: _ => Val (fst first)
        | [] => Missing
        end in
      let exit_price :=
        match prices with
        | _ :: second :: _ => Val (fst second)
        | _ => Missing
        end in
      let confidence_factors := coin_confidence :: map snd prices in
      Some {| Analysis.data :=
                {| Data.coin := Val coin;
                   Data.entry_price := entry_price;
                   Data.exit_price := exit_price;
                   Data.roi := bound roi;
                   Data.status := Val status;
                   Data.timestamp := Val (Iso false now) |};
              Analysis.coin_confidence := coin_confidence;
              Analysis.prices := prices;
              Analysis.overall_confidence :=
                sum confidence_factors
                / inject_Z (Z.of_nat (List.length confidence_factors)) |}
  end.

End Analyze.

(** ** Shapes of number tokens *)

Section Shapes.

(** A digit or the decimal point. *)
Definition plain_char (c : ascii) : bool :=
  Pattern.is_digit c || Ascii.eqb c ".".

(** [digits], [digits.] or [digits.digits], with at least one leading
    digit. *)
Definition plain_decimal (l : list ascii) : Prop :=
  exists ds fs,
    ds <> [] /\
    Forall (fun c => Pattern.is_digit c = true) ds /\
    Forall (fun c => Pattern.is_digit c = true) fs /\
    (l = ds \/ l = ds ++ "."%char :: fs).

End Shapes.

(** Sample texts for the number patterns. *)
Definition price_text : string := "Entry $0.25 TP 12.5%".
Definition roi_region : Region.t :=
  {| Region.text := "ROI -12.5%"; Region.confidence := 0.9%Q |}.

(** A record that [analyze_image] produced from some text regions. *)
Definition analyzed (known_coins : list string) (d : Item.t) : Prop :=
  exists text_regions color_status now analysis,
    analyze_image known_coins text_regions color_status now = Some analysis /\
    Item.data d = Some (Analysis.data analysis).

(** ** [batch_analyze] *)

(** One element of the result list: [{'path': ..., 'data': ..., 'index': ...}]. *)
Module BatchEntry.
Record t (A : Type) : Type := mk {
  path : string;
  data : A;
  index : nat
}.
Arguments mk {A} path data index.
Arguments path {A} t.
Arguments data {A} t.
Arguments index {A} t.
End BatchEntry.

Section Batch.
Variable A : Type.

(** [self.analyze_image] at the [i]-th turn of the loop, on [image_path]:
    [None] stands for a false result.  The progress callback is called after
    the entry is appended, so that what it raises, caught by the loop, does
    not touch the result list. *)
Variable analyze : nat -> string -> option A.

(** [for i, image_path in enumerate(image_paths)], from index [i] on. *)
Fixpoint batch_from (i : nat) (image_paths : list string)
  : list (BatchEntry.t A) :=
  match image_paths with
  | [] => []
  | image_path :: rest =>
      match analyze i image_path with
      | Some result =>
          BatchEntry.mk image_path result i :: batch_from (S i) rest
      | None => batch_from (S i) rest
      end
  end.

Definition batch_analyze (image_paths : list string) : list (BatchEntry.t A) :=
  batch_from 0 image_paths.

End Batch.

(** ** [export_analysis_report] *)

(** The ['summary'] of the report. *)
Module Summary.
Record t : Type := mk {
  total_trades : nat;
  winning_trades : nat;
  losing_trades : nat;
  pending_trades : nat;
  avg_roi : Q
}.
End Summary.

Section Report.
Local Open Scope Q_scope.

(** [len([t for t in trades if t.get('status') == status])] *)
Definition count_status (status : string) (trades : list Trade.t) : nat :=
  List.length
    (filter (fun x => match Trade.status x with
                      | Some s => String.eqb s status
                      | None => false
                      end) trades).

(** [sum(xs)] where an element may be [None]: [0 + None] raises. *)
Fixpoint sum_from (acc : Q) (xs : list (option Q)) : Exc Q :=
  match xs with
  | [] => Ok acc
  | Some x :: rest => sum_from (acc + x) rest
  | None :: _ => Raise (TypeError "unsupported operand type(s) for +")
  end.

(** The summary of the report dict. *)
Definition summarize (trades : list Trade.t) : Exc Summary.t :=
  avg <- match trades with
         | [] => Ok 0
         | _ :: _ =>
             total <- sum_from 0 (map sort_key trades) ;;
             Ok (total / inject_Z (Z.of_nat (List.length trades)))
         end ;;
  Ok {| Summary.total_trades := List.length trades;
        Summary.winning_trades := count_status "win" trades;
        Summary.losing_trades := count_status "loss" trades;
        Summary.pending_trades := count_status "pending" trades;
        Summary.avg_roi := avg |}.

(** The summary that is written to [output_path] (the file system aside), or
    [None] when building the report raised: the file is then not opened. *)
Definition export_analysis_report (trades : list Trade.t) : option Summary.t :=
  match summarize trades with
  | Ok summary => Some summary
  | Raise _ => None
  end.

End Report.

(** ** The callers in [main.py] *)

Section Callers.

(** [analyzer.analyze_image] as the callers see it: the data of the [i]-th
    call, on [image_path], or [None] for a false result. *)
Variable analyze_nth : nat -> string -> option Data.t.

(** [enumerate(xs)] *)
Definition enumerate {X : Type} (xs : list X) : list (nat * X) :=
  combine (seq 0 (List.length xs)) xs.

(** The batch that the loop of [process_images] hands to the matcher: the
    type is ['signal'] when the path is among the signal images.  (With no
    image at all the function returns before the loop.) *)
Definition process_images (signal_images result_images : list string)
  : list Item.t :=
  flat_map (fun '(i, image_path) =>
              match analyze_nth i image_path with
              | Some analysis =>
                  [{| Item.path := image_path;
                      Item.type := if existsb (String.eqb image_path) signal_images
                                   then "signal" else "result";
                      Item.data := Some analysis |}]
              | None => []
              end)
           (enumerate (signal_images ++ result_images)).

(** The batch that the loop of [run_cli_mode] hands to the matcher: the type
    comes with the path. *)
Definition run_cli_mode (signal_images result_images : list string)
  : list Item.t :=
  flat_map (fun '(i, (img_path, img_type)) =>
              match analyze_nth i img_path with
              | Some analysis =>
                  [{| Item.path := img_path;
                      Item.type := img_type;
                      Item.data := Some analysis |}]
              | None => []
              end)
           (enumerate (map (fun img => (img, "signal")) signal_images
                       ++ map (fun img => (img, "result")) result_images)).

End Callers.

(** Sample inputs of the analyzer. *)
Definition sample_regions : list Region.t :=
  [{| Region.text := "EPIC/USDT"; Region.confidence := 0.92%Q |};
   {| Region.text := "Entry $0.25"; Region.confidence := 0.8%Q |};
   {| Region.text := "+12.5%"; Region.confidence := 0.9%Q |}].

Definition sample_analysis : Analysis.t :=
  match analyze_image default_coins (Some sample_regions) "win" 0 with
  | Some analysis => analysis
  | None => {| Analysis.data := bare_result_data;
               Analysis.coin_confidence := 0;
               Analysis.prices := [];
               Analysis.overall_confidence := 0 |}
  end.

(** A signal and a result as [analyze_image] reads them from text regions. *)
Definition result_regions : list Region.t :=
  [{| Region.text := "EPIC"; Region.confidence := 0.95%Q |};
   {| Region.text := "+12.5%"; Region.confidence := 0.9%Q |}].

Definition analyzed_signal : Item.t :=
  {| Item.path := "signal_epic.png"; Item.type := "signal";
     Item.data := option_map Analysis.data
                    (analyze_image default_coins (Some sample_regions)
                                   "neutral" 0) |}.

Definition analyzed_result : Item.t :=
  {| Item.path := "result_epic.png"; Item.type := "result";
     Item.data := option_map Analysis.data
                    (analyze_image default_coins (Some result_regions)
                                   "win" 600000000) |}.

Definition analyzed_batch : list Item.t := [analyzed_signal; analyzed_result].

Definition analyzed_output : list Trade.t :=
  returned (match_signals_to_results _get_default_config analyzed_batch).

Definition analyzed_trade : Trade.t :=
  match analyzed_output with
  | x :: _ => x
  | [] => sample_trade
  end.

(** * Properties *)

(** ** Comparisons on floats *)

Lemma Qlt_bool_iff (x y : Q) : Qlt_bool x y = true <-> (x < y)%Q.
Proof.
  unfold Qlt_bool. rewrite negb_true_iff. split.
  - intros H. apply Qnot_le_lt. intros Hle.
    apply Qle_bool_iff in Hle. congruence.
  - intros H. destruct (Qle_bool y x) eqn:E; [|reflexivity].
    apply Qle_bool_iff in E. exfalso. exact (Qlt_not_le _ _ H E).
Qed.

Lemma Qlt_bool_false (x y : Q) : Qlt_bool x y = false <-> (y <= x)%Q.
Proof.
  unfold Qlt_bool. rewrite negb_false_iff. apply Qle_bool_iff.
Qed.

Lemma Qle_bool_false (x y : Q) : Qle_bool x y = false <-> (y < x)%Q.
Proof.
  rewrite <- Qlt_bool_iff. unfold Qlt_bool.
  destruct (Qle_bool x y); simpl; split; congruence.
Qed.

(** ** The similarity ratio *)

Section DifflibFacts.
Import Difflib.

Lemma common_prefix_le (a b : list ascii) :
  (common_prefix a b <= List.length a)%nat /\
  (common_prefix a b <= List.length b)%nat.
Proof.
  revert b. induction a as [|x a IH]; intros [|y b]; simpl; try lia.
  destruct (Ascii.eqb x y); simpl; [|lia].
  destruct (IH b). lia.
Qed.

Lemma best_in_b_fits (la lb : nat) (asuf : list ascii) (i : nat) (b : list ascii) :
  (i + List.length asuf <= la)%nat ->
  forall (j : nat) (best : Block),
    (j + List.length b <= lb)%nat -> fits la lb best ->
    fits la lb (best_in_b asuf i b j best).
Proof.
  intros Ha. induction b as [|y b IH]; intros j best Hb Hbest;
    cbn [best_in_b]; [exact Hbest|].
  apply IH; [simpl in Hb; lia|].
  destruct (size best <? _)%nat; [|exact Hbest].
  pose proof (common_prefix_le asuf (y :: b)) as [H1 H2].
  unfold fits, size. cbn [fst snd].
  cbn [List.length] in Hb, H2. lia.
Qed.

Lemma best_in_a_fits (la lb : nat) (b : list ascii) (a : list ascii) :
  (List.length b <= lb)%nat ->
  forall (i : nat) (best : Block),
    (i + List.length a <= la)%nat -> fits la lb best ->
    fits la lb (best_in_a a i b best).
Proof.
  intros Hb. induction a as [|x a IH]; intros i best Ha Hbest; simpl;
    [exact Hbest|].
  apply IH; [simpl in Ha; lia|].
  apply best_in_b_fits; [exact Ha|simpl; lia|exact Hbest].
Qed.

Lemma find_longest_match_fits (a b : list ascii) (i j k : nat) :
  find_longest_match a b = (i, j, k) ->
  (i + k <= List.length a)%nat /\ (j + k <= List.length b)%nat.
Proof.
  intros H.
  pose proof (best_in_a_fits (List.length a) (List.length b) b a
                (Nat.le_refl _) 0%nat (0%nat, 0%nat, 0%nat)) as Hfit.
  fold (find_longest_match a b) in Hfit. rewrite H in Hfit.
  apply Hfit; [lia|]. unfold fits, size. simpl. lia.
Qed.

Lemma matches_le (fuel : nat) :
  forall a b : list ascii,
    (matches fuel a b <= List.length a)%nat /\
    (matches fuel a b <= List.length b)%nat.
Proof.
  induction fuel as [|fuel IH]; intros a b; simpl; [lia|].
  destruct (find_longest_match a b) as [[i j] k] eqn:Hm.
  destruct (find_longest_match_fits a b i j k Hm) as [Ha Hb].
  destruct (k =? 0)%nat; [lia|].
  destruct (IH (firstn i a) (firstn j b)) as [Hl1 Hl2].
  destruct (IH (skipn (i + k) a) (skipn (j + k) b)) as [Hr1 Hr2].
  rewrite length_firstn in Hl1, Hl2. rewrite length_skipn in Hr1, Hr2.
  destruct ((0 <? i)%nat && (0 <? j)%nat);
    destruct ((i + k <? List.length a)%nat && (j + k <? List.length b)%nat);
    lia.
Qed.

(** [matching_size] is given enough fuel: more changes nothing. *)
Lemma matches_fuel (fuel : nat) :
  forall (fuel' : nat) (a b : list ascii),
    (List.length a < fuel)%nat -> (List.length a < fuel')%nat ->
    matches fuel a b = matches fuel' a b.
Proof.
  induction fuel as [|fuel IH]; intros fuel' a b H H'; [lia|].
  destruct fuel' as [|fuel']; [lia|]. simpl.
  destruct (find_longest_match a b) as [[i j] k] eqn:Hm.
  destruct (find_longest_match_fits a b i j k Hm) as [Ha Hb].
  destruct (k =? 0)%nat eqn:Hk; [reflexivity|].
  apply Nat.eqb_neq in Hk.
  rewrite (IH fuel' (firstn i a) (firstn j b))
    by (rewrite length_firstn; lia).
  rewrite (IH fuel' (skipn (i + k) a) (skipn (j + k) b))
    by (rewrite length_skipn; lia).
  reflexivity.
Qed.

Lemma ratio_bounds (a b : string) : (0 <= ratio a b <= 1)%Q.
Proof.
  unfold ratio.
  set (la := list_ascii_of_string a). set (lb := list_ascii_of_string b).
  destruct (List.length la + List.length lb =? 0)%nat eqn:E.
  - split; unfold Qle; simpl; lia.
  - apply Nat.eqb_neq in E.
    destruct (matches_le (S (List.length la)) la lb) as [H1 H2].
    fold (matching_size la lb) in H1, H2.
    assert (Hpos : (0 < inject_Z (Z.of_nat (List.length la + List.length lb)))%Q).
    { unfold Qlt. simpl. lia. }
    split.
    + apply Qle_shift_div_l; [exact Hpos|].
      change 0%Q with (inject_Z 0). change 2%Q with (inject_Z 2).
      rewrite <- !inject_Z_mult, <- Zle_Qle. lia.
    + apply Qle_shift_div_r; [exact Hpos|].
      change 1%Q with (inject_Z 1). change 2%Q with (inject_Z 2).
      rewrite <- !inject_Z_mult, <- Zle_Qle. lia.
Qed.

(** The example of the [difflib] documentation: blocks [ab] and [cd]. *)
Example ratio_abxcd : ratio "abxcd" "abcd" == 8 # 9.
Proof. reflexivity. Qed.

(** One letter of five replaced: four of five match. *)
Example ratio_one_of_five : ratio "FLOKY" "FLOKI" == 0.8.
Proof. reflexivity. Qed.

End DifflibFacts.

(** ** The match score *)

Section ScoreFacts.
Local Open Scope Q_scope.

Lemma truthy_float_nonzero (q : Q) : ~ q == 0 -> truthy_float (Some q) = true.
Proof.
  intros H. simpl. destruct (Qeq_bool q 0) eqn:E; [|reflexivity].
  apply Qeq_bool_iff in E. contradiction.
Qed.

Lemma truthy_str_nonempty (s : string) :
  s <> EmptyString -> truthy_str (Some s) = true.
Proof.
  intros H. simpl. destruct (String.eqb s EmptyString) eqn:E; [|reflexivity].
  apply String.eqb_eq in E. contradiction.
Qed.

Lemma truthy_str_inv (s : string) :
  truthy_str (Some s) = true -> s <> EmptyString.
Proof.
  simpl. intros H E. subst s. discriminate.
Qed.

Lemma within_hour_seconds (z : Z) :
  (Z.abs z <= 3600 * 1000000)%Z -> Qle_bool (Qabs (z # 1000000)) 3600 = true.
Proof.
  intros H. apply Qle_bool_iff. unfold Qle. simpl. lia.
Qed.

Lemma Qmax_nonzero (x y : Q) : ~ x == 0 -> ~ y == 0 -> ~ Qmax x y == 0.
Proof.
  intros Hx Hy. destruct (Q.max_spec x y) as [[_ E]|[_ E]]; rewrite E; assumption.
Qed.

Lemma price_ratio_one (sp rp : Q) :
  ~ sp == 0 -> ~ rp == 0 -> (price_ratio sp rp == 1 <-> sp == rp).
Proof.
  intros Hs Hr. unfold price_ratio.
  pose proof (Qmax_nonzero sp rp Hs Hr) as Hm.
  split.
  - intros H.
    assert (E : Qmin sp rp == Qmax sp rp).
    { rewrite <- (Qmult_1_l (Qmax sp rp)). rewrite <- H. field. exact Hm. }
    destruct (Q.max_spec sp rp) as [[Hlt Emax]|[Hle Emax]];
      destruct (Q.min_spec sp rp) as [[Hlt' Emin]|[Hle' Emin]];
      rewrite Emax, Emin in E; lra.
  - intros E.
    assert (Emin : Qmin sp rp == Qmax sp rp).
    { destruct (Q.max_spec sp rp) as [[Hlt Emax]|[Hle Emax]];
        destruct (Q.min_spec sp rp) as [[Hlt' Emin]|[Hle' Emin]];
        rewrite Emax, Emin; lra. }
    rewrite Emin. field. exact Hm.
Qed.


End ScoreFacts.

Section ScoreClaims.
Local Open Scope Q_scope.




End ScoreClaims.

(** ** The candidate scan *)

Section ScanFacts.
Local Open Scope Q_scope.
Variable config : Config.
Variable results : list Item.t.
Variable used_results : list nat.
Variable signal_data : Data.t.

Lemma in_set_true (i : nat) (l : list nat) : in_set i l = true <-> In i l.
Proof.
  unfold in_set. rewrite existsb_exists. split.
  - intros (x & Hx & E). apply Nat.eqb_eq in E. subst x. exact Hx.
  - intros H. exists i. split; [exact H|apply Nat.eqb_refl].
Qed.

Lemma in_set_false (i : nat) (l : list nat) : in_set i l = false <-> ~ In i l.
Proof.
  rewrite <- in_set_true. destruct (in_set i l); split; congruence.
Qed.

Lemma candidate_score (j : nat) (s s' : Q) :
  candidate results used_results signal_data j s ->
  candidate results used_results signal_data j s' -> s = s'.
Proof.
  intros (r & rd & Hn & Hd & _ & Hs) (r' & rd' & Hn' & Hd' & _ & Hs').
  congruence.
Qed.

(** One step of the scan keeps [scanned]. *)
Lemma consider_scanned (n : nat) (result : Item.t) (best best' : Best) :
  nth_error results n = Some result ->
  scanned config results used_results signal_data n best ->
  consider config signal_data used_results best n result = Ok best' ->
  scanned config results used_results signal_data (S n) best'.
Proof.
  intros Hn (Hpos & Hmax & Hbest) Hstep.
  assert (Hkeep : (forall s, candidate results used_results signal_data n s ->
                             qualifies config s -> s <= snd best) ->
                  scanned config results used_results signal_data (S n) best).
  { intros Hnew. split; [exact Hpos|]. split.
    - intros j s Hj Hc Hq. destruct (Nat.eq_dec j n) as [->|Hne].
      + apply Hnew; assumption.
      + apply (Hmax j); [lia|assumption|assumption].
    - destruct (fst best) as [i|]; [|exact Hbest].
      destruct Hbest as (Hi & Hrest). split; [lia|exact Hrest]. }
  unfold consider in Hstep.
  destruct (in_set n used_results) eqn:Hused.
  { injection Hstep as <-. apply Hkeep.
    intros s (r & rd & _ & _ & Hnot & _) _.
    apply in_set_true in Hused. contradiction. }
  destruct (Item.data result) as [result_data|] eqn:Hdata.
  2:{ injection Hstep as <-. apply Hkeep.
      intros s (r & rd & Hr & Hd & _) _. congruence. }
  set (score := _calculate_match_score signal_data result_data) in *.
  assert (Hcand : candidate results used_results signal_data n score).
  { exists result, result_data. repeat split; try assumption.
    apply in_set_false. exact Hused. }
  destruct (Qlt_bool (snd best) score) eqn:Hlt.
  2:{ injection Hstep as <-. apply Hkeep.
      intros s Hc _. rewrite (candidate_score n s score Hc Hcand).
      apply Qlt_bool_false. exact Hlt. }
  apply Qlt_bool_iff in Hlt.
  destruct (auto_match_threshold config) as [threshold|] eqn:Hthr;
    [|discriminate].
  destruct (Qle_bool threshold score) eqn:Hle.
  - injection Hstep as <-. apply Qle_bool_iff in Hle.
    unfold scanned. cbn [fst snd].
    split; [lra|]. split.
    + intros j s Hj Hc Hq. destruct (Nat.eq_dec j n) as [->|Hne].
      * rewrite (candidate_score n s score Hc Hcand). lra.
      * assert (s <= snd best) by (apply (Hmax j); [lia|assumption|assumption]).
        lra.
    + split; [lia|]. split; [exact Hcand|]. split.
      { unfold qualifies. rewrite Hthr. exact Hle. }
      split; [lra|].
      intros j s Hj Hc Hq.
      assert (s <= snd best) by (apply (Hmax j); [lia|assumption|assumption]).
      lra.
  - injection Hstep as <-. apply Hkeep.
    intros s Hc Hq. rewrite (candidate_score n s score Hc Hcand) in Hq.
    unfold qualifies in Hq. rewrite Hthr in Hq.
    apply Qle_bool_false in Hle. lra.
Qed.

Lemma scan_results_scanned (rest : list Item.t) :
  forall (n : nat) (best best' : Best),
    skipn n results = rest ->
    scanned config results used_results signal_data n best ->
    scan_results config signal_data used_results n rest best = Ok best' ->
    scanned config results used_results signal_data (List.length results) best'.
Proof.
  induction rest as [|result rest IH]; intros n best best' Hskip Hinv Hscan.
  - simpl in Hscan. injection Hscan as <-.
    assert (Hlen : (List.length results <= n)%nat).
    { destruct (Nat.le_gt_cases (List.length results) n) as [H|H]; [exact H|].
      exfalso. assert (Hl : List.length (skipn n results) = 0%nat)
        by (rewrite Hskip; reflexivity).
      rewrite length_skipn in Hl. lia. }
    destruct Hinv as (Hpos & Hmax & Hbest).
    split; [exact Hpos|]. split.
    + intros j s Hj. apply (Hmax j s). lia.
    + destruct (fst best) as [i|]; [|exact Hbest].
      destruct Hbest as (Hi & Hc & Hrest). split; [|split; assumption].
      destruct Hc as (r & rd & Hr & _).
      apply nth_error_Some. congruence.
  - simpl in Hscan.
    destruct (consider config signal_data used_results best n result)
      as [best1|e] eqn:Hstep; [|discriminate].
    simpl in Hscan.
    assert (Hn : nth_error results n = Some result).
    { rewrite <- (firstn_skipn n results) at 1. rewrite Hskip.
      assert (Hlen : (n <= List.length results)%nat).
      { destruct (Nat.le_gt_cases n (List.length results)) as [H|H]; [exact H|].
        rewrite skipn_all2 in Hskip by lia. discriminate. }
      rewrite nth_error_app2; rewrite length_firstn, Nat.min_l by exact Hlen;
        [|lia].
      rewrite Nat.sub_diag. reflexivity. }
    apply (IH (S n) best1 best').
    + rewrite <- (firstn_skipn n results) at 1.
      assert (Hlen : List.length (firstn n results) = n).
      { rewrite length_firstn. apply Nat.min_l.
        apply Nat.lt_le_incl, nth_error_Some. congruence. }
      replace (S n) with (List.length (firstn n results) + 1)%nat by lia.
      rewrite skipn_app, skipn_all2 by lia.
      rewrite Hlen.
      replace (n + 1 - n)%nat with 1%nat by lia.
      rewrite Hskip. reflexivity.
    + exact (consider_scanned n result best best1 Hn Hinv Hstep).
    + exact Hscan.
Qed.

Lemma scanned_start :
  scanned config results used_results signal_data 0 (None, 0).
Proof.
  split; [cbn; lra|]. split; [intros j s Hj; lia|reflexivity].
Qed.

(** With a configured threshold the scan raises nothing. *)
Lemma scan_results_returns (threshold : Q) (rest : list Item.t) :
  auto_match_threshold config = Some threshold ->
  forall (n : nat) (best : Best),
  exists best', scan_results config signal_data used_results n rest best = Ok best'.
Proof.
  intros Hthr. induction rest as [|result rest IH]; intros n best.
  - exists best. reflexivity.
  - simpl.
    assert (Hstep : exists b, consider config signal_data used_results best n result = Ok b).
    { unfold consider. rewrite Hthr.
      destruct (in_set n used_results); [eauto|].
      destruct (Item.data result); [|eauto].
      destruct (Qlt_bool _ _); [|eauto].
      destruct (Qle_bool _ _); eauto. }
    destruct Hstep as (b & ->). simpl. apply IH.
Qed.

End ScanFacts.

(** ** The final sort *)

Section SortFacts.
Local Open Scope Q_scope.

Lemma insert_desc_perm (x : Trade.t) (l l' : list Trade.t) :
  insert_desc x l = Ok l' -> Permutation (x :: l) l'.
Proof.
  revert l'. induction l as [|y rest IH]; intros l' H; simpl in H.
  - injection H as <-. apply Permutation_refl.
  - destruct (Py.lt (sort_key x) (sort_key y)) as [[|]|e]; simpl in H;
      try discriminate.
    + destruct (insert_desc x rest) as [rest'|e] eqn:E; simpl in H;
        [|discriminate].
      injection H as <-.
      apply perm_trans with (y :: x :: rest); [apply perm_swap|].
      apply perm_skip. apply IH. reflexivity.
    + injection H as <-. apply Permutation_refl.
Qed.

Lemma sort_desc_perm (l l' : list Trade.t) :
  sort_desc l = Ok l' -> Permutation l l'.
Proof.
  revert l'. induction l as [|x rest IH]; intros l' H; simpl in H.
  - injection H as <-. apply perm_nil.
  - destruct (sort_desc rest) as [sorted|e]; simpl in H; [|discriminate].
    apply perm_trans with (x :: sorted).
    + apply perm_skip. apply IH. reflexivity.
    + apply insert_desc_perm. exact H.
Qed.

(** A key that [<] accepts is the roi with a missing roi counted as 0. *)
Lemma lt_keys (x y : Trade.t) (b : bool) :
  Py.lt (sort_key x) (sort_key y) = Ok b ->
  b = Qlt_bool (roi_or_zero x) (roi_or_zero y).
Proof.
  unfold sort_key, roi_or_zero.
  destruct (Trade.roi x), (Trade.roi y); simpl; intros H;
    try discriminate; injection H as <-; reflexivity.
Qed.

Lemma insert_desc_sorted (x : Trade.t) (l l' : list Trade.t) :
  Sorted roi_ge l -> insert_desc x l = Ok l' -> Sorted roi_ge l'.
Proof.
  revert l'. induction l as [|y rest IH]; intros l' Hs H; simpl in H.
  - injection H as <-. repeat constructor.
  - destruct (Py.lt (sort_key x) (sort_key y)) as [b|e] eqn:Hlt; simpl in H;
      [|discriminate].
    apply lt_keys in Hlt. destruct b.
    + destruct (insert_desc x rest) as [rest'|e] eqn:E; simpl in H;
        [|discriminate].
      injection H as <-.
      symmetry in Hlt. apply Qlt_bool_iff in Hlt.
      apply Sorted_inv in Hs. destruct Hs as (Hrest & Hhd).
      constructor; [apply IH; [exact Hrest|reflexivity]|].
      destruct rest as [|z rest0]; simpl in E.
      * injection E as <-. constructor. unfold roi_ge. lra.
      * destruct (Py.lt (sort_key x) (sort_key z)) as [[|]|e']; simpl in E;
          try discriminate.
        -- destruct (insert_desc x rest0); simpl in E; [|discriminate].
           injection E as <-. constructor. inversion Hhd. assumption.
        -- injection E as <-. constructor. unfold roi_ge. lra.
    + injection H as <-. symmetry in Hlt. apply Qlt_bool_false in Hlt.
      constructor; [exact Hs|]. constructor. exact Hlt.
Qed.

Lemma sort_desc_sorted (l l' : list Trade.t) :
  sort_desc l = Ok l' -> Sorted roi_ge l'.
Proof.
  revert l'. induction l as [|x rest IH]; intros l' H; simpl in H.
  - injection H as <-. constructor.
  - destruct (sort_desc rest) as [sorted|e]; simpl in H; [|discriminate].
    apply (insert_desc_sorted x sorted); [apply IH; reflexivity|exact H].
Qed.

(** Every comparison made succeeded, so in a sorted list of two or more
    trades no key is [None]. *)
Lemma sort_desc_keys (l l' : list Trade.t) :
  sort_desc l = Ok l' -> (2 <= List.length l)%nat ->
  forall y, In y l -> sort_key y <> None.
Proof.
  revert l'. induction l as [|x rest IH]; intros l' H Hlen y Hy;
    [contradiction|].
  simpl in H.
  destruct (sort_desc rest) as [sorted|e] eqn:Hrest; simpl in H;
    [|discriminate].
  pose proof (sort_desc_perm rest sorted Hrest) as Hperm.
  destruct sorted as [|z sorted'].
  { apply Permutation_sym, Permutation_nil in Hperm. subst rest.
    simpl in Hlen. lia. }
  simpl in H.
  destruct (Py.lt (sort_key x) (sort_key z)) as [b|e] eqn:Hlt; simpl in H;
    [|discriminate].
  assert (Hxz : sort_key x <> None /\ sort_key z <> None).
  { destruct (sort_key x), (sort_key z); simpl in Hlt; try discriminate.
    split; discriminate. }
  destruct Hy as [<-|Hy]; [apply Hxz|].
  destruct rest as [|r1 [|r2 rest']].
  - contradiction.
  - apply Permutation_length_1_inv in Hperm. injection Hperm as <- _.
    destruct Hy as [<-|[]]. apply Hxz.
  - apply (IH (z :: sorted')); [reflexivity|simpl; lia|exact Hy].
Qed.

Lemma insert_desc_returns (x : Trade.t) (l : list Trade.t) :
  sort_key x <> None -> (forall y, In y l -> sort_key y <> None) ->
  exists l', insert_desc x l = Ok l'.
Proof.
  intros Hx. induction l as [|y rest IH]; intros Hl; simpl; [eauto|].
  assert (Hy : sort_key y <> None) by (apply Hl; left; reflexivity).
  destruct (sort_key x) as [kx|] eqn:Ex; [|contradiction].
  destruct (sort_key y) as [ky|] eqn:Ey; [|contradiction].
  simpl. destruct (Qlt_bool kx ky); [|eauto].
  destruct IH as (rest' & ->); [intros w Hw; apply Hl; right; exact Hw|].
  simpl. eauto.
Qed.

Lemma sort_desc_returns (l : list Trade.t) :
  (forall y, In y l -> sort_key y <> None) -> exists l', sort_desc l = Ok l'.
Proof.
  induction l as [|x rest IH]; intros Hl; simpl; [eauto|].
  destruct IH as (sorted & Hs); [intros w Hw; apply Hl; right; exact Hw|].
  rewrite Hs. simpl. apply insert_desc_returns.
  - apply Hl. left. reflexivity.
  - intros y Hy. apply Hl. right.
    apply Permutation_in with sorted; [|exact Hy].
    apply Permutation_sym, sort_desc_perm. exact Hs.
Qed.

End SortFacts.

(** ** The matching loop *)

Section MatcherFacts.
Local Open Scope Q_scope.
Variable config : Config.

Lemma process_signal_cases (results : list Item.t) (trades : list Trade.t)
      (used : list nat) (signal : Item.t) (st' : Matching) :
  process_signal config results (trades, used) signal = Ok st' ->
  st' = (trades, used) \/
  (exists coin sd,
      Item.data signal = Some sd /\ get (Data.coin sd) = Some coin /\
      coin <> EmptyString /\
      scanned config results used sd (List.length results) (None, 0) /\
      st' = (trades ++ [signal_only_trade coin signal sd], used)) \/
  (exists coin sd i s result rd,
      Item.data signal = Some sd /\ get (Data.coin sd) = Some coin /\
      coin <> EmptyString /\
      scanned config results used sd (List.length results) (Some i, s) /\
      nth_error results i = Some result /\ Item.data result = Some rd /\
      st' = (trades ++ [matched_trade coin signal sd result rd s], i :: used)).
Proof.
  unfold process_signal.
  destruct (Item.data signal) as [sd|] eqn:Hsd;
    [|intros H; injection H as <-; left; reflexivity].
  destruct (get (Data.coin sd)) as [coin|] eqn:Hcoin;
    [|intros H; injection H as <-; left; reflexivity].
  destruct (truthy_str (Some coin)) eqn:Htruthy; cbn [negb];
    [|intros H; injection H as <-; left; reflexivity].
  apply truthy_str_inv in Htruthy.
  destruct (scan_results config sd used 0 results (None, 0)) as [best|e] eqn:Hscan;
    [|discriminate].
  pose proof (scan_results_scanned config results used sd results 0%nat
                (None, 0) best eq_refl
                (scanned_start config results used sd) Hscan) as Hinv.
  cbn [bind]. destruct best as [[i|] s]; cbn [fst snd].
  - unfold subscript.
    destruct (nth_error results i) as [result|] eqn:Hnth; [|discriminate].
    cbn [bind]. destruct (Item.data result) as [rd|] eqn:Hrd; [|discriminate].
    intros H. injection H as <-. right. right.
    exists coin, sd, i, s, result, rd.
    repeat (split; [first [reflexivity|assumption]|]). reflexivity.
  - intros H. injection H as <-. right. left.
    exists coin, sd.
    assert (Hs : s = 0) by (destruct Hinv as (_ & _ & Hs); exact Hs).
    subst s. repeat (split; [first [reflexivity|assumption]|]). reflexivity.
Qed.

(** Induction over the signal loop. *)
Lemma process_signals_ind (P : Matching -> Prop) (results signals : list Item.t) :
  (forall st signal st', In signal signals -> P st ->
                         process_signal config results st signal = Ok st' -> P st') ->
  forall st st', P st -> process_signals config results signals st = Ok st' -> P st'.
Proof.
  induction signals as [|signal rest IH]; intros Hstep st st' HP Hrun;
    simpl in Hrun.
  - injection Hrun as <-. exact HP.
  - destruct (process_signal config results st signal) as [st1|e] eqn:E;
      [|discriminate].
    simpl in Hrun. apply (IH) with (st := st1).
    + intros s0 sg s1 Hin. apply Hstep. right. exact Hin.
    + apply (Hstep st signal st1); [left; reflexivity|exact HP|exact E].
    + exact Hrun.
Qed.

Section Origins.
Variable processed_data : list Item.t.
Local Abbreviation results := (of_type "result" processed_data).
Local Abbreviation signals := (of_type "signal" processed_data).

Lemma process_signal_origin (st st' : Matching) (signal : Item.t) :
  In signal signals ->
  Forall (Origin config processed_data) (fst st) ->
  process_signal config results st signal = Ok st' ->
  Forall (Origin config processed_data) (fst st').
Proof.
  destruct st as [trades used]. intros Hin Hall Hstep.
  destruct (process_signal_cases results trades used signal st' Hstep)
    as [->|[(coin & sd & Hsd & Hcoin & Hne & _ & ->)
           |(coin & sd & i & s & result & rd & Hsd & Hcoin & Hne & Hinv
             & Hnth & Hrd & ->)]]; cbn [fst] in *.
  - exact Hall.
  - apply Forall_app. split; [exact Hall|]. constructor; [|constructor].
    apply from_signal; assumption.
  - apply Forall_app. split; [exact Hall|]. constructor; [|constructor].
    destruct Hinv as (_ & _ & _ & (r & rd' & Hr & Hd & _ & Hs) & Hq & Hpos & _).
    cbn [snd] in *.
    assert (r = result) by congruence. subst r.
    assert (rd' = rd) by congruence. subst rd'.
    apply from_match; try assumption.
    apply nth_error_In with i. exact Hnth.
Qed.

Lemma unmatched_results_origin (used : list nat) (rest : list Item.t) :
  forall n, incl rest results ->
            Forall (Origin config processed_data) (unmatched_results used n rest).
Proof.
  induction rest as [|result rest IH]; intros n Hincl;
    cbn [unmatched_results]; [constructor|].
  assert (Htail : Forall (Origin config processed_data)
                         (unmatched_results used (S n) rest)).
  { apply IH. intros x Hx. apply Hincl. right. exact Hx. }
  destruct (in_set n used); [exact Htail|].
  destruct (Item.data result) as [rd|] eqn:Hrd; [|exact Htail].
  destruct (get (Data.coin rd)) as [coin|] eqn:Hcoin; [|exact Htail].
  destruct (truthy_str (Some coin)) eqn:Ht; [|exact Htail].
  constructor; [|exact Htail].
  apply from_result; try assumption.
  - apply Hincl. left. reflexivity.
  - apply truthy_str_inv. exact Ht.
Qed.

Lemma collect_trades_origin (trades : list Trade.t) :
  collect_trades config processed_data = Ok trades ->
  Forall (Origin config processed_data) trades.
Proof.
  unfold collect_trades. fold results signals.
  destruct (process_signals config results signals ([], [])) as [st|e] eqn:Hrun;
    [|discriminate].
  cbn [bind]. intros H. injection H as <-.
  apply Forall_app. split.
  - apply (process_signals_ind
             (fun st => Forall (Origin config processed_data) (fst st))
             results signals) with (st := ([], [])) (st' := st).
    + intros st0 signal st1 Hin. apply process_signal_origin. exact Hin.
    + constructor.
    + exact Hrun.
  - apply unmatched_results_origin. apply incl_refl.
Qed.

(** Every emitted trade is a matched pair, a signal alone or a result
    alone of the batch. *)
Lemma emitted_origin (trades : list Trade.t) :
  match_signals_to_results config processed_data = Ok trades ->
  Forall (Origin config processed_data) trades.
Proof.
  unfold match_signals_to_results, match_body, try_except.
  destruct (collect_trades config processed_data) as [collected|e] eqn:Hc;
    cbn [bind].
  - pose proof (collect_trades_origin collected Hc) as Hall.
    destruct (sort_desc collected) as [sorted|e] eqn:Hs.
    + intros H. injection H as <-.
      rewrite Forall_forall in *. intros x Hx. apply Hall.
      apply Permutation_in with sorted; [|exact Hx].
      apply Permutation_sym, sort_desc_perm. exact Hs.
    + intros H. injection H as <-. constructor.
  - intros H. injection H as <-. constructor.
Qed.

End Origins.

End MatcherFacts.

(** ** Bounds of the score *)

Section ScoreBounds.
Local Open Scope Q_scope.

(** What each factor keeps: the earned score lies between 0 and the
    applicable maximum. *)
Lemma coin_factor_bounds (sd rd : Data.t) (s m : Q) :
  0 <= s <= m ->
  0 <= fst (coin_factor sd rd (s, m)) <= snd (coin_factor sd rd (s, m)).
Proof.
  intros H. unfold coin_factor.
  destruct (get (Data.coin sd)) as [sc|]; [|exact H].
  destruct (get (Data.coin rd)) as [rc|]; [|exact H].
  destruct (truthy_str (Some sc) && truthy_str (Some rc)); [|exact H].
  destruct (String.eqb sc rc); cbn [fst snd]; [lra|].
  pose proof (ratio_bounds sc rc). lra.
Qed.

Lemma time_factor_bounds (sd rd : Data.t) (s m : Q) :
  0 <= s <= m ->
  0 <= fst (time_factor sd rd (s, m)) <= snd (time_factor sd rd (s, m)).
Proof.
  intros H. unfold time_factor.
  destruct (get (Data.timestamp sd)) as [st|]; [|exact H].
  destruct (get (Data.timestamp rd)) as [rt|]; [|exact H].
  destruct (truthy_timestamp (Some st) && truthy_timestamp (Some rt));
    [|exact H].
  destruct (fromisoformat st) as [sdt|]; [|cbn [fst snd]; lra].
  destruct (fromisoformat rt) as [rdt|]; [|cbn [fst snd]; lra].
  destruct (abs_total_seconds sdt rdt) as [time_diff|]; [|cbn [fst snd]; lra].
  destruct (Qle_bool time_diff 3600) eqn:E1; [cbn [fst snd]; lra|].
  destruct (Qle_bool time_diff 86400) eqn:E2; cbn [fst snd]; [|lra].
  apply Qle_bool_false in E1. apply Qle_bool_iff in E2.
  change (time_diff / 86400) with (time_diff * (1 # 86400)). lra.
Qed.

Lemma price_ratio_le_one (sp rp : Q) : 0 < sp -> price_ratio sp rp <= 1.
Proof.
  intros Hsp. unfold price_ratio.
  pose proof (Q.le_max_l sp rp). pose proof (Q.le_min_l sp rp).
  apply Qle_shift_div_r; lra.
Qed.

Lemma price_factor_bounds (sd rd : Data.t) (s m : Q) :
  price_in_range (Data.entry_price sd) ->
  0 <= s <= m ->
  0 <= fst (price_factor sd rd (s, m)) <= snd (price_factor sd rd (s, m)).
Proof.
  intros Hrange H. unfold price_factor. unfold price_in_range in Hrange.
  destruct (get (Data.entry_price sd)) as [sp|]; [|exact H].
  destruct (or_float _ _) as [rp|]; [|exact H].
  destruct (truthy_float (Some sp) && truthy_float (Some rp)); [|exact H].
  fold (price_ratio sp rp).
  destruct (Qlt_bool 0.8 (price_ratio sp rp)) eqn:E; cbn [fst snd]; [|lra].
  apply Qlt_bool_iff in E.
  assert (price_ratio sp rp <= 1) by (apply price_ratio_le_one; lra).
  lra.
Qed.

Lemma tally_bounds (sd rd : Data.t) :
  price_in_range (Data.entry_price sd) ->
  0 <= fst (tally sd rd) <= snd (tally sd rd).
Proof.
  intros Hrange. unfold tally.
  pose proof (coin_factor_bounds sd rd 0 0) as H1.
  destruct (coin_factor sd rd (0, 0)) as [s1 m1].
  pose proof (time_factor_bounds sd rd s1 m1) as H2.
  destruct (time_factor sd rd (s1, m1)) as [s2 m2].
  cbn [fst snd] in H1, H2.
  apply price_factor_bounds; [exact Hrange|].
  apply H2, H1. lra.
Qed.

(** The score of a signal whose price is in range lies in [[0, 1]]. *)
Lemma score_bounds (sd rd : Data.t) :
  price_in_range (Data.entry_price sd) ->
  0 <= _calculate_match_score sd rd <= 1.
Proof.
  intros Hrange. unfold _calculate_match_score.
  pose proof (tally_bounds sd rd Hrange) as H.
  destruct (tally sd rd) as [s m]. cbn [fst snd] in H.
  destruct (Qlt_bool 0 m) eqn:E; [|lra].
  apply Qlt_bool_iff in E. split.
  - apply Qle_shift_div_l; lra.
  - apply Qle_shift_div_r; lra.
Qed.

(** The range matters: for two negative prices min/max exceeds 1, and the
    score with it. *)
Example score_out_of_range :
  _calculate_match_score negative_signal_data negative_result_data == 1.25.
Proof. reflexivity. Qed.

End ScoreBounds.

(** ** Emitted trades *)

Section TradeClaims.
Local Open Scope Q_scope.

Lemma of_type_In (kind : string) (processed_data : list Item.t) (d : Item.t) :
  In d (of_type kind processed_data) -> In d processed_data /\ Item.type d = kind.
Proof.
  unfold of_type. rewrite filter_In. intros [H E].
  apply String.eqb_eq in E. split; assumption.
Qed.

(** A trade with both references is the merge of a signal and a result. *)
Lemma matched_origin (config : Config) (processed_data : list Item.t) (x : Trade.t) :
  Origin config processed_data x -> is_matched x ->
  exists signal result sd rd coin s,
    In signal (of_type "signal" processed_data) /\
    In result (of_type "result" processed_data) /\
    Item.data signal = Some sd /\ Item.data result = Some rd /\
    get (Data.coin sd) = Some coin /\
    s = _calculate_match_score sd rd /\ qualifies config s /\ 0 < s /\
    x = matched_trade coin signal sd result rd s.
Proof.
  intros Ho (sp & rp & Hs & Hr).
  destruct Ho as [signal result sd rd coin s H1 H2 H3 H4 H5 H6 H7 H8 H9
                 |signal sd coin H1 H2 H3 H4|result rd coin H1 H2 H3 H4];
    cbn in Hs, Hr; try discriminate.
  exists signal, result, sd, rd, coin, s.
  repeat (split; [assumption|]). reflexivity.
Qed.

Lemma sample_run :
  match_signals_to_results _get_default_config [sample_signal; sample_result]
  = Ok [sample_trade].
Proof. reflexivity. Qed.



(** The sample batch is within the price range. *)
Example sample_prices_in_range :
  Forall prices_in_range [sample_signal; sample_result].
Proof. repeat constructor; vm_compute; intuition discriminate. Qed.

(** C10: the coin of every matched trade is the coin of its signal record,
    whatever coin the result record carries. *)
Theorem matched_trade_coin (config : Config) (processed_data : list Item.t)
        (trades : list Trade.t) (x : Trade.t) :
  match_signals_to_results config processed_data = Ok trades ->
  In x trades ->
  is_matched x ->
  exists signal result signal_data,
    In signal (of_type "signal" processed_data) /\
    In result (of_type "result" processed_data) /\
    Trade.signal_image x = Some (Item.path signal) /\
    Trade.result_image x = Some (Item.path result) /\
    Item.data signal = Some signal_data /\
    get (Data.coin signal_data) = Some (Trade.coin x).
Proof.
  intros Hrun Hin Hm.
  pose proof (emitted_origin config processed_data trades Hrun) as Hall.
  rewrite Forall_forall in Hall.
  destruct (matched_origin config processed_data x (Hall x Hin) Hm)
    as (signal & result & sd & rd & coin & s & H1 & H2 & H3 & H4 & H5 & _ & _ & _ & ->).
  exists signal, result, sd. cbn.
  repeat (split; [first [assumption|reflexivity]|]). exact H5.
Qed.

Lemma matched_trade_coin_witness :
  exists signal result signal_data,
    In signal (of_type "signal" [sample_signal; sample_result]) /\
    In result (of_type "result" [sample_signal; sample_result]) /\
    Trade.signal_image sample_trade = Some (Item.path signal) /\
    Trade.result_image sample_trade = Some (Item.path result) /\
    Item.data signal = Some signal_data /\
    get (Data.coin signal_data) = Some (Trade.coin sample_trade).
Proof.
  apply (matched_trade_coin _get_default_config
           [sample_signal; sample_result] [sample_trade] sample_trade).
  - reflexivity.
  - left. reflexivity.
  - exists "signal_btc.png", "result_btc.png". split; reflexivity.
Defined.

(** A signal for [LUNA] matched, under a threshold of 0.5, to a result for
    [LUNC] (score 0.53125): the trade carries the signal's coin. *)
Example similar_coin_match :
  exists x,
    match_signals_to_results lenient_config [luna_signal; lunc_result] = Ok [x] /\
    is_matched x /\ Trade.coin x = "LUNA" /\ Trade.match_confidence x == 0.53125.
Proof.
  eexists. split; [reflexivity|]. split; [|split; reflexivity].
  eexists _, _. split; reflexivity.
Qed.

End TradeClaims.

Section MergeClaims.
Local Open Scope Q_scope.

(** C7, as stated, fails: the signal has exit price 25 and status "win", the
    result it is matched with binds neither key, and the merged trade has
    exit price [None] and status "unknown"; only the roi falls back to the
    signal's. *)
Lemma merge_fallback_counterexample :
  match_signals_to_results _get_default_config [rich_signal; bare_result]
  = Ok [merged_trade] /\
  (exists sd rd,
      Item.data rich_signal = Some sd /\ Item.data bare_result = Some rd /\
      get (Data.exit_price rd) = None /\
      get (Data.exit_price sd) = Some 25 /\
      Trade.exit_price merged_trade <> Val 25 /\
      get (Data.status rd) = None /\
      get (Data.status sd) = Some "win" /\
      Trade.status merged_trade <> Some "win").
Proof.
  split; [reflexivity|].
  eexists _, _. split; [reflexivity|]. split; [reflexivity|].
  cbn. repeat split; discriminate.
Qed.

(** C7, amended: in every matched trade the exit price and the status are
    the result's alone (exit price [None] and status "unknown" when the
    result binds no such key; the signal's values are not used); the roi is
    the result's when the result has one, and the signal's when the result
    binds no roi key. *)
Theorem merge_fields (config : Config) (processed_data : list Item.t)
        (trades : list Trade.t) (x : Trade.t) :
  match_signals_to_results config processed_data = Ok trades ->
  In x trades ->
  is_matched x ->
  exists signal result signal_data result_data,
    In signal (of_type "signal" processed_data) /\
    In result (of_type "result" processed_data) /\
    Trade.signal_image x = Some (Item.path signal) /\
    Trade.result_image x = Some (Item.path result) /\
    Item.data signal = Some signal_data /\
    Item.data result = Some result_data /\
    get (Trade.exit_price x) = get (Data.exit_price result_data) /\
    Trade.status x = get_default (Data.status result_data) (Some "unknown") /\
    (forall r, get (Data.roi result_data) = Some r -> Trade.roi x = Val r) /\
    (Data.roi result_data = Missing ->
     get (Trade.roi x) = get (Data.roi signal_data)).
Proof.
  intros Hrun Hin Hm.
  pose proof (emitted_origin config processed_data trades Hrun) as Hall.
  rewrite Forall_forall in Hall.
  destruct (matched_origin config processed_data x (Hall x Hin) Hm)
    as (signal & result & sd & rd & coin & s & H1 & H2 & H3 & H4 & _ & _ & _ & _ & ->).
  exists signal, result, sd, rd. cbn.
  repeat (split; [first [assumption|reflexivity]|]).
  split; [|split; [|split]].
  - destruct (Data.exit_price rd); reflexivity.
  - reflexivity.
  - intros r Hr. destruct (Data.roi rd); try discriminate.
    injection Hr as ->. reflexivity.
  - intros ->. cbn. destruct (Data.roi sd); reflexivity.
Qed.

Lemma merge_fields_witness :
  exists signal result signal_data result_data,
    In signal (of_type "signal" [rich_signal; bare_result]) /\
    In result (of_type "result" [rich_signal; bare_result]) /\
    Trade.signal_image merged_trade = Some (Item.path signal) /\
    Trade.result_image merged_trade = Some (Item.path result) /\
    Item.data signal = Some signal_data /\
    Item.data result = Some result_data /\
    get (Trade.exit_price merged_trade) = get (Data.exit_price result_data) /\
    Trade.status merged_trade
    = get_default (Data.status result_data) (Some "unknown") /\
    (forall r, get (Data.roi result_data) = Some r ->
               Trade.roi merged_trade = Val r) /\
    (Data.roi result_data = Missing ->
     get (Trade.roi merged_trade) = get (Data.roi signal_data)).
Proof.
  apply (merge_fields _get_default_config [rich_signal; bare_result]
                      [merged_trade] merged_trade).
  - reflexivity.
  - left. reflexivity.
  - exists "signal_sol.png", "result_sol.png". split; reflexivity.
Defined.

End MergeClaims.

(** ** Exclusivity *)

Section Exclusivity.
Variable config : Config.
Variable processed_data : list Item.t.
Local Abbreviation results := (of_type "result" processed_data).
Local Abbreviation signals := (of_type "signal" processed_data).

Lemma result_refs_app (a b : list Trade.t) :
  result_refs (a ++ b) = result_refs a ++ result_refs b.
Proof. apply flat_map_app. Qed.

Lemma process_signal_consumed (st st' : Matching) (signal : Item.t) :
  consumed results st ->
  process_signal config results st signal = Ok st' ->
  consumed results st'.
Proof.
  destruct st as [trades used]. intros (Hnd & Hlt & Hperm) Hstep.
  destruct (process_signal_cases config results trades used signal st' Hstep)
    as [->|[(coin & sd & _ & _ & _ & _ & ->)
           |(coin & sd & i & s & result & rd & _ & _ & _ & Hinv
             & Hnth & Hrd & ->)]]; unfold consumed; cbn [fst snd] in *.
  - repeat split; assumption.
  - rewrite result_refs_app. cbn. rewrite app_nil_r.
    repeat split; assumption.
  - destruct Hinv as (_ & _ & _ & (r & rd' & _ & _ & Hnot & _) & _).
    split; [constructor; assumption|]. split.
    + constructor; [|exact Hlt]. apply nth_error_Some. congruence.
    + rewrite result_refs_app. cbn.
      unfold path_at at 1. rewrite Hnth.
      apply Permutation_sym.
      apply perm_trans with (Item.path result :: result_refs trades).
      * apply perm_skip, Permutation_sym, Hperm.
      * apply Permutation_cons_append.
Qed.

Lemma unmatched_results_refs (used : list nat) (rest : list Item.t) :
  forall n,
    (forall k, nth_error rest k = nth_error results (n + k)) ->
    exists js,
      NoDup js /\
      Forall (fun j => (n <= j < List.length results)%nat /\ ~ In j used) js /\
      result_refs (unmatched_results used n rest) = map (path_at results) js.
Proof.
  induction rest as [|result rest IH]; intros n Hnth;
    cbn [unmatched_results].
  - exists []. repeat split; constructor.
  - destruct (IH (S n)) as (js & Hnd & Hall & Hrefs).
    { intros k. specialize (Hnth (S k)). cbn [nth_error] in Hnth.
      rewrite Hnth. f_equal. lia. }
    assert (Hweak : Forall (fun j => (n <= j < List.length results)%nat /\
                                     ~ In j used) js).
    { eapply Forall_impl; [|exact Hall]. cbn. intros j [H1 H2].
      split; [lia|exact H2]. }
    assert (Htail : exists js0,
               NoDup js0 /\
               Forall (fun j => (n <= j < List.length results)%nat /\
                                ~ In j used) js0 /\
               result_refs (unmatched_results used (S n) rest)
               = map (path_at results) js0)
      by (exists js; repeat split; assumption).
    destruct (in_set n used) eqn:Hused; [exact Htail|].
    destruct (Item.data result) as [rd|]; [|exact Htail].
    destruct (get (Data.coin rd)) as [coin|]; [|exact Htail].
    destruct (truthy_str (Some coin)); [|exact Htail].
    pose proof (Hnth 0%nat) as H0. rewrite Nat.add_0_r in H0. cbn in H0.
    exists (n :: js). split; [|split].
    + constructor; [|exact Hnd].
      intros Hin. rewrite Forall_forall in Hall.
      destruct (Hall n Hin) as [Hle _]. lia.
    + constructor; [|exact Hweak]. split.
      * split; [lia|]. apply nth_error_Some. congruence.
      * apply in_set_false. exact Hused.
    + cbn. unfold path_at at 1. rewrite <- H0. f_equal. exact Hrefs.
Qed.

(** The trades before the sort refer to pairwise distinct results. *)
Lemma collect_trades_refs (trades : list Trade.t) :
  collect_trades config processed_data = Ok trades ->
  exists idxs,
    NoDup idxs /\
    Forall (fun i => (i < List.length results)%nat) idxs /\
    Permutation (result_refs trades) (map (path_at results) idxs).
Proof.
  unfold collect_trades. fold results signals.
  destruct (process_signals config results signals ([], [])) as [st|e] eqn:Hrun;
    [|discriminate].
  cbn [bind]. intros H. injection H as <-.
  assert (Hc : consumed results st).
  { apply (process_signals_ind config (consumed results) results signals)
      with (st := ([], [])); [| |exact Hrun].
    - intros st0 signal st1 _. apply process_signal_consumed.
    - repeat split; constructor. }
  destruct Hc as (Hnd & Hlt & Hperm).
  destruct (unmatched_results_refs (snd st) results 0%nat) as (js & Hjs & Hall & Hrefs);
    [intros k; reflexivity|].
  exists (snd st ++ js). split; [|split].
  - apply NoDup_app; [exact Hnd|exact Hjs|].
    intros a Ha Hin. rewrite Forall_forall in Hall.
    destruct (Hall a Hin) as [_ Hnot]. contradiction.
  - apply Forall_app. split; [exact Hlt|].
    eapply Forall_impl; [|exact Hall]. cbn. intros j [H1 _]. lia.
  - rewrite result_refs_app, map_app, Hrefs.
    apply Permutation_app_tail. exact Hperm.
Qed.

Lemma path_at_injective (i j : nat) :
  NoDup (map Item.path results) ->
  (i < List.length results)%nat -> (j < List.length results)%nat ->
  path_at results i = path_at results j -> i = j.
Proof.
  intros Hnd Hi Hj E.
  apply (proj1 (NoDup_nth_error (map Item.path results)) Hnd).
  - rewrite length_map. exact Hi.
  - rewrite !nth_error_map. unfold path_at in E.
    destruct (nth_error results i) eqn:Ei;
      [|apply nth_error_None in Ei; lia].
    destruct (nth_error results j) eqn:Ej;
      [|apply nth_error_None in Ej; lia].
    cbn. f_equal. exact E.
Qed.

(** C4: no two emitted trades refer to the same result record: the result
    references of the returned trades are, up to order, the paths of
    pairwise distinct positions of the result list; so when the result
    records have distinct paths, no path is referred to twice. *)
Theorem result_exclusivity (trades : list Trade.t) :
  match_signals_to_results config processed_data = Ok trades ->
  (exists idxs,
      NoDup idxs /\
      Forall (fun i => (i < List.length results)%nat) idxs /\
      Permutation (result_refs trades) (map (path_at results) idxs)) /\
  (NoDup (map Item.path results) -> NoDup (result_refs trades)).
Proof.
  intros Hrun.
  assert (Hidx : exists idxs,
             NoDup idxs /\
             Forall (fun i => (i < List.length results)%nat) idxs /\
             Permutation (result_refs trades) (map (path_at results) idxs)).
  { unfold match_signals_to_results, match_body, try_except in Hrun.
    destruct (collect_trades config processed_data) as [collected|e] eqn:Hc;
      cbn [bind] in Hrun.
    - destruct (sort_desc collected) as [sorted|e] eqn:Hs.
      + injection Hrun as <-.
        destruct (collect_trades_refs collected Hc) as (idxs & H1 & H2 & H3).
        exists idxs. split; [exact H1|]. split; [exact H2|].
        apply perm_trans with (result_refs collected); [|exact H3].
        apply Permutation_flat_map, Permutation_sym, sort_desc_perm.
        exact Hs.
      + injection Hrun as <-. exists []. repeat split; constructor.
    - injection Hrun as <-. exists []. repeat split; constructor. }
  split; [exact Hidx|].
  intros Hpaths. destruct Hidx as (idxs & Hnd & Hlt & Hperm).
  apply Permutation_NoDup with (map (path_at results) idxs);
    [apply Permutation_sym; exact Hperm|].
  apply NoDup_map_NoDup_ForallPairs; [|exact Hnd].
  intros i j Hi Hj. rewrite Forall_forall in Hlt.
  apply path_at_injective; [exact Hpaths|apply Hlt; exact Hi|apply Hlt; exact Hj].
Qed.

End Exclusivity.

Lemma result_exclusivity_witness :
  (exists idxs,
      NoDup idxs /\
      Forall (fun i => (i < List.length (of_type "result" sample_batch))%nat) idxs /\
      Permutation (result_refs sample_output)
                  (map (path_at (of_type "result" sample_batch)) idxs)) /\
  (NoDup (map Item.path (of_type "result" sample_batch)) ->
   NoDup (result_refs sample_output)).
Proof.
  apply (result_exclusivity _get_default_config sample_batch sample_output).
  reflexivity.
Defined.

(** ** Tie-break of the scan *)

Section TieBreak.
Local Open Scope Q_scope.




(** Both results of [tied_results] score 0.98 against [sample_signal]; the
    one at index 0 is consumed. *)
Example tie_goes_to_first :
  exists s,
    scan_results _get_default_config btc_signal_data [] 0 tied_results (None, 0)
    = Ok (Some 0%nat, s) /\ s == 0.98.
Proof. eexists. split; reflexivity. Qed.

End TieBreak.

(** ** Exceptions *)

Section Totality.

(** C6: for every batch, whatever its records lack, the call raises nothing
    and returns a list: the list of the [try] block when that completes, the
    empty list when it raises. *)
Theorem always_returns (config : Config) (processed_data : list Item.t) :
  exists trades,
    match_signals_to_results config processed_data = Ok trades /\
    (forall l, match_body config processed_data = Ok l -> trades = l) /\
    (forall e, match_body config processed_data = Raise e -> trades = []).
Proof.
  unfold match_signals_to_results, try_except.
  destruct (match_body config processed_data) as [l|e].
  - exists l. split; [reflexivity|]. split.
    + intros l' H. injection H as <-. reflexivity.
    + intros e H. discriminate.
  - exists []. split; [reflexivity|]. split.
    + intros l H. discriminate.
    + intros e' _. reflexivity.
Qed.

(** The handler is needed: without a configured threshold the [try] block
    raises [KeyError] as soon as a candidate scores above 0. *)
Example missing_threshold_raises :
  match_body {| auto_match_threshold := None |} sample_batch
  = Raise (KeyError "auto_match_threshold").
Proof. reflexivity. Qed.

End Totality.

(** ** Records without a coin *)

Section Coinless.
Local Open Scope Q_scope.

(** What the two guards ([not signal_data.get('coin')] in the signal loop,
    [result_data.get('coin')] in the second result loop) do ensure: every
    emitted trade carries a coin, and it is the coin of its signal, or of
    its result when it has no signal. *)
Lemma emitted_coin_recognised (config : Config) (processed_data : list Item.t)
      (trades : list Trade.t) (x : Trade.t) :
  match_signals_to_results config processed_data = Ok trades ->
  In x trades -> Trade.coin x <> EmptyString.
Proof.
  intros Hrun Hin.
  pose proof (emitted_origin config processed_data trades Hrun) as Hall.
  rewrite Forall_forall in Hall.
  destruct (Hall x Hin); cbn; assumption.
Qed.

(** C2 at [coinless_batch]: the result has no recognised coin, and the scan,
    which tests only [if not result_data], scores it on the timestamps
    alone (0.2 of 0.2), so it is consumed by the signal and the emitted trade
    refers to it. *)
Lemma coinless_result_consumed :
  (exists rd, Item.data coinless_result = Some rd /\
              truthy_str (get (Data.coin rd)) = false) /\
  exists x,
    match_signals_to_results _get_default_config coinless_batch = Ok [x] /\
    Trade.signal_image x = Some (Item.path sample_signal) /\
    Trade.result_image x = Some (Item.path coinless_result) /\
    Trade.match_confidence x == 1.
Proof.
  split.
  - eexists. split; reflexivity.
  - eexists. repeat split.
Qed.

End Coinless.

(** ** Ordering of the output *)

Section Ordering.
Local Open Scope Q_scope.

(** Every trade dict binds ['roi'], so the default of [x.get('roi', 0)]
    is never taken: the key of a trade without roi is [None]. *)
Lemma sort_key_of_origin (config : Config) (processed_data : list Item.t)
      (x : Trade.t) :
  Origin config processed_data x -> sort_key x = get (Trade.roi x).
Proof.
  intros [signal result sd rd coin s _ _ _ _ _ _ _ _ _
         |signal sd coin _ _ _ _|result rd coin _ _ _ _];
    unfold sort_key; cbn [Trade.roi matched_trade signal_only_trade
                                    result_only_trade].
  - destruct (get_default (Data.roi rd) (get (Data.roi sd))); reflexivity.
  - destruct (get (Data.roi sd)); reflexivity.
  - destruct (get (Data.roi rd)); reflexivity.
Qed.

(** The list that is returned is in descending roi order. *)
Lemma returned_sorted (config : Config) (processed_data : list Item.t)
      (trades : list Trade.t) :
  match_signals_to_results config processed_data = Ok trades ->
  Sorted roi_ge trades.
Proof.
  unfold match_signals_to_results, match_body, try_except.
  destruct (collect_trades config processed_data) as [collected|e];
    cbn [bind].
  - destruct (sort_desc collected) as [sorted|e] eqn:Hs; intros H;
      injection H as <-; [|constructor].
    apply (sort_desc_sorted collected). exact Hs.
  - intros H. injection H as <-. constructor.
Qed.

(** When all collected trades have a roi, they are all returned. *)
Lemma all_roi_returned (config : Config) (processed_data : list Item.t)
      (collected : list Trade.t) :
  collect_trades config processed_data = Ok collected ->
  (forall x, In x collected -> get (Trade.roi x) <> None) ->
  exists trades,
    match_signals_to_results config processed_data = Ok trades /\
    Permutation collected trades /\ Sorted roi_ge trades.
Proof.
  intros Hc Hroi.
  pose proof (collect_trades_origin config processed_data collected Hc) as Hall.
  rewrite Forall_forall in Hall.
  destruct (sort_desc_returns collected) as (sorted & Hs).
  { intros y Hy. rewrite (sort_key_of_origin config processed_data y (Hall y Hy)).
    apply Hroi. exact Hy. }
  exists sorted. split; [|split].
  - unfold match_signals_to_results, match_body. rewrite Hc. cbn [bind].
    rewrite Hs. reflexivity.
  - apply sort_desc_perm. exact Hs.
  - apply (sort_desc_sorted collected). exact Hs.
Qed.

(** When two or more trades are collected and one of them has no roi, the
    sort raises and the empty list is returned. *)
Lemma missing_roi_returns_nothing (config : Config) (processed_data : list Item.t)
      (collected : list Trade.t) (x : Trade.t) :
  collect_trades config processed_data = Ok collected ->
  (2 <= List.length collected)%nat ->
  In x collected -> get (Trade.roi x) = None ->
  match_signals_to_results config processed_data = Ok [].
Proof.
  intros Hc Hlen Hin Hroi.
  pose proof (collect_trades_origin config processed_data collected Hc) as Hall.
  rewrite Forall_forall in Hall.
  unfold match_signals_to_results, match_body. rewrite Hc. cbn [bind].
  destruct (sort_desc collected) as [sorted|e] eqn:Hs; [|reflexivity].
  exfalso. apply (sort_desc_keys collected sorted Hs Hlen x Hin).
  rewrite (sort_key_of_origin config processed_data x (Hall x Hin)).
  exact Hroi.
Qed.

(** C3 at [mixed_roi_batch]: two trades are collected, the signal's without
    roi and the result's with roi 5; ordered with a missing roi as 0 they
    would be returned as [[b; a]]; the sort compares [None] with 5, raises
    [TypeError], and the call returns the empty list. *)
Lemma mixed_roi_lost :
  (exists a b,
      collect_trades _get_default_config mixed_roi_batch = Ok [a; b] /\
      Trade.roi a = PyNone /\ Trade.roi b = Val 5 /\
      Sorted roi_ge [b; a]) /\
  (exists msg, match_body _get_default_config mixed_roi_batch
               = Raise (TypeError msg)) /\
  match_signals_to_results _get_default_config mixed_roi_batch = Ok [].
Proof.
  split; [|split].
  - eexists _, _. split; [reflexivity|]. split; [reflexivity|].
    split; [reflexivity|].
    repeat constructor. unfold roi_ge. cbn. lra.
  - eexists. reflexivity.
  - reflexivity.
Qed.

End Ordering.

(** ** Coin detection *)

Section Detection.
Local Open Scope Q_scope.

Lemma keep_better_fold (l : list (string * Q)) :
  forall b0 : Detection,
    snd b0 <= snd (fold_left keep_better l b0) /\
    (forall c, In c l -> snd c <= snd (fold_left keep_better l b0)) /\
    (fold_left keep_better l b0 = b0 \/
     (In (fold_left keep_better l b0) l /\
      snd b0 < snd (fold_left keep_better l b0))).
Proof.
  induction l as [|c l IH]; intros b0; cbn [fold_left].
  - split; [lra|]. split; [intros c []|left; reflexivity].
  - destruct (IH (keep_better b0 c)) as (Hge & Hall & Hres).
    assert (Hstep : snd b0 <= snd (keep_better b0 c) /\
                    snd c <= snd (keep_better b0 c) /\
                    (keep_better b0 c = b0 \/
                     (keep_better b0 c = c /\ snd b0 < snd c))).
    { unfold keep_better. destruct (Qlt_bool (snd b0) (snd c)) eqn:E.
      - apply Qlt_bool_iff in E. repeat split; try lra. right. split; [reflexivity|exact E].
      - apply Qlt_bool_false in E. repeat split; try lra. left. reflexivity. }
    destruct Hstep as (H1 & H2 & H3).
    split; [lra|]. split.
    + intros c' [<-|Hin]; [lra|apply Hall; exact Hin].
    + destruct Hres as [Heq|[Hin Hlt]].
      * rewrite Heq. destruct H3 as [H3|[H3 Hlt]].
        -- left. exact H3.
        -- right. rewrite H3. split; [left; reflexivity|exact Hlt].
      * right. split; [right; exact Hin|lra].
Qed.

(** Nested loops that only ever call [keep_better] are one loop over the
    candidates in the order met. *)
Lemma fold_left_candidates {X : Type} (g : Detection -> X -> Detection)
      (f : X -> list (string * Q)) (xs : list X) :
  (forall b x, g b x = fold_left keep_better (f x) b) ->
  forall b, fold_left g xs b = fold_left keep_better (flat_map f xs) b.
Proof.
  intros Hg. induction xs as [|x xs IH]; intros b; cbn [fold_left flat_map].
  - reflexivity.
  - rewrite fold_left_app, IH, Hg. reflexivity.
Qed.

Variable known_coins : list string.

Lemma region_step_candidates (best : Detection) (region : Region.t) :
  region_step known_coins best region
  = fold_left keep_better (region_candidates known_coins region) best.
Proof.
  unfold region_step, region_candidates. rewrite fold_left_app.
  rewrite (fold_left_candidates (token_step known_coins region)
             (similar_candidates known_coins region)).
  - f_equal. apply fold_left_candidates.
    intros b coin. unfold exact_step.
    destruct (contains _ coin); reflexivity.
  - intros b token. unfold token_step, similar_candidates.
    destruct (2 <=? String.length token)%nat; [|reflexivity].
    apply fold_left_candidates.
    intros b' coin. unfold similar_step.
    destruct (Qlt_bool 0.8 (Difflib.ratio token coin)); reflexivity.
Qed.

Lemma detect_coin_name_candidates (text_regions : list Region.t) :
  detect_coin_name known_coins text_regions
  = fold_left keep_better
              (flat_map (region_candidates known_coins) text_regions)
              (EmptyString, 0).
Proof.
  unfold detect_coin_name. apply fold_left_candidates.
  intros b region. apply region_step_candidates.
Qed.

Lemma candidates_accepted (text_regions : list Region.t) (c : string * Q) :
  In c (flat_map (region_candidates known_coins) text_regions)
  <-> Accepted known_coins text_regions c.
Proof.
  rewrite in_flat_map. split.
  - intros (region & Hregion & Hc). unfold region_candidates in Hc.
    apply in_app_or in Hc. destruct Hc as [Hc|Hc].
    + unfold exact_candidates in Hc. apply in_flat_map in Hc.
      destruct Hc as (coin & Hcoin & Hc).
      destruct (contains _ coin) eqn:E; [|contradiction].
      destruct Hc as [<-|[]]. apply exact_hit; assumption.
    + apply in_flat_map in Hc. destruct Hc as (token & Htoken & Hc).
      unfold similar_candidates in Hc.
      destruct (2 <=? String.length token)%nat eqn:Hlen; [|contradiction].
      apply in_flat_map in Hc. destruct Hc as (coin & Hcoin & Hc).
      destruct (Qlt_bool 0.8 (Difflib.ratio token coin)) eqn:E;
        [|contradiction].
      destruct Hc as [<-|[]].
      apply similar_hit; try assumption.
      * apply Nat.leb_le. exact Hlen.
      * apply Qlt_bool_iff. exact E.
  - intros [region coin Hregion Hcoin Hin
           |region token coin Hregion Htoken Hlen Hcoin Hsim];
      exists region; (split; [exact Hregion|]); unfold region_candidates;
      apply in_or_app.
    + left. unfold exact_candidates. apply in_flat_map.
      exists coin. split; [exact Hcoin|]. rewrite Hin. left. reflexivity.
    + right. apply in_flat_map. exists token. split; [exact Htoken|].
      unfold similar_candidates.
      apply Nat.leb_le in Hlen. rewrite Hlen.
      apply in_flat_map. exists coin. split; [exact Hcoin|].
      apply Qlt_bool_iff in Hsim. rewrite Hsim. left. reflexivity.
Qed.

(** C8, amended: coin detection takes a similarity match into account
    exactly when its ratio is strictly greater than 0.8, with combined
    confidence region confidence times similarity: the detection dominates
    every such candidate and every exactly contained symbol, it is one of
    them or the empty detection, and when no registry symbol is contained in
    a region and no similarity exceeds 0.8 (a best similarity of exactly 0.8
    included) nothing is detected. *)
Theorem detect_coin_name_accepts (text_regions : list Region.t) :
  let best := detect_coin_name known_coins text_regions in
  (forall c, Accepted known_coins text_regions c -> snd c <= snd best) /\
  (best = (EmptyString, 0) \/
   (Accepted known_coins text_regions best /\ 0 < snd best)) /\
  (no_exact_hit known_coins text_regions ->
   (forall region token coin,
       In region text_regions ->
       In token (Re.findall_coin (upper (Region.text region))) ->
       In coin known_coins ->
       Difflib.ratio token coin <= 0.8) ->
   best = (EmptyString, 0)).
Proof.
  intros best. unfold best. rewrite detect_coin_name_candidates.
  destruct (keep_better_fold
              (flat_map (region_candidates known_coins) text_regions)
              (EmptyString, 0)) as (_ & Hall & Hres).
  assert (Hone : fold_left keep_better
                   (flat_map (region_candidates known_coins) text_regions)
                   (EmptyString, 0) = (EmptyString, 0) \/
                 (Accepted known_coins text_regions
                    (fold_left keep_better
                       (flat_map (region_candidates known_coins) text_regions)
                       (EmptyString, 0)) /\
                  0 < snd (fold_left keep_better
                             (flat_map (region_candidates known_coins) text_regions)
                             (EmptyString, 0)))).
  { destruct Hres as [Heq|[Hin Hlt]]; [left; exact Heq|right].
    split; [apply candidates_accepted; exact Hin|exact Hlt]. }
  split; [|split].
  - intros c Hc. apply Hall. apply candidates_accepted. exact Hc.
  - exact Hone.
  - intros Hexact Hsim. destruct Hone as [Heq|[Hacc _]]; [exact Heq|].
    exfalso. remember (fold_left keep_better _ _) as r eqn:Hr. clear Hr.
    destruct Hacc as [region coin Hregion Hcoin Hin
                     |region token coin Hregion Htoken Hlen Hcoin Hlt].
    + rewrite (Hexact region coin Hregion Hcoin) in Hin. discriminate.
    + pose proof (Hsim region token coin Hregion Htoken Hcoin). lra.
Qed.

End Detection.

Section DetectionExamples.
Local Open Scope Q_scope.

Lemma In_forallb {A : Type} (p : A -> bool) (l : list A) (x : A) :
  forallb p l = true -> In x l -> p x = true.
Proof. intros H. apply (proj1 (forallb_forall p l) H). Qed.

(** C8, as stated, fails: [FLOKY] contains no registry symbol, its best
    similarity over the registry is exactly 0.8 (with [FLOKI]), and nothing
    is detected, where the claim has [FLOKI] accepted at 0.9 * 0.8. *)
Lemma similarity_threshold_counterexample :
  no_exact_hit default_coins [floky_region] /\
  Re.findall_coin (upper (Region.text floky_region)) = ["FLOKY"] /\
  In "FLOKI" default_coins /\
  Difflib.ratio "FLOKY" "FLOKI" == 0.8 /\
  (forall coin, In coin default_coins -> Difflib.ratio "FLOKY" coin <= 0.8) /\
  detect_coin_name default_coins [floky_region] = (EmptyString, 0) /\
  detect_coin_name default_coins [floky_region]
  <> ("FLOKI", Region.confidence floky_region * Difflib.ratio "FLOKY" "FLOKI").
Proof.
  split; [|split; [|split; [|split; [|split; [|split]]]]].
  - intros region coin [<-|[]] Hcoin.
    apply negb_true_iff.
    apply (In_forallb
             (fun coin => negb (contains (upper (Region.text floky_region)) coin))
             default_coins coin); [reflexivity|exact Hcoin].
  - reflexivity.
  - unfold default_coins. cbn. intuition.
  - reflexivity.
  - intros coin Hcoin. apply Qle_bool_iff.
    apply (In_forallb (fun coin => Qle_bool (Difflib.ratio "FLOKY" coin) 0.8)
                      default_coins coin); [reflexivity|exact Hcoin].
  - reflexivity.
  - discriminate.
Qed.

(** A similarity above 0.8 is accepted: [THTA] is read as [THETA]
    (similarity 8/9) at confidence 0.9 * 8/9 = 0.8. *)
Example thta_detected :
  exists c, detect_coin_name default_coins [thta_region] = ("THETA", c) /\
            c == 0.9 * Difflib.ratio "THTA" "THETA" /\ c == 0.8.
Proof. eexists. split; [reflexivity|]. split; reflexivity. Qed.

End DetectionExamples.

(** * Further properties *)

(** ** More on the match score *)

Section ScoreMore.
Local Open Scope Q_scope.

(** What a factor adds: [a] to the score and [b] to the maximum. *)
Lemma coin_factor_adds (sd rd : Data.t) (s m : Q) :
  exists a b,
    fst (coin_factor sd rd (s, m)) == s + a /\
    snd (coin_factor sd rd (s, m)) == m + b /\
    0 <= a <= b /\ b <= 0.6.
Proof.
  unfold coin_factor.
  destruct (get (Data.coin sd)) as [sc|];
    [|exists 0, 0; cbn [fst snd]; repeat split; lra].
  destruct (get (Data.coin rd)) as [rc|];
    [|exists 0, 0; cbn [fst snd]; repeat split; lra].
  destruct (truthy_str (Some sc) && truthy_str (Some rc));
    [|exists 0, 0; cbn [fst snd]; repeat split; lra].
  destruct (String.eqb sc rc); cbn [fst snd].
  - exists 0.6, 0.6. repeat split; lra.
  - pose proof (ratio_bounds sc rc).
    exists (0.6 * Difflib.ratio sc rc * 0.5), 0.6. repeat split; lra.
Qed.

Lemma time_factor_adds (sd rd : Data.t) (s m : Q) :
  exists a b,
    fst (time_factor sd rd (s, m)) == s + a /\
    snd (time_factor sd rd (s, m)) == m + b /\
    0 <= a <= b /\ b <= 0.2.
Proof.
  unfold time_factor.
  destruct (get (Data.timestamp sd)) as [st|];
    [|exists 0, 0; cbn [fst snd]; repeat split; lra].
  destruct (get (Data.timestamp rd)) as [rt|];
    [|exists 0, 0; cbn [fst snd]; repeat split; lra].
  destruct (truthy_timestamp (Some st) && truthy_timestamp (Some rt));
    [|exists 0, 0; cbn [fst snd]; repeat split; lra].
  destruct (fromisoformat st) as [sdt|];
    [|exists 0, 0.2; cbn [fst snd]; repeat split; lra].
  destruct (fromisoformat rt) as [rdt|];
    [|exists 0, 0.2; cbn [fst snd]; repeat split; lra].
  destruct (abs_total_seconds sdt rdt) as [time_diff|];
    [|exists 0, 0.2; cbn [fst snd]; repeat split; lra].
  destruct (Qle_bool time_diff 3600) eqn:E1;
    [exists 0.2, 0.2; cbn [fst snd]; repeat split; lra|].
  destruct (Qle_bool time_diff 86400) eqn:E2; cbn [fst snd];
    [|exists 0, 0.2; repeat split; lra].
  apply Qle_bool_false in E1. apply Qle_bool_iff in E2.
  exists (0.2 * (1 - time_diff * (1 # 86400))), 0.2.
  change (time_diff / 86400) with (time_diff * (1 # 86400)).
  repeat split; lra.
Qed.

Lemma price_factor_adds (sd rd : Data.t) (s m : Q) :
  exists a b,
    fst (price_factor sd rd (s, m)) == s + a /\
    snd (price_factor sd rd (s, m)) == m + b /\
    0 <= a /\ b <= 0.2 /\ 0 <= b /\
    (price_in_range (Data.entry_price sd) -> a <= b).
Proof.
  unfold price_factor, price_in_range.
  destruct (get (Data.entry_price sd)) as [sp|];
    [|exists 0, 0; cbn [fst snd]; repeat split; lra].
  destruct (or_float _ _) as [rp|];
    [|exists 0, 0; cbn [fst snd]; repeat split; lra].
  destruct (truthy_float (Some sp) && truthy_float (Some rp));
    [|exists 0, 0; cbn [fst snd]; repeat split; lra].
  fold (price_ratio sp rp).
  destruct (Qlt_bool 0.8 (price_ratio sp rp)) eqn:E; cbn [fst snd];
    [|exists 0, 0.2; repeat split; lra].
  apply Qlt_bool_iff in E.
  exists (0.2 * price_ratio sp rp), 0.2. repeat split; try lra.
  intros Hrange.
  assert (price_ratio sp rp <= 1) by (apply price_ratio_le_one; lra).
  lra.
Qed.

(** The tally as three increments. *)
Lemma tally_adds (sd rd : Data.t) :
  exists a1 b1 a2 b2 a3 b3,
    fst (tally sd rd) == a1 + a2 + a3 /\
    snd (tally sd rd) == b1 + b2 + b3 /\
    fst (coin_factor sd rd (0, 0)) == a1 /\
    snd (coin_factor sd rd (0, 0)) == b1 /\
    0 <= a1 <= b1 /\ b1 <= 0.6 /\
    0 <= a2 <= b2 /\ b2 <= 0.2 /\
    0 <= a3 /\ 0 <= b3 <= 0.2 /\
    (price_in_range (Data.entry_price sd) -> a3 <= b3).
Proof.
  unfold tally.
  destruct (coin_factor_adds sd rd 0 0) as (a1 & b1 & H1 & H1' & H1a & H1b).
  destruct (coin_factor sd rd (0, 0)) as [s1 m1]. cbn [fst snd] in *.
  destruct (time_factor_adds sd rd s1 m1) as (a2 & b2 & H2 & H2' & H2a & H2b).
  destruct (time_factor sd rd (s1, m1)) as [s2 m2]. cbn [fst snd] in *.
  destruct (price_factor_adds sd rd s2 m2)
    as (a3 & b3 & H3 & H3' & H3a & H3b & H3c & H3d).
  exists a1, b1, a2, b2, a3, b3.
  repeat split; try lra. exact H3d.
Qed.

Lemma score_of_tally (sd rd : Data.t) (s m : Q) :
  fst (tally sd rd) == s -> snd (tally sd rd) == m -> 0 < m ->
  _calculate_match_score sd rd == s / m.
Proof.
  intros Hs Hm Hpos. unfold _calculate_match_score.
  destruct (tally sd rd) as [s0 m0]. cbn [fst snd] in *.
  assert (E : Qlt_bool 0 m0 = true) by (apply Qlt_bool_iff; lra).
  rewrite E, Hs, Hm. reflexivity.
Qed.

(** The score is never negative, and for a signal whose price is in the
    range that [detect_prices] lets through it is at most 1. *)
Theorem score_in_unit_interval (sd rd : Data.t) :
  0 <= _calculate_match_score sd rd /\
  (price_in_range (Data.entry_price sd) -> _calculate_match_score sd rd <= 1).
Proof.
  destruct (tally_adds sd rd)
    as (a1 & b1 & a2 & b2 & a3 & b3 & Hs & Hm & _ & _ & H1 & H1' & H2 & H2'
        & H3 & H3' & H3r).
  unfold _calculate_match_score.
  destruct (tally sd rd) as [s m]. cbn [fst snd] in *.
  destruct (Qlt_bool 0 m) eqn:E; [|split; [lra|intros _; lra]].
  apply Qlt_bool_iff in E. split.
  - apply Qle_shift_div_l; lra.
  - intros Hrange. specialize (H3r Hrange). apply Qle_shift_div_r; lra.
Qed.

(** Two records that carry different recognised coins score at most 0.7,
    whatever their timestamps and prices. *)
Lemma score_cap_of_different_coins (sd rd : Data.t) (sc rc : string) :
  get (Data.coin sd) = Some sc -> get (Data.coin rd) = Some rc ->
  sc <> EmptyString -> rc <> EmptyString -> sc <> rc ->
  price_in_range (Data.entry_price sd) ->
  _calculate_match_score sd rd <= 0.7.
Proof.
  intros Hsc Hrc Hs Hr Hne Hrange.
  destruct (tally_adds sd rd)
    as (a1 & b1 & a2 & b2 & a3 & b3 & Hsum & Hmax & Ha1 & Hb1 & H1 & H1' & H2 & H2'
        & H3 & H3' & H3r).
  specialize (H3r Hrange).
  unfold coin_factor in Ha1, Hb1. rewrite Hsc, Hrc in Ha1, Hb1.
  rewrite (truthy_str_nonempty sc Hs), (truthy_str_nonempty rc Hr) in Ha1, Hb1.
  cbn [andb] in Ha1, Hb1.
  assert (E : String.eqb sc rc = false) by (apply String.eqb_neq; exact Hne).
  rewrite E in Ha1, Hb1. cbn [fst snd] in Ha1, Hb1.
  pose proof (ratio_bounds sc rc) as Hsim.
  rewrite (score_of_tally sd rd (a1 + a2 + a3) (b1 + b2 + b3) Hsum Hmax)
    by lra.
  apply Qle_shift_div_r; lra.
Qed.

(** When no factor applies (on one side or the other the coin, the timestamp
    and the price are missing) the score is 0.0; nothing is divided. *)
Theorem score_zero_without_common_data (sd rd : Data.t) :
  no_common_coin sd rd -> no_common_time sd rd -> no_common_price sd rd ->
  _calculate_match_score sd rd = 0.
Proof.
  unfold no_common_coin, no_common_time, no_common_price.
  intros Hc Ht Hp.
  assert (E : tally sd rd = (0, 0)).
  { unfold tally.
    assert (E1 : coin_factor sd rd (0, 0) = (0, 0)).
    { unfold coin_factor.
      destruct (get (Data.coin sd)) as [sc|]; [|reflexivity].
      destruct (get (Data.coin rd)) as [rc|]; [|reflexivity].
      rewrite Hc. reflexivity. }
    rewrite E1.
    assert (E2 : time_factor sd rd (0, 0) = (0, 0)).
    { unfold time_factor.
      destruct (get (Data.timestamp sd)) as [st|]; [|reflexivity].
      destruct (get (Data.timestamp rd)) as [rt|]; [|reflexivity].
      rewrite Ht. reflexivity. }
    rewrite E2.
    unfold price_factor.
    destruct (get (Data.entry_price sd)) as [sp|]; [|reflexivity].
    destruct (or_float _ _) as [rp|]; [|reflexivity].
    rewrite Hp. reflexivity. }
  unfold _calculate_match_score. rewrite E. reflexivity.
Qed.

Lemma score_zero_without_common_data_witness :
  _calculate_match_score bare_result_data
                         (sample_data EmptyString Missing (Val 7) 0) = 0.
Proof.
  apply score_zero_without_common_data; reflexivity.
Defined.

(** Missing data is not penalised: with the same coin on both sides the score
    is 1.0 as soon as each of the other two factors either does not apply or
    is earned in full (timestamps within the hour, equal prices). *)
Theorem score_one_on_agreement (sd rd : Data.t) (c : string) :
  same_canonical_coin sd rd c ->
  no_common_time sd rd \/ at_most_one_hour_apart sd rd ->
  no_common_price sd rd \/
    (exists sp rp, exposed_prices sd rd sp rp /\ sp == rp) ->
  _calculate_match_score sd rd == 1.
Proof.
  intros (Hsc & Hrc & Hc) Htime Hprice.
  assert (E1 : coin_factor sd rd (0, 0) = (0 + 0.6, 0 + 0.6)).
  { unfold coin_factor. rewrite Hsc, Hrc, (truthy_str_nonempty c Hc).
    cbn [andb]. rewrite String.eqb_refl. reflexivity. }
  assert (E2 : exists t, (t = 0 \/ t = 0.2) /\
                         time_factor sd rd (0 + 0.6, 0 + 0.6)
                         = (0 + 0.6 + t, 0 + 0.6 + t) \/
                         time_factor sd rd (0 + 0.6, 0 + 0.6)
                         = (0 + 0.6, 0 + 0.6)).
  { destruct Htime as [Hno|(aware & us1 & us2 & Hst & Hrt & Hdt)].
    - exists 0. right. unfold no_common_time in Hno. unfold time_factor.
      destruct (get (Data.timestamp sd)) as [st|]; [|reflexivity].
      destruct (get (Data.timestamp rd)) as [rt|]; [|reflexivity].
      rewrite Hno. reflexivity.
    - exists 0.2. left. split; [right; reflexivity|].
      unfold time_factor. rewrite Hst, Hrt.
      cbn [truthy_timestamp andb fromisoformat].
      unfold abs_total_seconds. cbn [fst snd]. rewrite Bool.eqb_reflx.
      rewrite (within_hour_seconds _ Hdt). reflexivity. }
  assert (Hfin : forall s, 0 < s ->
                 price_factor sd rd (s, s) = (s, s) \/
                 exists r, r == 1 /\
                           price_factor sd rd (s, s) = (s + 0.2 * r, s + 0.2)).
  { intros s Hs. destruct Hprice as [Hno|(sp & rp & (Hsp & Hrp & Hs0 & Hr0) & Heq)].
    - left. unfold no_common_price in Hno. unfold price_factor.
      destruct (get (Data.entry_price sd)) as [sp|]; [|reflexivity].
      destruct (or_float _ _) as [rp|]; [|reflexivity].
      rewrite Hno. reflexivity.
    - right. exists (price_ratio sp rp).
      assert (Hone : price_ratio sp rp == 1)
        by (apply price_ratio_one; assumption).
      split; [exact Hone|].
      unfold price_factor. rewrite Hsp, Hrp.
      rewrite (truthy_float_nonzero sp Hs0), (truthy_float_nonzero rp Hr0).
      cbn [andb]. fold (price_ratio sp rp).
      assert (Hlt : Qlt_bool 0.8 (price_ratio sp rp) = true)
        by (apply Qlt_bool_iff; lra).
      rewrite Hlt. reflexivity. }
  unfold _calculate_match_score, tally. rewrite E1.
  destruct E2 as (t & [[Ht E2]|E2]); rewrite E2.
  - assert (Hpos : 0 < 0 + 0.6 + t) by (destruct Ht as [->| ->]; lra).
    destruct (Hfin (0 + 0.6 + t) Hpos) as [E3|(r & Hr & E3)]; rewrite E3.
    + assert (E : Qlt_bool 0 (0 + 0.6 + t) = true) by (apply Qlt_bool_iff; lra).
      rewrite E. field. lra.
    + assert (E : Qlt_bool 0 (0 + 0.6 + t + 0.2) = true)
        by (apply Qlt_bool_iff; lra).
      rewrite E, Hr. field. lra.
  - assert (Hpos : 0 < 0 + 0.6) by lra.
    destruct (Hfin (0 + 0.6) Hpos) as [E3|(r & Hr & E3)]; rewrite E3.
    + reflexivity.
    + assert (E : Qlt_bool 0 (0 + 0.6 + 0.2) = true) by reflexivity.
      rewrite E, Hr. reflexivity.
Qed.

Lemma score_one_on_agreement_witness :
  _calculate_match_score rich_signal_data bare_result_data == 1.
Proof.
  apply (score_one_on_agreement rich_signal_data bare_result_data "SOL").
  - repeat split; discriminate.
  - left. reflexivity.
  - left. reflexivity.
Defined.

End ScoreMore.

(** ** More on the matching loop *)

Section MatcherMore.
Local Open Scope Q_scope.

(** A trade with both references, with all that is known of its records. *)
Lemma matched_origin_full (config : Config) (processed_data : list Item.t)
      (x : Trade.t) :
  Origin config processed_data x -> is_matched x ->
  exists signal result sd rd coin s,
    In signal (of_type "signal" processed_data) /\
    In result (of_type "result" processed_data) /\
    Item.data signal = Some sd /\ Item.data result = Some rd /\
    get (Data.coin sd) = Some coin /\ coin <> EmptyString /\
    s = _calculate_match_score sd rd /\ qualifies config s /\ 0 < s /\
    x = matched_trade coin signal sd result rd s.
Proof.
  intros Ho (sp & rp & Hs & Hr).
  destruct Ho as [signal result sd rd coin s H1 H2 H3 H4 H5 H6 H7 H8 H9
                 |signal sd coin H1 H2 H3 H4|result rd coin H1 H2 H3 H4];
    cbn in Hs, Hr; try discriminate.
  exists signal, result, sd, rd, coin, s.
  repeat (split; [assumption|]). reflexivity.
Qed.

(** Under a threshold above 0.7 (the default is 0.8) a signal is never
    matched to a result that carries a different recognised coin: the result
    of every matched trade has the coin of the trade, or no recognised coin
    at all.  Prices are in the range that [detect_prices] lets through. *)
Theorem matched_coins_agree (config : Config) (threshold : Q)
        (processed_data : list Item.t) (trades : list Trade.t) (x : Trade.t) :
  auto_match_threshold config = Some threshold ->
  0.7 < threshold ->
  Forall prices_in_range processed_data ->
  match_signals_to_results config processed_data = Ok trades ->
  In x trades ->
  is_matched x ->
  exists signal result signal_data result_data,
    In signal (of_type "signal" processed_data) /\
    In result (of_type "result" processed_data) /\
    Trade.signal_image x = Some (Item.path signal) /\
    Trade.result_image x = Some (Item.path result) /\
    Item.data signal = Some signal_data /\
    Item.data result = Some result_data /\
    get (Data.coin signal_data) = Some (Trade.coin x) /\
    (get (Data.coin result_data) = Some (Trade.coin x) \/
     truthy_str (get (Data.coin result_data)) = false).
Proof.
  intros Hthr Hhigh Hrange Hrun Hin Hm.
  pose proof (emitted_origin config processed_data trades Hrun) as Hall.
  rewrite Forall_forall in Hall.
  destruct (matched_origin_full config processed_data x (Hall x Hin) Hm)
    as (signal & result & sd & rd & coin & s & H1 & H2 & H3 & H4 & H5 & Hcoin
        & Hs & Hq & _ & ->).
  exists signal, result, sd, rd. cbn.
  repeat (split; [first [assumption|reflexivity]|]).
  destruct (truthy_str (get (Data.coin rd))) eqn:Ht; [left|right; reflexivity].
  destruct (get (Data.coin rd)) as [rc|] eqn:Hrc; [|discriminate].
  destruct (String.eqb coin rc) eqn:E.
  - apply String.eqb_eq in E. congruence.
  - exfalso. apply String.eqb_neq in E.
    assert (Hcap : _calculate_match_score sd rd <= 0.7).
    { apply (score_cap_of_different_coins sd rd coin rc); try assumption.
      - apply truthy_str_inv. exact Ht.
      - apply of_type_In in H1. destruct H1 as [H1 _].
        rewrite Forall_forall in Hrange. specialize (Hrange signal H1).
        unfold prices_in_range in Hrange. rewrite H3 in Hrange. apply Hrange. }
    unfold qualifies in Hq. rewrite Hthr in Hq. rewrite Hs in Hq. lra.
Qed.

Lemma matched_coins_agree_witness :
  exists signal result signal_data result_data,
    In signal (of_type "signal" [sample_signal; sample_result]) /\
    In result (of_type "result" [sample_signal; sample_result]) /\
    Trade.signal_image sample_trade = Some (Item.path signal) /\
    Trade.result_image sample_trade = Some (Item.path result) /\
    Item.data signal = Some signal_data /\
    Item.data result = Some result_data /\
    get (Data.coin signal_data) = Some (Trade.coin sample_trade) /\
    (get (Data.coin result_data) = Some (Trade.coin sample_trade) \/
     truthy_str (get (Data.coin result_data)) = false).
Proof.
  apply (matched_coins_agree _get_default_config 0.8
           [sample_signal; sample_result] [sample_trade] sample_trade).
  - reflexivity.
  - reflexivity.
  - repeat constructor; vm_compute; intuition discriminate.
  - reflexivity.
  - left. reflexivity.
  - exists "signal_btc.png", "result_btc.png". split; reflexivity.
Defined.

Lemma signal_refs_app (a b : list Trade.t) :
  signal_refs (a ++ b) = signal_refs a ++ signal_refs b.
Proof. apply flat_map_app. Qed.

(** A signal adds its path to the signal references when it is usable, and
    nothing otherwise. *)
Lemma process_signal_signal_refs (config : Config) (results : list Item.t)
      (st st' : Matching) (signal : Item.t) :
  process_signal config results st signal = Ok st' ->
  signal_refs (fst st')
  = signal_refs (fst st) ++ (if usable signal then [Item.path signal] else []).
Proof.
  destruct st as [trades used]. unfold process_signal, usable.
  destruct (Item.data signal) as [sd|];
    [|intros H; injection H as <-; cbn; rewrite app_nil_r; reflexivity].
  destruct (get (Data.coin sd)) as [coin|];
    [|intros H; injection H as <-; cbn; rewrite app_nil_r; reflexivity].
  destruct (truthy_str (Some coin)); cbn [negb];
    [|intros H; injection H as <-; cbn; rewrite app_nil_r; reflexivity].
  destruct (scan_results config sd used 0 results (None, 0)) as [best|e];
    [|discriminate].
  cbn [bind]. destruct (fst best) as [i|].
  - destruct (subscript results i) as [result|e]; [|discriminate].
    cbn [bind]. destruct (Item.data result) as [rd|]; [|discriminate].
    intros H. injection H as <-. cbn [fst]. rewrite signal_refs_app. reflexivity.
  - intros H. injection H as <-. cbn [fst]. rewrite signal_refs_app. reflexivity.
Qed.

Lemma process_signals_signal_refs (config : Config) (results : list Item.t)
      (signals : list Item.t) :
  forall st st',
    process_signals config results signals st = Ok st' ->
    signal_refs (fst st')
    = signal_refs (fst st) ++ map Item.path (filter usable signals).
Proof.
  induction signals as [|signal rest IH]; intros st st' Hrun; simpl in Hrun.
  - injection Hrun as <-. cbn. rewrite app_nil_r. reflexivity.
  - destruct (process_signal config results st signal) as [st1|e] eqn:E;
      [|discriminate].
    simpl in Hrun. rewrite (IH st1 st' Hrun).
    rewrite (process_signal_signal_refs config results st st1 signal E).
    rewrite <- app_assoc. f_equal. cbn [filter].
    destruct (usable signal); reflexivity.
Qed.

Lemma unmatched_results_signal_refs (used : list nat) (rest : list Item.t) :
  forall n, signal_refs (unmatched_results used n rest) = [].
Proof.
  induction rest as [|result rest IH]; intros n; cbn [unmatched_results];
    [reflexivity|].
  destruct (in_set n used); [apply IH|].
  destruct (Item.data result) as [rd|]; [|apply IH].
  destruct (get (Data.coin rd)) as [coin|]; [|apply IH].
  destruct (truthy_str (Some coin)); [|apply IH].
  cbn. apply IH.
Qed.

Lemma collect_trades_signal_refs (config : Config) (processed_data : list Item.t)
      (trades : list Trade.t) :
  collect_trades config processed_data = Ok trades ->
  signal_refs trades
  = map Item.path (filter usable (of_type "signal" processed_data)).
Proof.
  unfold collect_trades.
  destruct (process_signals config _ _ ([], [])) as [st|e] eqn:Hrun;
    [|discriminate].
  cbn [bind]. intros H. injection H as <-.
  rewrite signal_refs_app, unmatched_results_signal_refs, app_nil_r.
  rewrite (process_signals_signal_refs config _ _ _ _ Hrun). reflexivity.
Qed.

(** Every signal with data and a recognised coin is in exactly one returned
    trade, matched or alone, and no other signal is in any: the signal
    references of the returned trades are, up to order, the paths of these
    signals.  The one exception is the empty list returned when the [try]
    block raised. *)
Theorem every_signal_once (config : Config) (processed_data : list Item.t)
        (trades : list Trade.t) :
  match_signals_to_results config processed_data = Ok trades ->
  Permutation (signal_refs trades)
              (map Item.path (filter usable (of_type "signal" processed_data)))
  \/ (trades = [] /\ exists e, match_body config processed_data = Raise e).
Proof.
  unfold match_signals_to_results, match_body, try_except.
  destruct (collect_trades config processed_data) as [collected|e] eqn:Hc;
    cbn [bind].
  - destruct (sort_desc collected) as [sorted|e] eqn:Hs; intros H;
      injection H as <-.
    + left. rewrite <- (collect_trades_signal_refs config processed_data collected Hc).
      apply Permutation_flat_map, Permutation_sym, sort_desc_perm. exact Hs.
    + right. split; [reflexivity|]. exists e. reflexivity.
  - intros H. injection H as <-. right. split; [reflexivity|].
    exists e. reflexivity.
Qed.

Lemma every_signal_once_witness :
  Permutation (signal_refs sample_output)
              (map Item.path (filter usable (of_type "signal" sample_batch)))
  \/ (sample_output = [] /\
      exists e, match_body _get_default_config sample_batch = Raise e).
Proof.
  apply (every_signal_once _get_default_config sample_batch sample_output).
  reflexivity.
Defined.

Lemma unmatched_results_covers (used : list nat) (rest : list Item.t) :
  forall n k result,
    nth_error rest k = Some result ->
    in_set (n + k) used = false ->
    usable result = true ->
    In (Item.path result) (result_refs (unmatched_results used n rest)).
Proof.
  induction rest as [|r rest IH]; intros n k result Hk Hused Hus;
    [destruct k; discriminate|].
  cbn [unmatched_results]. destruct k as [|k].
  - cbn in Hk. injection Hk as ->. rewrite Nat.add_0_r in Hused.
    rewrite Hused. unfold usable in Hus.
    destruct (Item.data result) as [rd|]; [|discriminate].
    destruct (get (Data.coin rd)) as [coin|] eqn:Hcoin; [|discriminate].
    rewrite Hus. cbn. left. reflexivity.
  - cbn in Hk.
    assert (Htail : In (Item.path result)
                       (result_refs (unmatched_results used (S n) rest))).
    { apply (IH (S n) k result Hk); [|exact Hus].
      rewrite <- Hused. f_equal. lia. }
    destruct (in_set n used); [exact Htail|].
    destruct (Item.data r) as [rd|]; [|exact Htail].
    destruct (get (Data.coin rd)) as [coin|]; [|exact Htail].
    destruct (truthy_str (Some coin)); [|exact Htail].
    cbn. right. exact Htail.
Qed.

Lemma collect_trades_covers (config : Config) (processed_data : list Item.t)
      (trades : list Trade.t) (result : Item.t) :
  collect_trades config processed_data = Ok trades ->
  In result (of_type "result" processed_data) ->
  usable result = true ->
  In (Item.path result) (result_refs trades).
Proof.
  unfold collect_trades.
  destruct (process_signals config _ _ ([], [])) as [st|e] eqn:Hrun;
    [|discriminate].
  cbn [bind]. intros H Hin Hus. injection H as <-.
  assert (Hc : consumed (of_type "result" processed_data) st).
  { apply (process_signals_ind config
             (consumed (of_type "result" processed_data))
             (of_type "result" processed_data)
             (of_type "signal" processed_data)) with (st := ([], []));
      [| |exact Hrun].
    - intros st0 signal st1 _.
      apply (process_signal_consumed config processed_data).
    - repeat split; constructor. }
  destruct Hc as (_ & _ & Hperm).
  destruct (In_nth_error _ _ Hin) as (i & Hi).
  rewrite result_refs_app. apply in_or_app.
  destruct (in_set i (snd st)) eqn:Hused.
  - left. apply Permutation_in with (map (path_at (of_type "result" processed_data)) (snd st));
      [apply Permutation_sym; exact Hperm|].
    apply in_map_iff. exists i. split.
    + unfold path_at. rewrite Hi. reflexivity.
    + apply in_set_true. exact Hused.
  - right. apply (unmatched_results_covers (snd st) _ 0%nat i result Hi);
      [exact Hused|exact Hus].
Qed.

(** No result with data and a recognised coin is dropped: each is referred
    to by a returned trade, matched or alone.  The one exception is the empty
    list returned when the [try] block raised. *)
Theorem every_result_covered (config : Config) (processed_data : list Item.t)
        (trades : list Trade.t) :
  match_signals_to_results config processed_data = Ok trades ->
  (forall result, In result (of_type "result" processed_data) ->
                  usable result = true ->
                  In (Item.path result) (result_refs trades))
  \/ (trades = [] /\ exists e, match_body config processed_data = Raise e).
Proof.
  unfold match_signals_to_results, match_body, try_except.
  destruct (collect_trades config processed_data) as [collected|e] eqn:Hc;
    cbn [bind].
  - destruct (sort_desc collected) as [sorted|e] eqn:Hs; intros H;
      injection H as <-.
    + left. intros result Hin Hus.
      apply Permutation_in with (result_refs collected).
      * apply Permutation_flat_map, sort_desc_perm. exact Hs.
      * apply (collect_trades_covers config processed_data); assumption.
    + right. split; [reflexivity|]. exists e. reflexivity.
  - intros H. injection H as <-. right. split; [reflexivity|].
    exists e. reflexivity.
Qed.

Lemma every_result_covered_witness :
  (forall result, In result (of_type "result" sample_batch) ->
                  usable result = true ->
                  In (Item.path result) (result_refs sample_output))
  \/ (sample_output = [] /\
      exists e, match_body _get_default_config sample_batch = Raise e).
Proof.
  apply (every_result_covered _get_default_config sample_batch sample_output).
  reflexivity.
Defined.

(** With a configured threshold a signal is processed without exception. *)
Lemma process_signal_returns (config : Config) (threshold : Q)
      (results : list Item.t) (st : Matching) (signal : Item.t) :
  auto_match_threshold config = Some threshold ->
  exists st', process_signal config results st signal = Ok st'.
Proof.
  intros Hthr. destruct st as [trades used]. unfold process_signal.
  destruct (Item.data signal) as [sd|]; [|eauto].
  destruct (get (Data.coin sd)) as [coin|]; [|eauto].
  destruct (truthy_str (Some coin)); cbn [negb]; [|eauto].
  destruct (scan_results_returns config used sd threshold results Hthr 0%nat
              (None, 0)) as (best & Hscan).
  pose proof (scan_results_scanned config results used sd results 0%nat
                (None, 0) best eq_refl (scanned_start config results used sd)
                Hscan) as (_ & _ & Hbest).
  rewrite Hscan. cbn [bind]. destruct (fst best) as [i|]; [|eauto].
  destruct Hbest as (_ & (r & rd & Hr & Hrd & _) & _).
  unfold subscript. rewrite Hr. cbn [bind]. rewrite Hrd. eauto.
Qed.

Lemma collect_trades_returns (config : Config) (threshold : Q)
      (processed_data : list Item.t) :
  auto_match_threshold config = Some threshold ->
  exists collected, collect_trades config processed_data = Ok collected.
Proof.
  intros Hthr. unfold collect_trades.
  assert (Hrun : forall signals st,
             exists st', process_signals config
                           (of_type "result" processed_data) signals st = Ok st').
  { induction signals as [|signal rest IH]; intros st; simpl; [eauto|].
    destruct (process_signal_returns config threshold
                (of_type "result" processed_data) st signal Hthr) as (st1 & ->).
    simpl. apply IH. }
  destruct (Hrun (of_type "signal" processed_data) ([], [])) as (st & ->).
  cbn [bind]. eauto.
Qed.

Lemma lacks_roi_false (l : list Trade.t) :
  lacks_roi l = false <-> (forall x, In x l -> get (Trade.roi x) <> None).
Proof.
  unfold lacks_roi. split.
  - intros H x Hx Hn.
    assert (E : existsb (fun x => match get (Trade.roi x) with
                                  | Some _ => false | None => true end) l = true).
    { apply existsb_exists. exists x. split; [exact Hx|]. rewrite Hn. reflexivity. }
    congruence.
  - intros H. destruct (existsb _ l) eqn:E; [|reflexivity].
    apply existsb_exists in E. destruct E as (x & Hx & E).
    specialize (H x Hx). destruct (get (Trade.roi x)); [discriminate|contradiction].
Qed.

(** What the final sort does to the collected trades, under a configured
    threshold: the collection itself raises nothing; when two or more
    trades are collected and one has no roi, nothing is returned; in every
    other case all collected trades are returned, in descending roi order. *)
Theorem sort_outcome (config : Config) (threshold : Q)
        (processed_data : list Item.t) :
  auto_match_threshold config = Some threshold ->
  exists collected,
    collect_trades config processed_data = Ok collected /\
    if (2 <=? List.length collected)%nat && lacks_roi collected
    then match_signals_to_results config processed_data = Ok []
    else exists trades,
        match_signals_to_results config processed_data = Ok trades /\
        Permutation collected trades /\ Sorted roi_ge trades.
Proof.
  intros Hthr.
  destruct (collect_trades_returns config threshold processed_data Hthr)
    as (collected & Hc).
  exists collected. split; [exact Hc|].
  destruct (2 <=? List.length collected)%nat eqn:Hlen; cbn [andb].
  - destruct (lacks_roi collected) eqn:Hroi.
    + unfold lacks_roi in Hroi. apply existsb_exists in Hroi.
      destruct Hroi as (x & Hx & E).
      apply (missing_roi_returns_nothing config processed_data collected x Hc).
      * apply Nat.leb_le. exact Hlen.
      * exact Hx.
      * destruct (get (Trade.roi x)); [discriminate|reflexivity].
    + apply (all_roi_returned config processed_data collected Hc).
      apply lacks_roi_false. exact Hroi.
  - apply Nat.leb_gt in Hlen.
    unfold match_signals_to_results, match_body, try_except. rewrite Hc.
    cbn [bind].
    destruct collected as [|x [|y rest]]; [| |simpl in Hlen; lia].
    + exists []. repeat split; constructor.
    + exists [x]. repeat split; [apply Permutation_refl|repeat constructor].
Qed.

Lemma sort_outcome_witness :
  exists collected,
    collect_trades _get_default_config mixed_roi_batch = Ok collected /\
    if (2 <=? List.length collected)%nat && lacks_roi collected
    then match_signals_to_results _get_default_config mixed_roi_batch = Ok []
    else exists trades,
        match_signals_to_results _get_default_config mixed_roi_batch = Ok trades /\
        Permutation collected trades /\ Sorted roi_ge trades.
Proof.
  apply (sort_outcome _get_default_config 0.8 mixed_roi_batch).
  reflexivity.
Defined.

Lemma of_type_app (kind : string) (a b : list Item.t) :
  of_type kind (a ++ b) = of_type kind a ++ of_type kind b.
Proof. apply filter_app. Qed.

Lemma of_type_same (kind : string) (l : list Item.t) :
  of_type kind (of_type kind l) = of_type kind l.
Proof.
  unfold of_type. induction l as [|d l IH]; [reflexivity|].
  cbn [filter]. destruct (Item.type d =? kind) eqn:E; [|exact IH].
  cbn [filter]. rewrite E, IH. reflexivity.
Qed.

Lemma of_type_other (kind kind' : string) (l : list Item.t) :
  kind <> kind' -> of_type kind (of_type kind' l) = [].
Proof.
  intros Hne. unfold of_type. induction l as [|d l IH]; [reflexivity|].
  cbn [filter]. destruct (Item.type d =? kind') eqn:E; [|exact IH].
  cbn [filter]. apply String.eqb_eq in E.
  destruct (Item.type d =? kind) eqn:E'; [|exact IH].
  apply String.eqb_eq in E'. congruence.
Qed.

(** Only the order among the signals and the order among the results count:
    records of any other type are ignored, and a batch gives the same trades
    as its signals followed by its results. *)
Theorem batch_order_irrelevant (config : Config) (processed_data : list Item.t) :
  match_signals_to_results config processed_data
  = match_signals_to_results config
      (of_type "signal" processed_data ++ of_type "result" processed_data).
Proof.
  unfold match_signals_to_results, match_body, collect_trades.
  rewrite !of_type_app, !of_type_same.
  rewrite (of_type_other "signal" "result") by discriminate.
  rewrite (of_type_other "result" "signal") by discriminate.
  rewrite app_nil_r. reflexivity.
Qed.

End MatcherMore.

(** ** More on coin detection *)

Section DetectionMore.
Local Open Scope Q_scope.

Lemma accepted_bounds (known_coins : list string) (text_regions : list Region.t)
      (c : string * Q) :
  Accepted known_coins text_regions c -> 0 < snd c ->
  In (fst c) known_coins /\
  exists region,
    In region text_regions /\
    snd c <= Region.confidence region /\
    0.8 * Region.confidence region < snd c.
Proof.
  intros [region coin Hregion Hcoin Hin
         |region token coin Hregion Htoken Hlen Hcoin Hsim] Hpos;
    cbn [fst snd] in *.
  - split; [exact Hcoin|]. exists region. repeat split; [assumption|lra|lra].
  - split; [exact Hcoin|]. exists region.
    pose proof (ratio_bounds token coin) as Hb.
    assert (Hconf : 0 < Region.confidence region).
    { destruct (Qlt_le_dec 0 (Region.confidence region)) as [H|H]; [exact H|].
      exfalso.
      assert (Region.confidence region * Difflib.ratio token coin <= 0).
      { rewrite <- (Qmult_0_l (Difflib.ratio token coin)).
        apply Qmult_le_compat_r; lra. }
      lra. }
    split; [exact Hregion|]. split.
    + rewrite <- (Qmult_1_r (Region.confidence region)) at 2.
      apply Qmult_le_l; lra.
    + rewrite (Qmult_comm 0.8). apply Qmult_lt_l; lra.
Qed.

(** The detection is either empty, [('', 0.0)], or a symbol of the registry
    with a positive confidence that is at most the OCR confidence of one of
    the regions, and more than 0.8 times it. *)
Theorem detect_coin_name_bounds (known_coins : list string)
        (text_regions : list Region.t) :
  let best := detect_coin_name known_coins text_regions in
  best = (EmptyString, 0) \/
  (In (fst best) known_coins /\
   exists region,
     In region text_regions /\
     0 < snd best <= Region.confidence region /\
     0.8 * Region.confidence region < snd best).
Proof.
  intros best. unfold best. rewrite detect_coin_name_candidates.
  destruct (keep_better_fold
              (flat_map (region_candidates known_coins) text_regions)
              (EmptyString, 0)) as (_ & _ & [Heq|[Hin Hlt]]).
  - left. exact Heq.
  - right. cbn [snd] in Hlt.
    apply candidates_accepted in Hin.
    destruct (accepted_bounds known_coins text_regions _ Hin Hlt)
      as (Hcoin & region & Hregion & Hle & Hgt).
    split; [exact Hcoin|]. exists region. repeat split; assumption.
Qed.

(** A registry symbol contained in the upper-cased text of a region of
    positive confidence is never missed: a symbol of the registry is detected,
    with at least the confidence of that region. *)
Theorem exact_hit_detected (known_coins : list string)
        (text_regions : list Region.t) (region : Region.t) (coin : string) :
  In region text_regions ->
  In coin known_coins ->
  contains (upper (Region.text region)) coin = true ->
  0 < Region.confidence region ->
  In (fst (detect_coin_name known_coins text_regions)) known_coins /\
  Region.confidence region <= snd (detect_coin_name known_coins text_regions).
Proof.
  intros Hregion Hcoin Hin Hpos.
  rewrite detect_coin_name_candidates.
  destruct (keep_better_fold
              (flat_map (region_candidates known_coins) text_regions)
              (EmptyString, 0)) as (_ & Hall & Hres).
  assert (Hge : Region.confidence region
                <= snd (fold_left keep_better
                          (flat_map (region_candidates known_coins) text_regions)
                          (EmptyString, 0))).
  { apply (Hall (coin, Region.confidence region)).
    apply candidates_accepted. apply exact_hit; assumption. }
  split; [|exact Hge].
  destruct Hres as [Heq|[Hbest Hlt]].
  - rewrite Heq in Hge. cbn [snd] in Hge. lra.
  - apply candidates_accepted in Hbest. cbn [snd] in Hlt.
    apply (accepted_bounds known_coins text_regions _ Hbest Hlt).
Qed.

Lemma exact_hit_detected_witness :
  In (fst (detect_coin_name default_coins [pair_region])) default_coins /\
  Region.confidence pair_region <= snd (detect_coin_name default_coins [pair_region]).
Proof.
  apply (exact_hit_detected default_coins [pair_region] pair_region "BTC").
  - left. reflexivity.
  - left. reflexivity.
  - reflexivity.
  - reflexivity.
Defined.

End DetectionMore.

(** ** Number tokens *)

Section TokenFacts.
Import Pattern.

Lemma findall_from_In (here : list ascii -> option nat) (s : list ascii) :
  forall skip token,
    In token (findall_from here skip s) ->
    exists s' k, here s' = Some k /\ token = string_of_list_ascii (firstn k s').
Proof.
  induction s as [|c s IH]; intros skip token Hin; [contradiction|].
  cbn [findall_from] in Hin. destruct skip as [|n]; [|eapply IH; exact Hin].
  destruct (here (c :: s)) as [k|] eqn:E; [|eapply IH; exact Hin].
  destruct Hin as [<-|Hin]; [|eapply IH; exact Hin].
  exists (c :: s), k. split; [exact E|reflexivity].
Qed.

Lemma digit_run_le (s : list ascii) : (digit_run s <= List.length s)%nat.
Proof.
  induction s as [|c s IH]; simpl; [lia|]. destruct (is_digit c); simpl; lia.
Qed.

Lemma digit_run_firstn (s : list ascii) :
  Forall (fun c => is_digit c = true) (firstn (digit_run s) s).
Proof.
  induction s as [|c s IH]; simpl; [constructor|].
  destruct (is_digit c) eqn:E; simpl; [|constructor].
  constructor; assumption.
Qed.

Lemma digit_run_stops (s : list ascii) (c : ascii) (rest : list ascii) :
  skipn (digit_run s) s = c :: rest -> is_digit c = false.
Proof.
  induction s as [|d s IH]; simpl; [discriminate|].
  destruct (is_digit d) eqn:E; simpl.
  - exact IH.
  - intros H. injection H as <- _. exact E.
Qed.

Lemma digit_run_all (ds : list ascii) :
  Forall (fun c => is_digit c = true) ds -> digit_run ds = List.length ds.
Proof.
  induction 1 as [|c ds Hc _ IH]; simpl; [reflexivity|].
  rewrite Hc, IH. reflexivity.
Qed.

Lemma digit_run_app (ds tail : list ascii) :
  Forall (fun c => is_digit c = true) ds ->
  digit_run tail = 0%nat ->
  digit_run (ds ++ tail) = List.length ds.
Proof.
  induction 1 as [|c ds Hc _ IH]; intros Htail; simpl; [exact Htail|].
  rewrite Hc, IH by exact Htail. reflexivity.
Qed.

Lemma firstn_app_skipn_head (n m : nat) (s : list ascii) (c : ascii)
      (rest : list ascii) :
  skipn n s = c :: rest ->
  firstn (n + 1 + m) s = firstn n s ++ c :: firstn m rest.
Proof.
  intros H. rewrite <- (firstn_skipn n s) at 1. rewrite H.
  assert (Hlen : List.length (firstn n s) = n).
  { rewrite length_firstn. apply Nat.min_l.
    destruct (Nat.le_gt_cases n (List.length s)) as [Hle|Hgt]; [exact Hle|].
    rewrite skipn_all2 in H by lia. discriminate. }
  rewrite firstn_app, Hlen.
  rewrite firstn_all2 by lia.
  replace (n + 1 + m - n)%nat with (S m) by lia. reflexivity.
Qed.

(** What [\d+\.?\d*] matches is a plain decimal. *)
Lemma number_here_shape (s : list ascii) (k : nat) :
  number_here s = Some k -> plain_decimal (firstn k s).
Proof.
  unfold number_here. destruct (digit_run s =? 0)%nat eqn:E; [discriminate|].
  apply Nat.eqb_neq in E.
  assert (Hne : firstn (digit_run s) s <> []).
  { intros H. apply (f_equal (@List.length ascii)) in H.
    rewrite length_firstn in H. pose proof (digit_run_le s). simpl in H. lia. }
  destruct (skipn (digit_run s) s) as [|c rest] eqn:Hskip.
  - intros H. injection H as <-.
    exists (firstn (digit_run s) s), []. repeat split; try assumption.
    + apply digit_run_firstn.
    + constructor.
    + left. reflexivity.
  - destruct (Ascii.eqb c ".") eqn:Hc.
    + apply Ascii.eqb_eq in Hc. subst c. intros H. injection H as <-.
      exists (firstn (digit_run s) s), (firstn (digit_run rest) rest).
      repeat split; try assumption.
      * apply digit_run_firstn.
      * apply digit_run_firstn.
      * right. apply firstn_app_skipn_head. exact Hskip.
    + intros H. injection H as <-.
      exists (firstn (digit_run s) s), []. repeat split; try assumption.
      * apply digit_run_firstn.
      * constructor.
      * left. reflexivity.
Qed.

End TokenFacts.

Section FloatFacts.
Import Pattern.
Local Open Scope char_scope.

Local Ltac by_cases c :=
  destruct c as [[|] [|] [|] [|] [|] [|] [|] [|]]; vm_compute;
  first [reflexivity | discriminate | intuition discriminate].

Lemma plain_char_not_space (c : ascii) :
  plain_char c = true -> Str.is_space c = false.
Proof. by_cases c. Qed.

Lemma plain_char_not_symbol (c : ascii) :
  plain_char c = true ->
  Ascii.eqb c "$" = false /\ Ascii.eqb c "%" = false /\
  Ascii.eqb c "+" = false /\ Ascii.eqb c "-" = false.
Proof. by_cases c. Qed.

Lemma digit_is_plain (c : ascii) : is_digit c = true -> plain_char c = true.
Proof. unfold plain_char. intros ->. reflexivity. Qed.

Lemma plain_decimal_chars (l : list ascii) :
  plain_decimal l ->
  Forall (fun c => plain_char c = true) l /\
  exists c rest, l = c :: rest /\ is_digit c = true.
Proof.
  intros (ds & fs & Hne & Hds & Hfs & Hl).
  assert (Hpd : Forall (fun c => plain_char c = true) ds).
  { eapply Forall_impl; [|exact Hds]. intros c. apply digit_is_plain. }
  assert (Hpf : Forall (fun c => plain_char c = true) fs).
  { eapply Forall_impl; [|exact Hfs]. intros c. apply digit_is_plain. }
  destruct ds as [|d ds]; [contradiction|].
  assert (Hd : is_digit d = true) by (inversion Hds; assumption).
  destruct Hl as [->| ->].
  - split; [exact Hpd|]. exists d, ds. split; [reflexivity|exact Hd].
  - split.
    + apply Forall_app. split; [exact Hpd|]. constructor; [reflexivity|exact Hpf].
    + exists d, (ds ++ "." :: fs). split; [reflexivity|exact Hd].
Qed.

Lemma digits_value_nonneg (s : list ascii) :
  forall acc, (0 <= acc)%Z -> (0 <= Str.digits_value acc s)%Z.
Proof.
  induction s as [|c s IH]; intros acc H; simpl; [exact H|].
  apply IH. unfold Str.digit_value. lia.
Qed.

(** A plain decimal is read as a number that is not negative. *)
Lemma unsigned_decimal_plain (l : list ascii) :
  plain_decimal l -> exists v, Str.unsigned_decimal l = Some v /\ (0 <= v)%Q.
Proof.
  intros (ds & fs & Hne & Hds & Hfs & Hl).
  assert (Hlen : List.length ds <> 0%nat) by (destruct ds; [contradiction|discriminate]).
  unfold Str.unsigned_decimal. destruct Hl as [->| ->].
  - rewrite (digit_run_all ds Hds), skipn_all.
    apply Nat.eqb_neq in Hlen. rewrite Hlen.
    eexists. split; [reflexivity|].
    change 0%Q with (inject_Z 0). rewrite <- Zle_Qle.
    apply digits_value_nonneg. lia.
  - rewrite (digit_run_app ds ("." :: fs) Hds eq_refl).
    rewrite skipn_app, skipn_all, Nat.sub_diag. cbn [app skipn].
    rewrite (digit_run_all fs Hfs), Nat.eqb_refl.
    apply Nat.eqb_neq in Hlen. rewrite Hlen. cbn [andb negb Ascii.eqb].
    replace (Ascii.eqb "." ".") with true by reflexivity. cbn [andb].
    eexists. split; [reflexivity|].
    apply Qle_shift_div_l.
    + change 0%Q with (inject_Z 0). rewrite <- Zlt_Qlt.
      apply Z.pow_pos_nonneg; lia.
    + rewrite Qmult_0_l. change 0%Q with (inject_Z 0). rewrite <- Zle_Qle.
      apply digits_value_nonneg. lia.
Qed.

Lemma lstrip_no_space (l : list ascii) :
  Forall (fun c => Str.is_space c = false) l -> Str.lstrip l = l.
Proof.
  intros H. destruct H as [|c l Hc _]; simpl; [reflexivity|].
  rewrite Hc. reflexivity.
Qed.

Lemma strip_no_space (l : list ascii) :
  Forall (fun c => Str.is_space c = false) l ->
  Str.strip (string_of_list_ascii l) = string_of_list_ascii l.
Proof.
  intros H. unfold Str.strip. rewrite list_ascii_of_string_of_list_ascii.
  rewrite (lstrip_no_space l H).
  rewrite (lstrip_no_space (rev l)) by (apply Forall_rev; exact H).
  rewrite rev_involutive. reflexivity.
Qed.

Lemma remove_absent (c : ascii) (l : list ascii) :
  Forall (fun x => Ascii.eqb x c = false) l ->
  filter (fun x => negb (Ascii.eqb x c)) l = l.
Proof.
  induction 1 as [|x l Hx _ IH]; simpl; [reflexivity|].
  rewrite Hx, IH. reflexivity.
Qed.

Lemma plain_no_space (l : list ascii) :
  Forall (fun c => plain_char c = true) l ->
  Forall (fun c => Str.is_space c = false) l.
Proof.
  intros H. eapply Forall_impl; [|exact H].
  intros c. apply plain_char_not_space.
Qed.

(** [float] reads a plain decimal, and its negation after a minus sign. *)
Lemma float_plain (l : list ascii) :
  plain_decimal l ->
  exists v, Str.float (string_of_list_ascii l) = Some v /\ (0 <= v)%Q /\
            Str.float (string_of_list_ascii ("-" :: l)) = Some (- v)%Q.
Proof.
  intros Hl. destruct (unsigned_decimal_plain l Hl) as (v & Hv & Hpos).
  destruct (plain_decimal_chars l Hl) as (_ & c & rest & -> & Hc).
  exists v. unfold Str.float.
  rewrite !list_ascii_of_string_of_list_ascii.
  assert (Hsym : Ascii.eqb c "-" = false /\ Ascii.eqb c "+" = false).
  { destruct (plain_char_not_symbol c (digit_is_plain c Hc)) as (_ & _ & H1 & H2).
    split; assumption. }
  destruct Hsym as [-> ->]. split; [exact Hv|]. split; [exact Hpos|].
  replace (Ascii.eqb "-" "-") with true by reflexivity.
  rewrite Hv. reflexivity.
Qed.

End FloatFacts.

(** ** [detect_prices] and [detect_roi] *)

Section NumberDetection.
Import Pattern.
Local Open Scope Q_scope.

Lemma remove_list (c : ascii) (l : list ascii) :
  Str.remove c (string_of_list_ascii l)
  = string_of_list_ascii (filter (fun x => negb (Ascii.eqb x c)) l).
Proof.
  unfold Str.remove. rewrite list_ascii_of_string_of_list_ascii. reflexivity.
Qed.

Lemma plain_without (c : ascii) (l : list ascii) :
  plain_char c = false ->
  Forall (fun x => plain_char x = true) l ->
  filter (fun x => negb (Ascii.eqb x c)) l = l.
Proof.
  intros Hc H. apply remove_absent.
  eapply Forall_impl; [|exact H]. cbn. intros x Hx.
  destruct (Ascii.eqb x c) eqn:E; [|reflexivity].
  apply Ascii.eqb_eq in E. congruence.
Qed.

(** A price token, cleaned of [$] and blanks, is a plain decimal. *)
Lemma price_token_clean (s : list ascii) (k : nat) :
  price_here s = Some k ->
  exists l, plain_decimal l /\
            Str.strip (Str.remove "$" (string_of_list_ascii (firstn k s)))
            = string_of_list_ascii l.
Proof.
  unfold price_here. destruct s as [|c rest]; [discriminate|].
  assert (Hplain : forall s' k', number_here s' = Some k' ->
            Str.strip (Str.remove "$" (string_of_list_ascii (firstn k' s')))
            = string_of_list_ascii (firstn k' s')).
  { intros s' k' H. apply number_here_shape in H.
    destruct (plain_decimal_chars _ H) as (Hch & _).
    rewrite remove_list, (plain_without "$" _ eq_refl Hch).
    apply strip_no_space, plain_no_space, Hch. }
  destruct (Ascii.eqb c "$") eqn:Hc.
  - apply Ascii.eqb_eq in Hc. subst c.
    destruct (number_here rest) as [k'|] eqn:E; [|discriminate].
    intros H. injection H as <-.
    exists (firstn k' rest). split; [apply number_here_shape; exact E|].
    rewrite <- (Hplain rest k' E).
    rewrite !remove_list. cbn [firstn filter]. reflexivity.
  - intros H. exists (firstn k (c :: rest)).
    split; [apply number_here_shape; exact H|]. apply Hplain. exact H.
Qed.

(** Every token that the price pattern finds is read by [float], as a number
    that is not negative: the [except ValueError] branch of [detect_prices]
    is never taken, and a token is left out only when its value is outside
    [0.000001, 1000000]. *)
Theorem price_tokens_parse (region : Region.t) (token : string) :
  In token (findall price_here (Region.text region)) ->
  exists price,
    Str.float (Str.strip (Str.remove "$" token)) = Some price /\
    0 <= price /\
    price_of_token region token
    = if Qle_bool 0.000001 price && Qle_bool price 1000000
      then [(price, Region.confidence region)] else [].
Proof.
  intros Hin. apply findall_from_In in Hin. destruct Hin as (s & k & Hk & ->).
  destruct (price_token_clean s k Hk) as (l & Hl & Hclean).
  destruct (float_plain l Hl) as (v & Hv & Hpos & _).
  exists v. unfold price_of_token. rewrite Hclean, Hv.
  repeat split. exact Hpos.
Qed.

Lemma price_tokens_parse_witness :
  exists price,
    Str.float (Str.strip (Str.remove "$" "$0.25")) = Some price /\
    0 <= price /\
    price_of_token {| Region.text := price_text; Region.confidence := 0.9 |} "$0.25"
    = if Qle_bool 0.000001 price && Qle_bool price 1000000
      then [(price, 0.9)] else [].
Proof.
  apply (price_tokens_parse
           {| Region.text := price_text; Region.confidence := 0.9 |} "$0.25").
  vm_compute. left. reflexivity.
Defined.

(** What [detect_prices] returns: values in range, each with the confidence
    of a region. *)
Lemma detect_prices_sound (text_regions : list Region.t) (p : Q * Q) :
  In p (detect_prices text_regions) ->
  0.000001 <= fst p <= 1000000 /\
  exists region, In region text_regions /\ snd p = Region.confidence region.
Proof.
  unfold detect_prices. rewrite in_flat_map.
  intros (region & Hregion & Hp). apply in_flat_map in Hp.
  destruct Hp as (token & _ & Hp). unfold price_of_token in Hp.
  destruct (Str.float _) as [price|]; [|contradiction].
  destruct (Qle_bool 0.000001 price) eqn:E1; [|contradiction].
  destruct (Qle_bool price 1000000) eqn:E2; [|contradiction].
  destruct Hp as [<-|[]]. cbn [fst snd].
  apply Qle_bool_iff in E1, E2. split; [split; assumption|].
  exists region. split; [exact Hregion|reflexivity].
Qed.

Lemma firstn_succ_skipn (m : nat) (s : list ascii) (c : ascii)
      (rest : list ascii) :
  skipn m s = c :: rest -> firstn (m + 1) s = firstn m s ++ [c].
Proof.
  intros H. replace (m + 1)%nat with (m + 1 + 0)%nat by lia.
  rewrite (firstn_app_skipn_head m 0 s c rest H). reflexivity.
Qed.

(** What [\d+\.?\d*%] matches is a plain decimal and the [%]. *)
Lemma percent_number_shape (s : list ascii) (k : nat) :
  percent_number_here s = Some k ->
  exists l, plain_decimal l /\ firstn k s = l ++ ["%"%char].
Proof.
  unfold percent_number_here.
  destruct (digit_run s =? 0)%nat eqn:E; [discriminate|].
  apply Nat.eqb_neq in E.
  assert (Hne : firstn (digit_run s) s <> []).
  { intros H. apply (f_equal (@List.length ascii)) in H.
    rewrite length_firstn in H. pose proof (digit_run_le s). simpl in H. lia. }
  destruct (skipn (digit_run s) s) as [|c rest] eqn:Hskip; [discriminate|].
  destruct (Ascii.eqb c "%") eqn:Hc.
  - apply Ascii.eqb_eq in Hc. subst c. intros H. injection H as <-.
    exists (firstn (digit_run s) s). split.
    + exists (firstn (digit_run s) s), []. repeat split; try assumption.
      * apply digit_run_firstn.
      * constructor.
      * left. reflexivity.
    + apply (firstn_succ_skipn _ _ _ rest). exact Hskip.
  - destruct (Ascii.eqb c ".") eqn:Hd; [|discriminate].
    apply Ascii.eqb_eq in Hd. subst c.
    destruct (skipn (digit_run rest) rest) as [|c' rest'] eqn:Hskip';
      [discriminate|].
    destruct (Ascii.eqb c' "%") eqn:Hc'; [|discriminate].
    apply Ascii.eqb_eq in Hc'. subst c'. intros H. injection H as <-.
    exists (firstn (digit_run s) s ++ "."%char :: firstn (digit_run rest) rest).
    split.
    + exists (firstn (digit_run s) s), (firstn (digit_run rest) rest).
      repeat split; try assumption.
      * apply digit_run_firstn.
      * apply digit_run_firstn.
      * right. reflexivity.
    + replace (digit_run s + 1 + digit_run rest + 1)%nat
        with (digit_run s + 1 + (digit_run rest + 1))%nat by lia.
      rewrite (firstn_app_skipn_head _ _ s "."%char rest Hskip).
      rewrite (firstn_succ_skipn _ rest "%"%char rest' Hskip').
      rewrite <- app_assoc. reflexivity.
Qed.

Lemma filter_app_last (c : ascii) (l : list ascii) :
  plain_char c = false ->
  Forall (fun x => plain_char x = true) l ->
  filter (fun x => negb (Ascii.eqb x c)) (l ++ [c]) = l.
Proof.
  intros Hc Hl. rewrite filter_app, (plain_without c l Hc Hl).
  cbn [filter]. rewrite Ascii.eqb_refl. cbn [negb]. apply app_nil_r.
Qed.

(** A percentage token, cleaned of [%], [+] and blanks, is a plain decimal
    or a minus sign and a plain decimal. *)
Lemma roi_token_clean (s : list ascii) (k : nat) :
  percentage_here s = Some k ->
  exists l, plain_decimal l /\
    let cleaned :=
      Str.strip (Str.remove "+"
                   (Str.remove "%" (string_of_list_ascii (firstn k s)))) in
    cleaned = string_of_list_ascii l \/
    cleaned = string_of_list_ascii ("-"%char :: l).
Proof.
  unfold percentage_here. destruct s as [|c rest]; [discriminate|].
  assert (Hplain : forall l, plain_decimal l ->
            Str.strip (Str.remove "+" (Str.remove "%" (string_of_list_ascii (l ++ ["%"%char]))))
            = string_of_list_ascii l).
  { intros l Hl. destruct (plain_decimal_chars _ Hl) as (Hch & _).
    rewrite remove_list, (filter_app_last "%" l eq_refl Hch).
    rewrite remove_list, (plain_without "+" l eq_refl Hch).
    apply strip_no_space, plain_no_space, Hch. }
  destruct (Ascii.eqb c "+" || Ascii.eqb c "-") eqn:Hsign.
  - destruct (percent_number_here rest) as [k'|] eqn:E; [|discriminate].
    intros H. injection H as <-.
    destruct (percent_number_shape rest k' E) as (l & Hl & Hfirst).
    exists l. split; [exact Hl|]. cbn zeta.
    destruct (plain_decimal_chars _ Hl) as (Hch & _).
    cbn [firstn]. rewrite Hfirst.
    apply orb_true_iff in Hsign. destruct Hsign as [Hc|Hc];
      apply Ascii.eqb_eq in Hc; subst c.
    + left. rewrite !remove_list.
      replace (filter (fun x => negb (Ascii.eqb x "%")) ("+"%char :: l ++ ["%"%char]))
        with ("+"%char :: l)
        by (cbn [filter]; replace (Ascii.eqb "+" "%") with false by reflexivity;
            cbn [negb]; rewrite (filter_app_last "%" l eq_refl Hch); reflexivity).
      replace (filter (fun x => negb (Ascii.eqb x "+")) ("+"%char :: l))
        with l
        by (cbn [filter]; rewrite Ascii.eqb_refl; cbn [negb];
            rewrite (plain_without "+" l eq_refl Hch); reflexivity).
      apply strip_no_space, plain_no_space, Hch.
    + right. rewrite !remove_list.
      replace (filter (fun x => negb (Ascii.eqb x "%")) ("-"%char :: l ++ ["%"%char]))
        with ("-"%char :: l)
        by (cbn [filter]; replace (Ascii.eqb "-" "%") with false by reflexivity;
            cbn [negb]; rewrite (filter_app_last "%" l eq_refl Hch); reflexivity).
      replace (filter (fun x => negb (Ascii.eqb x "+")) ("-"%char :: l))
        with ("-"%char :: l)
        by (cbn [filter]; replace (Ascii.eqb "-" "+") with false by reflexivity;
            cbn [negb]; rewrite (plain_without "+" l eq_refl Hch); reflexivity).
      apply strip_no_space. constructor; [reflexivity|].
      apply plain_no_space, Hch.
  - intros H. destruct (percent_number_shape _ k H) as (l & Hl & Hfirst).
    exists l. split; [exact Hl|]. cbn zeta. left. rewrite Hfirst.
    apply Hplain. exact Hl.
Qed.

(** Every token that the percentage pattern finds is read by [float]: the
    [except ValueError] branch of [detect_roi] is never taken, and a token is
    left out only when its value is outside [-100, 10000]. *)
Theorem roi_tokens_parse (region : Region.t) (token : string) :
  In token (findall percentage_here (Region.text region)) ->
  exists roi,
    Str.float (Str.strip (Str.remove "+" (Str.remove "%" token))) = Some roi /\
    roi_of_token region token
    = if Qle_bool (-100) roi && Qle_bool roi 10000
      then [(roi, Region.confidence region)] else [].
Proof.
  intros Hin. apply findall_from_In in Hin. destruct Hin as (s & k & Hk & ->).
  destruct (roi_token_clean s k Hk) as (l & Hl & Hclean). cbn zeta in Hclean.
  destruct (float_plain l Hl) as (v & Hv & _ & Hneg).
  unfold roi_of_token.
  destruct Hclean as [-> | ->].
  - exists v. rewrite Hv. split; reflexivity.
  - exists (- v). rewrite Hneg. split; reflexivity.
Qed.

Lemma roi_tokens_parse_witness :
  exists roi,
    Str.float (Str.strip (Str.remove "+" (Str.remove "%" "-12.5%"))) = Some roi /\
    roi_of_token roi_region "-12.5%"
    = if Qle_bool (-100) roi && Qle_bool roi 10000
      then [(roi, Region.confidence roi_region)] else [].
Proof.
  apply (roi_tokens_parse roi_region "-12.5%").
  vm_compute. left. reflexivity.
Defined.

Lemma roi_values_sound (text_regions : list Region.t) (p : Q * Q) :
  In p (roi_values text_regions) ->
  -100 <= fst p <= 10000 /\
  exists region, In region text_regions /\ snd p = Region.confidence region.
Proof.
  unfold roi_values. rewrite in_flat_map.
  intros (region & Hregion & Hp). apply in_flat_map in Hp.
  destruct Hp as (token & _ & Hp). unfold roi_of_token in Hp.
  destruct (Str.float _) as [roi|]; [|contradiction].
  destruct (Qle_bool (-100) roi) eqn:E1; [|contradiction].
  destruct (Qle_bool roi 10000) eqn:E2; [|contradiction].
  destruct Hp as [<-|[]]. cbn [fst snd].
  apply Qle_bool_iff in E1, E2. split; [split; assumption|].
  exists region. split; [exact Hregion|reflexivity].
Qed.

Lemma max_by_confidence_spec (rest : list (Q * Q)) :
  forall best,
    In (max_by_confidence best rest) (best :: rest) /\
    (forall p, In p (best :: rest) -> snd p <= snd (max_by_confidence best rest)).
Proof.
  induction rest as [|x rest IH]; intros best; cbn [max_by_confidence].
  - split; [left; reflexivity|]. intros p [<-|[]]. lra.
  - destruct (IH (if Qlt_bool (snd best) (snd x) then x else best))
      as (Hin & Hmax).
    destruct (Qlt_bool (snd best) (snd x)) eqn:E.
    + apply Qlt_bool_iff in E. split.
      * right. exact Hin.
      * intros p [<-|Hp].
        -- assert (snd x <= snd (max_by_confidence x rest))
             by (apply Hmax; left; reflexivity). lra.
        -- apply Hmax. exact Hp.
    + apply Qlt_bool_false in E. split.
      * destruct Hin as [<-|Hin]; [left; reflexivity|right; right; exact Hin].
      * intros p [<-|[<-|Hp]].
        -- apply Hmax. left. reflexivity.
        -- assert (snd best <= snd (max_by_confidence best rest))
             by (apply Hmax; left; reflexivity). lra.
        -- apply Hmax. right. exact Hp.
Qed.

(** [detect_roi] returns the colour status as it is, and with it either
    [None], exactly when no percentage token has a value in [-100, 10000], or
    such a value, taken from a region whose OCR confidence no other such
    token exceeds. *)
Theorem detect_roi_spec (text_regions : list Region.t) (color_status : string) :
  snd (detect_roi text_regions color_status) = color_status /\
  match fst (detect_roi text_regions color_status) with
  | Some roi =>
      -100 <= roi <= 10000 /\
      exists confidence,
        In (roi, confidence) (roi_values text_regions) /\
        forall p, In p (roi_values text_regions) -> snd p <= confidence
  | None => roi_values text_regions = []
  end.
Proof.
  unfold detect_roi.
  destruct (roi_values text_regions) as [|first rest] eqn:E;
    [split; reflexivity|].
  cbn [fst snd]. split; [reflexivity|].
  destruct (max_by_confidence_spec rest first) as (Hin & Hmax).
  assert (Hsound : In (max_by_confidence first rest) (roi_values text_regions))
    by (rewrite E; exact Hin).
  destruct (roi_values_sound _ _ Hsound) as (Hrange & _).
  split; [exact Hrange|].
  exists (snd (max_by_confidence first rest)). split; [|exact Hmax].
  destruct (max_by_confidence first rest). exact Hin.
Qed.

End NumberDetection.

(** ** Colour status and text regions *)

Section StatusAndRegions.
Local Open Scope Q_scope.

Lemma half_more (a b : Z) :
  Qlt_bool (inject_Z a * 1.5) (inject_Z b) = true <-> (3 * a < 2 * b)%Z.
Proof.
  rewrite Qlt_bool_iff. unfold Qlt, Qmult, inject_Z. cbn [Qnum Qden].
  change (Z.pos (1 * 10)) with 10%Z. lia.
Qed.

(** The colour decision on two pixel counts: "win" exactly when green is
    more than one and a half times red, "loss" exactly when red is more than
    one and a half times green, "neutral" in between; the two tests exclude
    each other, so their order does not matter; "unknown" is returned only
    when the colour analysis raised. *)
Theorem color_status_decision (green_pixels red_pixels : Z) :
  (0 <= green_pixels)%Z -> (0 <= red_pixels)%Z ->
  let status := _detect_color_status (Ok (green_pixels, red_pixels)) in
  (status = "win" <-> (3 * red_pixels < 2 * green_pixels)%Z) /\
  (status = "loss" <-> (3 * green_pixels < 2 * red_pixels)%Z) /\
  (status = "neutral" <->
   (2 * green_pixels <= 3 * red_pixels /\ 2 * red_pixels <= 3 * green_pixels)%Z) /\
  status <> "unknown".
Proof.
  intros Hg Hr status. unfold status, _detect_color_status, status_of_counts.
  destruct (Qlt_bool (inject_Z red_pixels * 1.5) (inject_Z green_pixels)) eqn:E1.
  - apply half_more in E1.
    repeat split; intros; try congruence; try lia.
  - assert (N1 : ~ (3 * red_pixels < 2 * green_pixels)%Z).
    { intros H. apply half_more in H. congruence. }
    destruct (Qlt_bool (inject_Z green_pixels * 1.5) (inject_Z red_pixels)) eqn:E2.
    + apply half_more in E2.
      repeat split; intros; try congruence; try lia.
    + assert (N2 : ~ (3 * green_pixels < 2 * red_pixels)%Z).
      { intros H. apply half_more in H. congruence. }
      repeat split; intros; try congruence; try lia.
Qed.

Lemma color_status_decision_witness :
  let status := _detect_color_status (Ok (300, 200)%Z) in
  (status = "win" <-> (3 * 200 < 2 * 300)%Z) /\
  (status = "loss" <-> (3 * 300 < 2 * 200)%Z) /\
  (status = "neutral" <-> (2 * 300 <= 3 * 200 /\ 2 * 200 <= 3 * 300)%Z) /\
  status <> "unknown".
Proof.
  apply (color_status_decision 300 200); lia.
Defined.



End StatusAndRegions.

(** ** [analyze_image] *)

Section AnalyzeFacts.
Local Open Scope Q_scope.
Variable known_coins : list string.

(** The parts of a successful analysis. *)
Lemma analyze_image_parts (text_regions : option (list Region.t))
      (color_status : string) (now : Z) (analysis : Analysis.t) :
  analyze_image known_coins text_regions color_status now = Some analysis ->
  exists regions,
    text_regions = Some regions /\ regions <> [] /\
    let prices := detect_prices regions in
    Analysis.prices analysis = prices /\
    Analysis.coin_confidence analysis
    = snd (detect_coin_name known_coins regions) /\
    Analysis.overall_confidence analysis
    = sum (Analysis.coin_confidence analysis :: map snd prices)
      / inject_Z (Z.of_nat (List.length
                              (Analysis.coin_confidence analysis :: map snd prices))) /\
    Analysis.data analysis
    = {| Data.coin := Val (fst (detect_coin_name known_coins regions));
         Data.entry_price := match prices with
                             | first :: _ => Val (fst first)
                             | [] => Missing
                             end;
         Data.exit_price := match prices with
                            | _ :: second :: _ => Val (fst second)
                            | _ => Missing
                            end;
         Data.roi := bound (fst (detect_roi regions color_status));
         Data.status := Val (snd (detect_roi regions color_status));
         Data.timestamp := Val (Iso false now) |}.
Proof.
  unfold analyze_image.
  destruct text_regions as [[|region rest]|]; try discriminate.
  destruct (detect_coin_name known_coins (region :: rest)) as [coin conf] eqn:Ec.
  destruct (detect_roi (region :: rest) color_status) as [roi status] eqn:Er.
  intros H. injection H as <-. exists (region :: rest).
  split; [reflexivity|]. split; [discriminate|].
  cbn zeta. rewrite Ec, Er.
  repeat (split; [reflexivity|]). reflexivity.
Qed.

Lemma detect_roi_range (regions : list Region.t) (color_status : string)
      (roi : Q) :
  fst (detect_roi regions color_status) = Some roi -> -100 <= roi <= 10000.
Proof.
  unfold detect_roi.
  destruct (roi_values regions) as [|first rest] eqn:E; [discriminate|].
  cbn [fst]. intros H. injection H as <-.
  destruct (max_by_confidence_spec rest first) as (Hin & _).
  rewrite <- E in Hin. apply (roi_values_sound _ _ Hin).
Qed.

Lemma analysis_prices_in_range (text_regions : option (list Region.t))
      (color_status : string) (now : Z) (analysis : Analysis.t) :
  analyze_image known_coins text_regions color_status now = Some analysis ->
  price_in_range (Data.entry_price (Analysis.data analysis)) /\
  price_in_range (Data.exit_price (Analysis.data analysis)).
Proof.
  intros H. destruct (analyze_image_parts _ _ _ _ H)
    as (regions & _ & _ & _ & _ & _ & ->).
  unfold price_in_range. cbn [Data.entry_price Data.exit_price].
  assert (Hs : forall p, In p (detect_prices regions) ->
                         0.000001 <= fst p <= 1000000).
  { intros p Hp. apply (detect_prices_sound regions p Hp). }
  destruct (detect_prices regions) as [|first [|second rest]]; cbn [get].
  - split; exact I.
  - split; [apply Hs; left; reflexivity|exact I].
  - split; apply Hs; [left|right; left]; reflexivity.
Qed.

Lemma analysis_roi_bound (text_regions : option (list Region.t))
      (color_status : string) (now : Z) (analysis : Analysis.t) :
  analyze_image known_coins text_regions color_status now = Some analysis ->
  Data.roi (Analysis.data analysis)
  = bound (get (Data.roi (Analysis.data analysis))).
Proof.
  intros H. destruct (analyze_image_parts _ _ _ _ H)
    as (regions & _ & _ & _ & _ & _ & ->).
  cbn [Data.roi]. destruct (fst (detect_roi regions color_status)); reflexivity.
Qed.

(** The record that [analyze_image] builds: the prices it binds are in
    [0.000001, 1000000], an exit price only next to an entry price; the roi key
    is always bound, to [None] or to a value in [-100, 10000]; the status is
    the colour status; the coin is [''] or a symbol of the registry; the
    timestamp parses. *)
Theorem analyze_image_record (text_regions : option (list Region.t))
        (color_status : string) (now : Z) (analysis : Analysis.t) :
  analyze_image known_coins text_regions color_status now = Some analysis ->
  let d := Analysis.data analysis in
  price_in_range (Data.entry_price d) /\
  price_in_range (Data.exit_price d) /\
  (Data.exit_price d <> Missing -> Data.entry_price d <> Missing) /\
  Data.roi d <> Missing /\
  (forall roi, get (Data.roi d) = Some roi -> -100 <= roi <= 10000) /\
  Data.status d = Val color_status /\
  (exists coin, Data.coin d = Val coin /\
                (coin = EmptyString \/ In coin known_coins)) /\
  Data.timestamp d = Val (Iso false now).
Proof.
  intros H d. unfold d.
  destruct (analysis_prices_in_range _ _ _ _ H) as (Hentry & Hexit).
  split; [exact Hentry|]. split; [exact Hexit|].
  pose proof (analysis_roi_bound _ _ _ _ H) as Hroi.
  destruct (analyze_image_parts _ _ _ _ H)
    as (regions & _ & _ & _ & _ & _ & Hd).
  rewrite Hd in *. cbn [Data.entry_price Data.exit_price Data.roi Data.status
                                         Data.coin Data.timestamp] in *.
  split; [|split; [|split; [|split; [|split]]]].
  - destruct (detect_prices regions) as [|first [|second rest]];
      intros Hx; congruence.
  - destruct (fst (detect_roi regions color_status)); discriminate.
  - intros roi Hr. apply (detect_roi_range regions color_status).
    destruct (fst (detect_roi regions color_status)); [|discriminate].
    cbn in Hr. exact Hr.
  - unfold detect_roi. destruct (roi_values regions); reflexivity.
  - exists (fst (detect_coin_name known_coins regions)).
    split; [reflexivity|].
    rewrite detect_coin_name_candidates.
    destruct (keep_better_fold
                (flat_map (region_candidates known_coins) regions)
                (EmptyString, 0)) as (_ & _ & [Heq|[Hin Hlt]]).
    + left. rewrite Heq. reflexivity.
    + right. apply candidates_accepted in Hin. cbn [snd] in Hlt.
      apply (accepted_bounds known_coins regions _ Hin Hlt).
  - reflexivity.
Qed.

End AnalyzeFacts.

Lemma analyze_image_record_witness :
  let d := Analysis.data sample_analysis in
  price_in_range (Data.entry_price d) /\
  price_in_range (Data.exit_price d) /\
  (Data.exit_price d <> Missing -> Data.entry_price d <> Missing) /\
  Data.roi d <> Missing /\
  (forall roi, get (Data.roi d) = Some roi -> -100 <= roi <= 10000) /\
  Data.status d = Val "win" /\
  (exists coin, Data.coin d = Val coin /\
                (coin = EmptyString \/ In coin default_coins)) /\
  Data.timestamp d = Val (Iso false 0).
Proof.
  apply (analyze_image_record default_coins (Some sample_regions) "win" 0
                              sample_analysis).
  reflexivity.
Defined.

Section Confidence.
Local Open Scope Q_scope.




(** For a batch of records that [analyze_image] produced, every returned
    trade has a confidence between 0 and 1. *)
Theorem analyzed_batch_confidence (known_coins : list string) (config : Config)
        (processed_data : list Item.t) (trades : list Trade.t) (x : Trade.t) :
  Forall (analyzed known_coins) processed_data ->
  match_signals_to_results config processed_data = Ok trades ->
  In x trades ->
  0 <= Trade.match_confidence x <= 1.
Proof.
  intros Han Hrun Hin.
  pose proof (emitted_origin config processed_data trades Hrun) as Hall.
  rewrite Forall_forall in Hall. specialize (Hall x Hin).
  destruct Hall as [signal result sd rd coin s H1 H2 H3 H4 H5 H6 H7 H8 H9
                   |signal sd coin H1 H2 H3 H4|result rd coin H1 H2 H3 H4];
    cbn [Trade.match_confidence matched_trade signal_only_trade
                                result_only_trade]; [|lra|lra].
  rewrite H7. apply score_bounds.
  apply of_type_In in H1. destruct H1 as [H1 _].
  rewrite Forall_forall in Han.
  destruct (Han signal H1) as (regions & cs & now & analysis & Ha & Hd).
  rewrite H3 in Hd. injection Hd as ->.
  apply (analysis_prices_in_range known_coins _ _ _ _ Ha).
Qed.

(** For a batch of records that [analyze_image] produced, the roi of a
    matched trade is the roi of its result, [None] included: the result
    always binds the key, so the signal's roi is never taken. *)
Theorem analyzed_batch_roi (known_coins : list string) (config : Config)
        (processed_data : list Item.t) (trades : list Trade.t) (x : Trade.t) :
  Forall (analyzed known_coins) processed_data ->
  match_signals_to_results config processed_data = Ok trades ->
  In x trades ->
  is_matched x ->
  exists result result_data,
    In result (of_type "result" processed_data) /\
    Trade.result_image x = Some (Item.path result) /\
    Item.data result = Some result_data /\
    Trade.roi x = Data.roi result_data.
Proof.
  intros Han Hrun Hin Hm.
  pose proof (emitted_origin config processed_data trades Hrun) as Hall.
  rewrite Forall_forall in Hall.
  destruct (matched_origin config processed_data x (Hall x Hin) Hm)
    as (signal & result & sd & rd & coin & s & _ & H2 & _ & H4 & _ & _ & _ & _ & ->).
  exists result, rd. cbn.
  repeat (split; [first [assumption|reflexivity]|]).
  pose proof H2 as H2'. apply of_type_In in H2'. destruct H2' as [H2' _].
  rewrite Forall_forall in Han.
  destruct (Han result H2') as (regions & cs & now & analysis & Ha & Hd).
  rewrite H4 in Hd. injection Hd as ->.
  rewrite (analysis_roi_bound known_coins _ _ _ _ Ha).
  destruct (get (Data.roi (Analysis.data analysis))); reflexivity.
Qed.

End Confidence.

Section ConfidenceWitnesses.
Local Open Scope Q_scope.


Lemma analyzed_batch_is_analyzed :
  Forall (analyzed default_coins) analyzed_batch.
Proof.
  constructor; [|constructor; [|constructor]].
  - exists (Some sample_regions), "neutral", 0%Z.
    eexists. split; reflexivity.
  - exists (Some result_regions), "win", 600000000%Z.
    eexists. split; reflexivity.
Defined.

Lemma analyzed_batch_confidence_witness :
  0 <= Trade.match_confidence analyzed_trade <= 1.
Proof.
  apply (analyzed_batch_confidence default_coins _get_default_config
                                   analyzed_batch analyzed_output analyzed_trade).
  - exact analyzed_batch_is_analyzed.
  - reflexivity.
  - left. reflexivity.
Defined.

Lemma analyzed_batch_roi_witness :
  exists result result_data,
    In result (of_type "result" analyzed_batch) /\
    Trade.result_image analyzed_trade = Some (Item.path result) /\
    Item.data result = Some result_data /\
    Trade.roi analyzed_trade = Data.roi result_data.
Proof.
  apply (analyzed_batch_roi default_coins _get_default_config
                            analyzed_batch analyzed_output analyzed_trade).
  - exact analyzed_batch_is_analyzed.
  - reflexivity.
  - left. reflexivity.
  - exists "signal_epic.png", "result_epic.png". split; reflexivity.
Defined.

End ConfidenceWitnesses.

(** ** [batch_analyze] *)

Section BatchFacts.
Variable A : Type.
Variable analyze : nat -> string -> option A.

Lemma batch_from_spec (image_paths : list string) :
  forall i (e : BatchEntry.t A),
    In e (batch_from A analyze i image_paths) <->
    exists k,
      BatchEntry.index e = (i + k)%nat /\
      nth_error image_paths k = Some (BatchEntry.path e) /\
      analyze (BatchEntry.index e) (BatchEntry.path e) = Some (BatchEntry.data e).
Proof.
  induction image_paths as [|p rest IH]; intros i e; cbn [batch_from].
  - split; [intros []|]. intros (k & _ & Hk & _). destruct k; discriminate.
  - assert (Hrest : In e (batch_from A analyze (S i) rest) <->
                    exists k, BatchEntry.index e = (i + S k)%nat /\
                              nth_error rest k = Some (BatchEntry.path e) /\
                              analyze (BatchEntry.index e) (BatchEntry.path e)
                              = Some (BatchEntry.data e)).
    { rewrite IH. split; intros (k & H1 & H2); exists k;
        (split; [lia|exact H2]). }
    destruct (analyze i p) as [r|] eqn:E.
    + split.
      * intros [<-|Hin].
        -- exists 0%nat. cbn. repeat split; [lia|].
           replace (i + 0)%nat with i by lia. exact E.
        -- apply Hrest in Hin. destruct Hin as (k & H1 & H2 & H3).
           exists (S k). repeat split; assumption.
      * intros ([|k] & H1 & H2 & H3).
        -- left. cbn in H2. injection H2 as H2. destruct e as [ep ed ei].
           cbn in *. subst ep. replace ei with i in * by lia.
           rewrite E in H3. injection H3 as <-. reflexivity.
        -- right. apply Hrest. exists k. repeat split; assumption.
    + rewrite Hrest. split.
      * intros (k & H1 & H2 & H3). exists (S k). repeat split; assumption.
      * intros ([|k] & H1 & H2 & H3).
        -- cbn in H2. injection H2 as H2.
           replace (BatchEntry.index e) with i in H3 by lia.
           rewrite <- H2, E in H3. discriminate.
        -- exists k. repeat split; assumption.
Qed.

(** The entries of [batch_analyze] are exactly the images with a true
    analysis, each with its analysis and with its position in [image_paths]
    (not in the result list) as index. *)
Theorem batch_analyze_spec (image_paths : list string) (e : BatchEntry.t A) :
  In e (batch_analyze A analyze image_paths) <->
  nth_error image_paths (BatchEntry.index e) = Some (BatchEntry.path e) /\
  analyze (BatchEntry.index e) (BatchEntry.path e) = Some (BatchEntry.data e).
Proof.
  unfold batch_analyze. rewrite batch_from_spec. split.
  - intros (k & H1 & H2 & H3). cbn in H1. subst k. split; assumption.
  - intros (H1 & H2). exists (BatchEntry.index e). repeat split; assumption.
Qed.

End BatchFacts.

(** ** [export_analysis_report] *)

Section ExportFacts.
Local Open Scope Q_scope.

Lemma sort_key_none (x : Trade.t) : sort_key x = None <-> Trade.roi x = PyNone.
Proof.
  unfold sort_key. destruct (Trade.roi x); cbn; split; congruence.
Qed.

Lemma sort_key_some (x : Trade.t) (q : Q) :
  sort_key x = Some q -> roi_or_zero x = q.
Proof.
  unfold sort_key, roi_or_zero. destruct (Trade.roi x); cbn; congruence.
Qed.

Lemma fold_plus_shift (xs : list Q) :
  forall acc, fold_left Qplus xs acc == acc + fold_left Qplus xs 0.
Proof.
  induction xs as [|x xs IH]; intros acc; cbn [fold_left]; [lra|].
  rewrite (IH (acc + x)), (IH (0 + x)). lra.
Qed.

Lemma sum_from_spec (trades : list Trade.t) :
  forall acc,
    match sum_from acc (map sort_key trades) with
    | Ok total =>
        (forall x, In x trades -> Trade.roi x <> PyNone) /\
        total == acc + sum (map roi_or_zero trades)
    | Raise _ => exists x, In x trades /\ Trade.roi x = PyNone
    end.
Proof.
  induction trades as [|x rest IH]; intros acc; cbn [map sum_from].
  - split; [intros x []|]. unfold sum. cbn. lra.
  - destruct (sort_key x) as [q|] eqn:E.
    + specialize (IH (acc + q)).
      destruct (sum_from (acc + q) (map sort_key rest)) as [total|e].
      * destruct IH as [Hall Htotal]. split.
        -- intros y [<-|Hy]; [|apply Hall; exact Hy].
           intros Hn. apply sort_key_none in Hn. congruence.
        -- rewrite Htotal. unfold sum. cbn [map fold_left].
           rewrite (sort_key_some x q E).
           rewrite (fold_plus_shift _ (0 + q)). lra.
      * destruct IH as (y & Hy & Hn). exists y. split; [right; exact Hy|exact Hn].
    + exists x. split; [left; reflexivity|]. apply sort_key_none. exact E.
Qed.

Lemma count_status_disjoint (trades : list Trade.t) :
  (count_status "win" trades + count_status "loss" trades
   + count_status "pending" trades <= List.length trades)%nat.
Proof.
  unfold count_status. induction trades as [|x rest IH]; cbn [filter List.length];
    [lia|].
  destruct (Trade.status x) as [s|]; [|lia].
  destruct (String.eqb s "win") eqn:E1.
  - apply String.eqb_eq in E1. subst s. cbn. lia.
  - destruct (String.eqb s "loss") eqn:E2.
    + apply String.eqb_eq in E2. subst s. cbn. lia.
    + destruct (String.eqb s "pending"); cbn [List.length]; lia.
Qed.

(** Building the report raises, so that no file is opened, exactly when a
    trade binds its roi to [None]: the sum for the average fails on it.
    Otherwise the summary counts every trade, counts no trade under two of
    win, loss and pending, and has as average roi the sum of the rois (a
    trade without roi key counting 0) over the number of trades, 0 for no
    trades. *)
Theorem export_analysis_report_spec (trades : list Trade.t) :
  (export_analysis_report trades = None <->
   exists x, In x trades /\ Trade.roi x = PyNone) /\
  (forall summary,
      export_analysis_report trades = Some summary ->
      Summary.total_trades summary = List.length trades /\
      (Summary.winning_trades summary + Summary.losing_trades summary
       + Summary.pending_trades summary <= Summary.total_trades summary)%nat /\
      Summary.avg_roi summary * inject_Z (Z.of_nat (List.length trades))
      == sum (map roi_or_zero trades) /\
      (trades = [] -> Summary.avg_roi summary = 0)).
Proof.
  unfold export_analysis_report, summarize.
  destruct trades as [|x rest].
  - cbn [bind]. split.
    + split; [discriminate|]. intros (y & [] & _).
    + intros summary H. injection H as <-. cbn. repeat split; try lia.
  - pose proof (sum_from_spec (x :: rest) 0) as Hsum.
    destruct (sum_from 0 (map sort_key (x :: rest))) as [total|e]; cbn [bind].
    + destruct Hsum as [Hall Htotal]. split.
      * split; [discriminate|]. intros (y & Hy & Hn).
        exfalso. exact (Hall y Hy Hn).
      * intros summary H. injection H as <-.
        cbn [Summary.total_trades Summary.winning_trades Summary.losing_trades
                                  Summary.pending_trades Summary.avg_roi].
        split; [reflexivity|]. split; [apply count_status_disjoint|].
        split; [|discriminate].
        rewrite Qmult_comm, Qmult_div_r; [rewrite Htotal; lra|].
        unfold Qeq. simpl. lia.
    + split; [|discriminate]. split; [intros _; exact Hsum|reflexivity].
Qed.

End ExportFacts.

(** ** The batches of [main.py] *)

Section CallerFacts.
Variable analyze_nth : nat -> string -> option Data.t.

Lemma existsb_eqb_In (p : string) (l : list string) :
  existsb (String.eqb p) l = true <-> In p l.
Proof.
  rewrite existsb_exists. split.
  - intros (x & Hx & E). apply String.eqb_eq in E. subst x. exact Hx.
  - intros H. exists p. split; [exact H|apply String.eqb_refl].
Qed.

Lemma enumerate_In {X : Type} (xs : list X) (i : nat) (x : X) :
  In (i, x) (enumerate xs) -> In x xs.
Proof. unfold enumerate. apply in_combine_r. Qed.

(** In the batch of [process_images] every record has data, and its type is
    "signal" exactly when its path is among the signal images: an image
    chosen both as signal and as result is analysed twice and both records
    are signals. *)
Theorem process_images_types (signal_images result_images : list string)
        (d : Item.t) :
  In d (process_images analyze_nth signal_images result_images) ->
  In (Item.path d) (signal_images ++ result_images) /\
  Item.data d <> None /\
  (Item.type d = "signal" <-> In (Item.path d) signal_images) /\
  (Item.type d = "result" <-> ~ In (Item.path d) signal_images).
Proof.
  unfold process_images. rewrite in_flat_map.
  intros ([i p] & Hin & Hd). apply enumerate_In in Hin.
  destruct (analyze_nth i p) as [a|]; [|contradiction].
  destruct Hd as [<-|[]]. cbn [Item.path Item.type Item.data].
  split; [exact Hin|]. split; [discriminate|].
  destruct (existsb (String.eqb p) signal_images) eqn:E.
  - apply existsb_eqb_In in E. split; split; intros H;
      try reflexivity; try assumption; try discriminate; contradiction.
  - assert (N : ~ In p signal_images).
    { intros H. apply existsb_eqb_In in H. congruence. }
    split; split; intros H; try reflexivity; try assumption;
      try discriminate; contradiction.
Qed.

Lemma enumerate_map {X Y : Type} (h : X -> Y) (xs : list X) :
  enumerate (map h xs) = map (fun '(i, x) => (i, h x)) (enumerate xs).
Proof.
  unfold enumerate. rewrite length_map.
  generalize (seq 0 (List.length xs)). induction xs as [|x xs IH];
    intros [|i idx]; cbn; try reflexivity.
  rewrite IH. reflexivity.
Qed.

Lemma flat_map_after_map {X Y Z : Type} (f : Y -> list Z) (g : X -> Y)
      (xs : list X) :
  flat_map f (map g xs) = flat_map (fun x => f (g x)) xs.
Proof.
  induction xs as [|x xs IH]; cbn; [reflexivity|]. rewrite IH. reflexivity.
Qed.

(** When no image is chosen both as signal and as result, the graphical
    front end and the command line build the same batch from the same
    images. *)
Theorem process_images_as_cli (signal_images result_images : list string) :
  (forall p, In p signal_images -> ~ In p result_images) ->
  process_images analyze_nth signal_images result_images
  = run_cli_mode analyze_nth signal_images result_images.
Proof.
  intros Hdisjoint. unfold process_images, run_cli_mode.
  set (tag := fun img : string =>
                (img, if existsb (String.eqb img) signal_images
                      then "signal" else "result")).
  assert (E : map (fun img => (img, "signal")) signal_images
              ++ map (fun img => (img, "result")) result_images
              = map tag (signal_images ++ result_images)).
  { rewrite map_app. f_equal; apply map_ext_in; intros p Hp; unfold tag.
    - apply existsb_eqb_In in Hp. rewrite Hp. reflexivity.
    - destruct (existsb (String.eqb p) signal_images) eqn:Ex; [|reflexivity].
      apply existsb_eqb_In in Ex. exfalso. exact (Hdisjoint p Ex Hp). }
  rewrite E, enumerate_map, flat_map_after_map.
  apply flat_map_ext. intros [i p]. reflexivity.
Qed.

End CallerFacts.

Lemma process_images_types_witness :
  In (Item.path sample_signal) (["signal_btc.png"] ++ ["result_btc.png"]) /\
  Item.data sample_signal <> None /\
  (Item.type sample_signal = "signal" <->
   In (Item.path sample_signal) ["signal_btc.png"]) /\
  (Item.type sample_signal = "result" <->
   ~ In (Item.path sample_signal) ["signal_btc.png"]).
Proof.
  apply (process_images_types
           (fun i _ => if Nat.eqb i 0 then Some btc_signal_data
                       else Some btc_result_data)
           ["signal_btc.png"] ["result_btc.png"] sample_signal).
  left. reflexivity.
Defined.

Lemma process_images_as_cli_witness :
  process_images (fun _ _ => Some btc_signal_data)
                 ["signal_btc.png"] ["result_btc.png"]
  = run_cli_mode (fun _ _ => Some btc_signal_data)
                 ["signal_btc.png"] ["result_btc.png"].
Proof.
  apply (process_images_as_cli (fun _ _ => Some btc_signal_data)
                               ["signal_btc.png"] ["result_btc.png"]).
  intros p [<-|[]] [H|[]]. discriminate.
Defined.
